(** * Satellite viewer: a shallow embedding of [3D_WEB_VIEW/main.js],
      [scripts/objects.js] and the drop handler, with the properties the
      specification states about them.

    Conventions.
    - A JavaScript string is a [string] of 8-bit code units (the ISO-8859-1
      range of UTF-16); the text functions work on [list ascii].
    - A JavaScript number is a real number ([R]): no rounding, no NaN.
    - The rendering library and the DOM are not embedded: what the code
      asks of them (a bounding box, a ray cast, the value a form control
      reports) is a parameter of the section that uses it, and every call
      that the claims talk about is recorded in a trace of [event]s. *)

From Stdlib Require Import String Ascii List Bool Arith ZArith Lia Reals Lra.
From stdpp Require Import base option gmap strings.
Import ListNotations.

Set Warnings "-register-all,-clear-no-such-hyp".

Local Open Scope string_scope.
Local Open Scope list_scope.

(* ------------------------------------------------------------------ *)
(** ** Code units and character classes *)

Module Chars.

Definition code (c : ascii) : nat := nat_of_ascii c.

Definition inRange (lo hi : nat) (c : ascii) : bool :=
  (lo <=? code c)%nat && (code c <=? hi)%nat.

(** [\s] on the 8-bit range: TAB, LF, VT, FF, CR, SPACE and NBSP. *)
Definition isSpace (c : ascii) : bool :=
  inRange 9 13 c || (code c =? 32)%nat || (code c =? 160)%nat.

(** [\d] *)
Definition isDigit (c : ascii) : bool := inRange 48 57 c.

(** [\w] is [A-Za-z0-9_]. *)
Definition isWord (c : ascii) : bool :=
  inRange 65 90 c || inRange 97 122 c || isDigit c || (code c =? 95)%nat.

(** Line terminators, which [.] does not match. *)
Definition isLineTerminator (c : ascii) : bool :=
  (code c =? 10)%nat || (code c =? 13)%nat.

(** [String.prototype.toLowerCase] on one code unit. *)
Definition toLower (c : ascii) : ascii :=
  if inRange 65 90 c then ascii_of_nat (code c + 32)
  else if inRange 192 222 c && negb (code c =? 215)%nat
       then ascii_of_nat (code c + 32)
  else c.

(** [Canonicalize] of a regular expression with the [i] flag and without
    the [u] flag: the upper-case form, when that is a single code unit of
    the same range. *)
Definition canonicalize (c : ascii) : ascii :=
  if inRange 97 122 c then ascii_of_nat (code c - 32)
  else if inRange 224 254 c && negb (code c =? 247)%nat
       then ascii_of_nat (code c - 32)
  else c.

Definition eqb_ci (a b : ascii) : bool :=
  Ascii.eqb (canonicalize a) (canonicalize b).

Definition space : ascii := " "%char.

End Chars.

(* ------------------------------------------------------------------ *)
(** ** Regular expressions: the backtracking matcher of the language *)

Module Regex.
Import Chars.

Inductive regex : Type :=
| Chr (c : ascii)              (* a pattern character, under the [i] flag *)
| Cls (p : ascii -> bool)      (* a character class *)
| Cat (r1 r2 : regex)
| Star (r : regex)             (* greedy [*] *)
| WordBoundary                 (* [\b] *)
| EndOfInput.                  (* [$] without the [m] flag *)

Definition Plus (r : regex) : regex := Cat r (Star r).

(** A word of the pattern, character by character; the empty pattern
    matches the empty text. *)
Fixpoint Lit (l : list ascii) : regex :=
  match l with
  | [] => Star (Cls (fun _ => false))
  | [c] => Chr c
  | c :: t => Cat (Chr c) (Lit t)
  end.

Definition lit (s : string) : regex := Lit (list_ascii_of_string s).

Definition isWordOpt (o : option ascii) : bool :=
  match o with Some c => isWord c | None => false end.

(** A continuation receives the character before the current position,
    the rest of the input and the number of characters consumed so far,
    and answers with the length of the whole match. *)
Definition cont := option ascii -> list ascii -> nat -> option nat.

(** A matcher for one regular expression, given the continuation. *)
Definition matcher := option ascii -> list ascii -> nat -> cont -> option nat.

(** The greedy loop of [r*]: one more round of [m] if it consumes
    something and the rest then matches, otherwise the continuation. *)
Fixpoint starLoop (m : matcher) (k : cont) (fuel : nat)
         (prev : option ascii) (s : list ascii) (n : nat) : option nat :=
  match fuel with
  | O => k prev s n
  | S fuel' =>
      match m prev s n
              (fun prev' s' n' =>
                 if (n <? n')%nat then starLoop m k fuel' prev' s' n'
                 else None)
      with
      | Some len => Some len
      | None => k prev s n
      end
  end.

Fixpoint rmatch (r : regex) (prev : option ascii) (s : list ascii)
         (n : nat) (k : cont) {struct r} : option nat :=
  match r with
  | Chr c =>
      match s with
      | x :: t => if eqb_ci x c then k (Some x) t (S n) else None
      | [] => None
      end
  | Cls p =>
      match s with
      | x :: t => if p x then k (Some x) t (S n) else None
      | [] => None
      end
  | Cat r1 r2 =>
      rmatch r1 prev s n (fun prev' s' n' => rmatch r2 prev' s' n' k)
  | Star r1 => starLoop (rmatch r1) k (length s) prev s n
  | WordBoundary =>
      if xorb (isWordOpt prev) (isWordOpt (head s)) then k prev s n else None
  | EndOfInput =>
      match s with [] => k prev s n | _ :: _ => None end
  end.

(** The length of the match of [r] that starts at the current position. *)
Definition matchAt (r : regex) (prev : option ascii) (s : list ascii)
  : option nat :=
  rmatch r prev s 0 (fun _ _ n => Some n).

(** [s.replace(/r/g, rep)]: scan from the left; where [r] matches a
    non-empty text, that text is replaced and the scan resumes after it.
    [skip] counts the characters of the current match still to drop. *)
Fixpoint replaceFrom (r : regex) (rep : list ascii) (prev : option ascii)
         (skip : nat) (s : list ascii) : list ascii :=
  match s with
  | [] => []
  | c :: t =>
      match skip with
      | S k => replaceFrom r rep (Some c) k t
      | O =>
          match matchAt r prev s with
          | Some (S m) => rep ++ replaceFrom r rep (Some c) m t
          | _ => c :: replaceFrom r rep (Some c) 0 t
          end
      end
  end.

Definition replaceAll (r : regex) (rep : string) (s : list ascii)
  : list ascii :=
  replaceFrom r (list_ascii_of_string rep) None 0 s.

End Regex.

(* ------------------------------------------------------------------ *)
(** ** Text: the string methods the viewer uses *)

Module Text.
Import Chars Regex.

Definition chars := list ascii.

Definition str (s : string) : chars := list_ascii_of_string s.

Fixpoint dropSpaces (s : chars) : chars :=
  match s with
  | c :: t => if isSpace c then dropSpaces t else s
  | [] => []
  end.

(** [String.prototype.trim] *)
Definition trim (s : chars) : chars :=
  rev (dropSpaces (rev (dropSpaces s))).

(** [s.split(' ')]: the pieces between the spaces, the empty ones too. *)
Fixpoint split (sep : ascii) (s : chars) : list chars :=
  match s with
  | [] => [[]]
  | c :: t =>
      if Ascii.eqb c sep then [] :: split sep t
      else match split sep t with
           | w :: ws => (c :: w) :: ws
           | [] => [[c]]
           end
  end.

(** [ws.join(' ')] *)
Fixpoint join (sep : ascii) (ws : list chars) : chars :=
  match ws with
  | [] => []
  | [w] => w
  | w :: ws' => w ++ sep :: join sep ws'
  end.

Definition toLowerCase (s : chars) : chars := map toLower s.

Fixpoint chars_eqb (a b : chars) : bool :=
  match a, b with
  | [], [] => true
  | x :: a', y :: b' => Ascii.eqb x y && chars_eqb a' b'
  | _, _ => false
  end.

(** [Array.prototype.includes] and [Set.prototype.has] on strings. *)
Definition includes (ws : list chars) (w : chars) : bool :=
  existsb (chars_eqb w) ws.

(** The words of a text: its maximal runs of characters that are not
    white space. *)
Fixpoint wordsFrom (cur : chars) (s : chars) : list chars :=
  match s with
  | [] => match cur with [] => [] | _ => [rev cur] end
  | c :: t =>
      if isSpace c
      then match cur with
           | [] => wordsFrom [] t
           | _ => rev cur :: wordsFrom [] t
           end
      else wordsFrom (c :: cur) t
  end.

Definition words (s : chars) : list chars := wordsFrom [] s.

Definition wordCount (s : string) : nat := length (words (str s)).

End Text.

(* ------------------------------------------------------------------ *)
(** ** [formatPartName] *)

Module PartName.
Import Chars Regex Text.

Definition ws1 : regex := Plus (Cls isSpace).          (* \s+ *)
Definition ws0 : regex := Star (Cls isSpace).          (* \s* *)
Definition anyChar : regex := Cls (fun c => negb (isLineTerminator c)).

Definition isSep (c : ascii) : bool :=
  Ascii.eqb c "_"%char || Ascii.eqb c "-"%char.

(** [/\bw\b/gi] *)
Definition word1 (w : string) : regex :=
  Cat WordBoundary (Cat (lit w) WordBoundary).

(** [/\bw1\s+w2\b/gi] *)
Definition word2 (w1 w2 : string) : regex :=
  Cat WordBoundary (Cat (lit w1) (Cat ws1 (Cat (lit w2) WordBoundary))).

(** [/\bexhaust\s*\d+\s*.*$/gi] *)
Definition exhaustTail : regex :=
  Cat WordBoundary
    (Cat (lit "exhaust")
       (Cat ws0 (Cat (Plus (Cls isDigit))
          (Cat ws0 (Cat (Star anyChar) EndOfInput))))).

(** The replacements of [formatPartName], in the order of the source. *)
Definition renames : list (regex * string) :=
  [ (word1 "panel", "Solar Arrays");
    (word2 "heat" "shield", "Crew Module");
    (word2 "mid12" "white", "Crew Module Adapter");
    (word2 "mid02" "white", "EUROPEAN SERVICE MODULE");
    (word2 "mid17" "white", "EUROPEAN SERVICE MODULE");
    (word2 "mid" "white", "Crew Module Adapter");
    (word2 "exhaust01" "exhaust", "Exhaust");
    (word1 "exhaust02", "Exhaust");
    (word1 "exhaust01", "Exhaust");
    (word2 "exhaust" "metal", "Exhaust");
    (word2 "exhaust" "uv", "Exhaust");
    (exhaustTail, "Exhaust") ].

Definition applyRenames (s : chars) : chars :=
  fold_left (fun acc rr => replaceAll (fst rr) (snd rr) acc) renames s.

Definition suffixWords : list chars :=
  [str "uv"; str "metal"; str "texture"; str "material"].

(** The loop over [words]: [uniqueWords] is kept in order, [seen] holds
    the lower-case forms met so far. *)
Fixpoint uniqueLoop (ws : list chars) (uniqueWords seen : list chars)
  : list chars :=
  match ws with
  | [] => uniqueWords
  | word :: rest =>
      let lowerWord := toLowerCase word in
      if negb (includes seen lowerWord)
         && ((length uniqueWords <? 2)%nat
             || negb (includes suffixWords lowerWord))
      then uniqueLoop rest (uniqueWords ++ [word]) (seen ++ [lowerWord])
      else uniqueLoop rest uniqueWords seen
  end.

Definition formatChars (name : chars) : chars :=
  let formatted := replaceAll (Cls isSep) " " name in
  let formatted := trim (replaceAll ws1 " " formatted) in
  let formatted := applyRenames formatted in
  let ws := split space formatted in
  let uniqueWords := uniqueLoop ws [] [] in
  join space (firstn 2 uniqueWords).

Definition formatPartName (name : string) : string :=
  match name with
  | EmptyString => name                       (* if (!name) return name *)
  | _ => string_of_list_ascii (formatChars (str name))
  end.

End PartName.

(* ------------------------------------------------------------------ *)
(** ** The scene graph: what the viewer reads and writes of the rendering
       library's objects *)

Module Scene.

Record vec3 : Type := Vec3 { vx : R; vy : R; vz : R }.

(** A colour, as [Color.getHex] reads it: three 8-bit channels. *)
Record color : Type := Color { red : Byte.byte; green : Byte.byte; blue : Byte.byte }.

Inductive colorSpace : Type := SRGBColorSpace | NoColorSpace | LoaderColorSpace.

Inductive filter : Type := LinearMipmapLinearFilter | LinearFilter | LoaderFilter.

Record texture : Type := Texture {
  tex_id : nat;                          (* the identity of the object *)
  tex_colorSpace : colorSpace;
  tex_minFilter : filter;
  tex_magFilter : filter;
  tex_repeat : bool;                     (* wrapS = wrapT = RepeatWrapping *)
  tex_hasImage : bool;                   (* image && image.width *)
  tex_generateMipmaps : bool;
  tex_isColorTexture : option bool;      (* userData.isColorTexture *)
  tex_sourceUrl : option string;         (* userData.sourceUrl *)
  tex_src : option string;               (* source.data.src *)
  tex_needsUpdate : bool
}.

Inductive materialType : Type :=
| MeshStandardMaterial | MeshPhysicalMaterial
| MeshBasicMaterial | MeshPhongMaterial | MeshLambertMaterial.

(** The six texture slots of a material, in the order of the source. *)
Inductive mapName : Type :=
| map_ | normalMap | roughnessMap | metalnessMap | aoMap | emissiveMap.

Definition textureMaps : list mapName :=
  [map_; normalMap; roughnessMap; metalnessMap; aoMap; emissiveMap].

Record material : Type := Material {
  mat_id : nat;                          (* the identity of the object *)
  mat_uuid : string;
  mat_name : string;
  mat_type : materialType;
  mat_color : option color;
  mat_roughness : option R;
  mat_metalness : option R;
  mat_emissive : option color;
  mat_emissiveIntensity : option R;
  mat_opacity : option R;
  mat_transparent : bool;
  mat_depthWrite : option bool;
  mat_envMapIntensity : option R;
  mat_maps : mapName -> option texture;
  mat_needsUpdate : bool
}.

Definition isCanonical (m : material) : bool :=
  match mat_type m with
  | MeshStandardMaterial | MeshPhysicalMaterial => true
  | _ => false
  end.

(** [child.material]: one material or an array of them. *)
Inductive materialSlot : Type :=
| One (m : material)
| Many (ms : list material).

(** [Array.isArray(x) ? x : [x]] *)
Definition materialsOf (slot : materialSlot) : list material :=
  match slot with One m => [m] | Many ms => ms end.

Record partInfo : Type := PartInfo { part_name : string; part_description : string }.

(** The fields of one [Object3D]. *)
Record obj : Type := Obj {
  uuid : string;
  name : string;
  isMesh : bool;
  position : vec3;
  rotation : vec3;
  scale : vec3;
  visible : bool;
  castShadow : bool;
  geometry : option nat;                 (* the identity of the geometry *)
  materialOf : option materialSlot;
  userData_partInfo : option partInfo
}.

Inductive object3d : Type :=
| Node (o : obj) (children : list object3d).

Definition root (t : object3d) : obj := match t with Node o _ => o end.

(** [object.traverse(callback)] visits the object, then its children in
    order, each with its own descendants. *)
Fixpoint traverse (t : object3d) : list obj :=
  match t with
  | Node o cs => o :: flat_map traverse cs
  end.

(** A traversal whose callback writes fields of the visited object only. *)
Fixpoint traverseMap (f : obj -> obj) (t : object3d) : object3d :=
  match t with
  | Node o cs => Node (f o) (List.map (traverseMap f) cs)
  end.

Fixpoint size (t : object3d) : nat :=
  match t with
  | Node _ cs => S (list_sum (List.map size cs))
  end.

(** A write to the [i]-th object of the traversal. *)
Fixpoint updateNth (f : obj -> obj) (t : object3d) (i : nat) : object3d :=
  match t with
  | Node o cs =>
      match i with
      | O => Node (f o) cs
      | S j =>
          Node o
            ((fix inChildren (cs : list object3d) (j : nat) : list object3d :=
                match cs with
                | [] => []
                | c :: rest =>
                    if (j <? size c)%nat then updateNth f c j :: rest
                    else c :: inChildren rest (j - size c)%nat
                end) cs j)
      end
  end.

Definition setRoot (f : obj -> obj) (t : object3d) : object3d :=
  match t with Node o cs => Node (f o) cs end.

(* Field writes. *)
Definition setPosition (p : vec3) (o : obj) : obj :=
  Obj (uuid o) (name o) (isMesh o) p (rotation o) (scale o) (visible o)
      (castShadow o) (geometry o) (materialOf o) (userData_partInfo o).
Definition setRotation (r : vec3) (o : obj) : obj :=
  Obj (uuid o) (name o) (isMesh o) (position o) r (scale o) (visible o)
      (castShadow o) (geometry o) (materialOf o) (userData_partInfo o).
Definition setScale (s : vec3) (o : obj) : obj :=
  Obj (uuid o) (name o) (isMesh o) (position o) (rotation o) s (visible o)
      (castShadow o) (geometry o) (materialOf o) (userData_partInfo o).
Definition setVisible (v : bool) (o : obj) : obj :=
  Obj (uuid o) (name o) (isMesh o) (position o) (rotation o) (scale o) v
      (castShadow o) (geometry o) (materialOf o) (userData_partInfo o).
Definition setCastShadow (v : bool) (o : obj) : obj :=
  Obj (uuid o) (name o) (isMesh o) (position o) (rotation o) (scale o)
      (visible o) v (geometry o) (materialOf o) (userData_partInfo o).
Definition setMaterial (m : option materialSlot) (o : obj) : obj :=
  Obj (uuid o) (name o) (isMesh o) (position o) (rotation o) (scale o)
      (visible o) (castShadow o) (geometry o) m (userData_partInfo o).
Definition setPartInfo (p : option partInfo) (o : obj) : obj :=
  Obj (uuid o) (name o) (isMesh o) (position o) (rotation o) (scale o)
      (visible o) (castShadow o) (geometry o) (materialOf o) p.

Definition mapName_eqb (a b : mapName) : bool :=
  match a, b with
  | map_, map_ | normalMap, normalMap | roughnessMap, roughnessMap
  | metalnessMap, metalnessMap | aoMap, aoMap | emissiveMap, emissiveMap => true
  | _, _ => false
  end.

Definition setMap (k : mapName) (t : option texture) (m : material) : material :=
  Material (mat_id m) (mat_uuid m) (mat_name m) (mat_type m) (mat_color m)
    (mat_roughness m) (mat_metalness m) (mat_emissive m)
    (mat_emissiveIntensity m) (mat_opacity m) (mat_transparent m)
    (mat_depthWrite m) (mat_envMapIntensity m)
    (fun k' => if mapName_eqb k' k then t else mat_maps m k')
    (mat_needsUpdate m).

Definition setNeedsUpdate (m : material) : material :=
  Material (mat_id m) (mat_uuid m) (mat_name m) (mat_type m) (mat_color m)
    (mat_roughness m) (mat_metalness m) (mat_emissive m)
    (mat_emissiveIntensity m) (mat_opacity m) (mat_transparent m)
    (mat_depthWrite m) (mat_envMapIntensity m) (mat_maps m) true.

End Scene.

(* ------------------------------------------------------------------ *)
(** ** The state of a [SatelliteViewer] and of the page *)

Module State.
Import Scene.

(** Calls into the rendering library and the browser, in program order. *)
Inductive event : Type :=
| SceneAdd (uuid : string)
| SceneRemove (uuid : string)
| GeometryDispose (geometry : nat)
| MaterialDispose (material : nat)
| TextureDispose (texture : nat)
| LineAdd | LineRemove | LineDispose
| MarkerAdd | MarkerRemove | MarkerDispose
| LoaderLoad (url : string)
| TextureLoad (url : string) (material : nat)
| RevokeObjectURL (url : string)
| BuildOutliner (loaded : bool)
| CameraSet (z : R)
| ControlsUpdate
| Render
| Alert (msg : string)
| ConsoleLog (msg : string)
| ConsoleWarn (msg : string)
| ConsoleError (msg : string)
| SetTimeout (ms : nat) (callback : string)
| RequestAnimationFrame
| LoadDefaultHDRI
| Background (call : string).

Record light : Type := Light {
  intensity : R;
  lightColor : color;
  lightPosition : vec3
}.

(** The page: form control values, text contents and class lists, by
    element id. *)
Record page : Type := Page {
  values : gmap string string;
  texts : gmap string string;
  classes : gset (string * string);
  styles : gmap (string * string) string
}.

Record selection : Type := Selection {
  selectedPart : option string;          (* objects are held by uuid *)
  selectedObject : option string;
  selectedIntersectionPoint : option vec3;
  lastIntersectionPoint : option vec3;
  connectionLine : option (vec3 * vec3);
  connectionMarker : option vec3
}.

Record lights : Type := Lights {
  ambientLight : option light;
  directionalLight : option light;
  fillLight : option light;
  pointLight : option light;
  initialDirectional : option vec3;      (* initialLightPositions *)
  initialFill : option vec3;
  initialPoint : option vec3
}.

Record backdrop : Type := Backdrop {
  backgroundIntensity : R;
  starFieldVisible : bool;
  environmentOn : bool;                  (* scene.environment is set *)
  environmentMap : bool;                 (* this.environmentMap is set *)
  currentEnvIntensity : R
}.

Record viewer : Type := Viewer {
  satellite : option object3d;
  partData : gmap string partInfo;
  mouse : R * R;
  sel : selection;
  isRotationPaused : bool;
  rotationTime : R;
  lastFrameTime : R;
  lamps : lights;
  back : backdrop;
  currentPreset : option string;
  dom : page;
  trace : list event
}.

(* Field writes. *)
Definition withSatellite (x : option object3d) (v : viewer) : viewer :=
  Viewer x (partData v) (mouse v) (sel v) (isRotationPaused v)
    (rotationTime v) (lastFrameTime v) (lamps v) (back v) (currentPreset v)
    (dom v) (trace v).
Definition withPartData (x : gmap string partInfo) (v : viewer) : viewer :=
  Viewer (satellite v) x (mouse v) (sel v) (isRotationPaused v)
    (rotationTime v) (lastFrameTime v) (lamps v) (back v) (currentPreset v)
    (dom v) (trace v).
Definition withMouse (x : R * R) (v : viewer) : viewer :=
  Viewer (satellite v) (partData v) x (sel v) (isRotationPaused v)
    (rotationTime v) (lastFrameTime v) (lamps v) (back v) (currentPreset v)
    (dom v) (trace v).
Definition withSel (x : selection) (v : viewer) : viewer :=
  Viewer (satellite v) (partData v) (mouse v) x (isRotationPaused v)
    (rotationTime v) (lastFrameTime v) (lamps v) (back v) (currentPreset v)
    (dom v) (trace v).
Definition withPaused (x : bool) (v : viewer) : viewer :=
  Viewer (satellite v) (partData v) (mouse v) (sel v) x
    (rotationTime v) (lastFrameTime v) (lamps v) (back v) (currentPreset v)
    (dom v) (trace v).
Definition withRotationTime (x : R) (v : viewer) : viewer :=
  Viewer (satellite v) (partData v) (mouse v) (sel v) (isRotationPaused v)
    x (lastFrameTime v) (lamps v) (back v) (currentPreset v)
    (dom v) (trace v).
Definition withLastFrameTime (x : R) (v : viewer) : viewer :=
  Viewer (satellite v) (partData v) (mouse v) (sel v) (isRotationPaused v)
    (rotationTime v) x (lamps v) (back v) (currentPreset v)
    (dom v) (trace v).
Definition withLamps (x : lights) (v : viewer) : viewer :=
  Viewer (satellite v) (partData v) (mouse v) (sel v) (isRotationPaused v)
    (rotationTime v) (lastFrameTime v) x (back v) (currentPreset v)
    (dom v) (trace v).
Definition withBack (x : backdrop) (v : viewer) : viewer :=
  Viewer (satellite v) (partData v) (mouse v) (sel v) (isRotationPaused v)
    (rotationTime v) (lastFrameTime v) (lamps v) x (currentPreset v)
    (dom v) (trace v).
Definition withPreset (x : option string) (v : viewer) : viewer :=
  Viewer (satellite v) (partData v) (mouse v) (sel v) (isRotationPaused v)
    (rotationTime v) (lastFrameTime v) (lamps v) (back v) x
    (dom v) (trace v).
Definition withDom (x : page) (v : viewer) : viewer :=
  Viewer (satellite v) (partData v) (mouse v) (sel v) (isRotationPaused v)
    (rotationTime v) (lastFrameTime v) (lamps v) (back v) (currentPreset v)
    x (trace v).

(** A call into the library or the browser, appended to the trace. *)
Definition emit (e : event) (v : viewer) : viewer :=
  Viewer (satellite v) (partData v) (mouse v) (sel v) (isRotationPaused v)
    (rotationTime v) (lastFrameTime v) (lamps v) (back v) (currentPreset v)
    (dom v) (trace v ++ [e]).

Definition emits (es : list event) (v : viewer) : viewer :=
  fold_left (fun v e => emit e v) es v.

(* The page. *)
Definition setValue (id x : string) (d : page) : page :=
  Page (<[id := x]> (values d)) (texts d) (classes d) (styles d).
Definition setText (id x : string) (d : page) : page :=
  Page (values d) (<[id := x]> (texts d)) (classes d) (styles d).
Definition setStyle (id prop x : string) (d : page) : page :=
  Page (values d) (texts d) (classes d) (<[(id, prop) := x]> (styles d)).
Definition getValue (id : string) (d : page) : string :=
  default "" (values d !! id).
Definition getText (id : string) (d : page) : string :=
  default "" (texts d !! id).

(** [classList.contains], [add], [remove] and [toggle]; [toggle] returns
    whether the class is present afterwards. *)
Definition hasClass (id c : string) (d : page) : bool :=
  bool_decide ((id, c) ∈ classes d).
Definition addClass (id c : string) (d : page) : page :=
  Page (values d) (texts d) (classes d ∪ {[ (id, c) ]}) (styles d).
Definition removeClass (id c : string) (d : page) : page :=
  Page (values d) (texts d) (classes d ∖ {[ (id, c) ]}) (styles d).
Definition toggleClass (id c : string) (d : page) : bool * page :=
  if hasClass id c d then (false, removeClass id c d)
  else (true, addClass id c d).

Definition onDom (f : page -> page) (v : viewer) : viewer :=
  withDom (f (dom v)) v.

End State.

(* ------------------------------------------------------------------ *)
(** ** Selection, the per-frame loop and the side panel *)

Module Viewer.
Import Scene State PartName.

Local Open Scope R_scope.

(** [Math.atan2] *)
Definition atan2 (y x : R) : R :=
  if Rlt_dec 0 x then atan (y / x)
  else if Rlt_dec x 0
       then (if Rle_dec 0 y then atan (y / x) + PI else atan (y / x) - PI)
  else if Rlt_dec 0 y then PI / 2
  else if Rlt_dec y 0 then - (PI / 2)
  else 0.

Record hit : Type := Hit { hit_object : obj; hit_point : vec3 }.

Record rect : Type := Rect { left : R; top : R; width : R; height : R }.

Definition overlayId : string := "indicator-overlay".
Definition rightPanelId : string := "right-panel".
Definition rightPanelToggleId : string := "right-panel-toggle".

Definition setSelected (part object : option string) (s : selection) : selection :=
  Selection part object (selectedIntersectionPoint s)
    (lastIntersectionPoint s) (connectionLine s) (connectionMarker s).
Definition setLocalPoint (p : option vec3) (s : selection) : selection :=
  Selection (selectedPart s) (selectedObject s) p
    (lastIntersectionPoint s) (connectionLine s) (connectionMarker s).
Definition setLastPoint (p : option vec3) (s : selection) : selection :=
  Selection (selectedPart s) (selectedObject s) (selectedIntersectionPoint s)
    p (connectionLine s) (connectionMarker s).
Definition setLine (l : option (vec3 * vec3)) (s : selection) : selection :=
  Selection (selectedPart s) (selectedObject s) (selectedIntersectionPoint s)
    (lastIntersectionPoint s) l (connectionMarker s).
Definition setMarker (m : option vec3) (s : selection) : selection :=
  Selection (selectedPart s) (selectedObject s) (selectedIntersectionPoint s)
    (lastIntersectionPoint s) (connectionLine s) m.

Definition onSel (f : selection -> selection) (v : viewer) : viewer :=
  withSel (f (sel v)) v.

Section Methods.

(** The rendering library: the hits of the ray through a point of the
    canvas on an object and its descendants, nearest first; the changes of
    coordinates of an object; where the popup of a selected object goes
    (its [left] and [top] styles and the world point under its bottom
    edge). *)
Variable raycast : R * R -> object3d -> list hit.
Variable worldToLocal localToWorld : string -> vec3 -> vec3.
Variable placePopup : option object3d -> string -> vec3 -> string * string * vec3.

(** [raycaster.intersectObjects(objects, true)] *)
Definition intersectObjects (at_ : R * R) (objects : list object3d) : list hit :=
  flat_map (raycast at_) objects.

Definition closeIndicator (v : viewer) : viewer :=
  let v := onSel (fun s => setLastPoint None
                    (setLocalPoint None (setSelected None None s))) v in
  let v := match connectionLine (sel v) with
           | Some _ => onSel (setLine None)
                         (emits [LineRemove; LineDispose] v)
           | None => v
           end in
  let v := match connectionMarker (sel v) with
           | Some _ => onSel (setMarker None)
                         (emits [MarkerRemove; MarkerDispose] v)
           | None => v
           end in
  let v := onDom (addClass overlayId "hidden") v in
  withPaused false v.

Definition createConnectionLine (startPoint endPoint : vec3) (v : viewer) : viewer :=
  let v := match connectionLine (sel v) with
           | Some _ => emits [LineRemove; LineDispose] v
           | None => v
           end in
  emit LineAdd (onSel (setLine (Some (startPoint, endPoint))) v).

Definition updateConnectionLine (startPoint endPoint : vec3) (v : viewer) : viewer :=
  match connectionLine (sel v) with
  | None => createConnectionLine startPoint endPoint v
  | Some _ => onSel (setLine (Some (startPoint, endPoint))) v
  end.

Definition createConnectionMarker (position : vec3) (v : viewer) : viewer :=
  emit MarkerAdd (onSel (setMarker (Some position)) v).

Definition updateConnectionMarker (position : vec3) (v : viewer) : viewer :=
  match connectionMarker (sel v) with
  | None => createConnectionMarker position v
  | Some _ => onSel (setMarker (Some position)) v
  end.

Definition updateIndicatorPosition (v : viewer) : viewer :=
  match selectedObject (sel v), selectedIntersectionPoint (sel v) with
  | Some object, Some localPoint =>
      let worldIntersection := localToWorld object localPoint in
      let '(x, y, popup3DPosition) :=
        placePopup (satellite v) object worldIntersection in
      let v := onDom (fun d =>
                 setStyle overlayId "position" "fixed"
                   (setStyle overlayId "transform" "translate(-50%, -100%)"
                      (setStyle overlayId "top" y
                         (setStyle overlayId "left" x d)))) v in
      let v := updateConnectionLine worldIntersection popup3DPosition v in
      updateConnectionMarker worldIntersection v
  | _, _ => v
  end.

Definition showIndicator (object : obj) (intersectionPoint : vec3) (v : viewer)
  : viewer :=
  let v := onSel (setSelected (Some (uuid object)) (Some (uuid object))) v in
  let v := onSel (setLocalPoint
                    (Some (worldToLocal (uuid object) intersectionPoint))) v in
  let v := withPaused true v in
  let partInfo := match userData_partInfo object with
                  | Some i => Some i
                  | None => partData v !! uuid object
                  end in
  let v := emit (ConsoleLog "showIndicator called:") v in
  match partInfo with
  | Some info =>
      let displayName := formatPartName (part_name info) in
      let v := onDom (setText "indicator-title" displayName) v in
      let v := onDom (setText "indicator-description" (part_description info)) v in
      let v := updateIndicatorPosition v in
      emit (ConsoleLog "Indicator overlay shown")
           (onDom (removeClass overlayId "hidden") v)
  | None => emit (ConsoleWarn "No part info found for object:") v
  end.

(** The click position in normalized device coordinates (-1 to 1). *)
Definition toNDC (containerRect : rect) (clientX clientY : R) : R * R :=
  let mouseX := clientX - left containerRect in
  let mouseY := clientY - top containerRect in
  ((mouseX / width containerRect) * 2 - 1,
   - ((mouseY / height containerRect) * 2 - 1)).

(** [container] is the canvas container, if the page has one; the click
    is at [(clientX, clientY)]. *)
Definition onMouseDoubleClick (container : option rect) (clientX clientY : R)
           (v : viewer) : viewer :=
  match container with
  | None => v
  | Some containerRect =>
      let v := withMouse (toNDC containerRect clientX clientY) v in
      let intersects :=
        intersectObjects (mouse v)
          (match satellite v with Some s => [s] | None => [] end) in
      match intersects with
      | first :: _ =>
          let clickedObject := hit_object first in
          let intersectionPoint := hit_point first in
          let v := emit (ConsoleLog "Double-click detected on object:") v in
          let v := onSel (setLastPoint (Some intersectionPoint)) v in
          let v := withPaused true v in
          if bool_decide (selectedPart (sel v) = Some (uuid clickedObject))
          then closeIndicator
                 (emit (ConsoleLog "Closing indicator (same part clicked)") v)
          else showIndicator clickedObject intersectionPoint
                 (emit (ConsoleLog "Showing indicator for new part") v)
      | [] => emit (ConsoleLog "No intersection found on double-click") v
      end
  end.

(** The position of a light that swings with the model around the
    vertical axis. *)
Definition swing (initial : vec3) (rotationAngle : R) : vec3 :=
  let radius := sqrt (vx initial ^ 2 + vz initial ^ 2) in
  let baseAngle := atan2 (vz initial) (vx initial) in
  let newAngle := baseAngle + rotationAngle in
  Vec3 (cos newAngle * radius) (vy initial) (sin newAngle * radius).

Definition swingLight (l : option light) (initial : option vec3)
           (rotationAngle : R) : option light :=
  match l, initial with
  | Some li, Some p =>
      Some (Light (intensity li) (lightColor li) (swing p rotationAngle))
  | _, _ => l
  end.

Definition cycleDuration : R := 80.

Definition rotationAngleAt (rotationTime : R) : R :=
  let oscillation := sin ((rotationTime / cycleDuration) * PI * 2) in
  oscillation * (PI / 4).

Definition setRotationY (y : R) (o : obj) : obj :=
  setRotation (Vec3 (vx (rotation o)) y (vz (rotation o))) o.

(** The popup follows its object while it is shown. *)
Definition refreshIndicator (v : viewer) : viewer :=
  match selectedObject (sel v) with
  | Some _ =>
      if negb (hasClass overlayId "hidden" (dom v))
      then updateIndicatorPosition v else v
  | None => v
  end.

(** One frame; [currentTime] is [performance.now()]. *)
Definition animate (currentTime : R) (v : viewer) : viewer :=
  let v := emit RequestAnimationFrame v in
  let deltaTime := (currentTime - lastFrameTime v) / 1000 in
  let v := withLastFrameTime currentTime v in
  let v := emit ControlsUpdate v in
  let v :=
    if negb (isRotationPaused v) then
      let v := withRotationTime (rotationTime v + deltaTime) v in
      let rotationAngle := rotationAngleAt (rotationTime v) in
      let v := withSatellite
                 (option_map (setRoot (setRotationY rotationAngle)) (satellite v)) v in
      let ls := lamps v in
      withLamps
        (Lights (ambientLight ls)
           (swingLight (directionalLight ls) (initialDirectional ls) rotationAngle)
           (swingLight (fillLight ls) (initialFill ls) rotationAngle)
           (swingLight (pointLight ls) (initialPoint ls) rotationAngle)
           (initialDirectional ls) (initialFill ls) (initialPoint ls)) v
    else v in
  let v := refreshIndicator v in
  emit Render v.

Definition resetPartPreset (v : viewer) : viewer := withPreset None v.

(** [toggleRightPanel]; [presetButtons] is the element that holds the
    preset buttons, if the page has one, and [presetButtonElements] are
    the buttons. *)
Definition toggleRightPanel (presetButtons : option string)
           (presetButtonElements : list string) (v : viewer) : viewer :=
  let (isCollapsed, d) := toggleClass rightPanelId "collapsed" (dom v) in
  let v := withDom d v in
  let v := onDom (setText rightPanelToggleId
                    (if isCollapsed then "◄" else "►")) v in
  if isCollapsed then
    let v := onDom (addClass rightPanelToggleId "panel-collapsed") v in
    match presetButtons with
    | Some pb => onDom (removeClass pb "hidden") v
    | None => v
    end
  else
    let v := onDom (removeClass rightPanelToggleId "panel-collapsed") v in
    let v := match presetButtons with
             | Some pb => onDom (addClass pb "hidden") v
             | None => v
             end in
    let v := resetPartPreset v in
    fold_left (fun v btn => onDom (removeClass btn "active") v)
      presetButtonElements v.

End Methods.

(** The viewer as the constructor leaves it, before any model arrives:
    the fields of the constructor, the lights of [setupLights] and the
    side panel collapsed by [setupEventListeners]. *)
Definition initialPage : page :=
  Page ∅ (<[rightPanelToggleId := "◄"]> ∅)
    ({[ (rightPanelId, "collapsed") ]}
       ∪ {[ (rightPanelToggleId, "panel-collapsed") ]}
       ∪ {[ (overlayId, "hidden") ]})
    ∅.

Definition initialLights : lights :=
  Lights
    (Some (Light 0.5 (Color Byte.x40 Byte.x40 Byte.x40) (Vec3 0 0 0)))
    (Some (Light 1 (Color Byte.xff Byte.xff Byte.xff) (Vec3 (-5) 5 (-5))))
    (Some (Light 0.3 (Color Byte.x4a Byte.x9e Byte.xff) (Vec3 5 (-3) 5)))
    (Some (Light 0.5 (Color Byte.x4a Byte.x9e Byte.xff) (Vec3 0 0 (-10))))
    (Some (Vec3 (-5) 5 (-5))) (Some (Vec3 5 (-3) 5)) (Some (Vec3 0 0 (-10))).

Definition initialViewer (now : R) : viewer :=
  Viewer None ∅ (0, 0) (Selection None None None None None None)
    false 0 now initialLights (Backdrop 1 true false false 1) None
    initialPage [].

End Viewer.

(* ------------------------------------------------------------------ *)
(** ** Loading a model into the satellite viewer *)

Module Loading.
Import Scene State PartName Text Viewer.

Local Open Scope R_scope.

(** [configureTexture(texture, isColorTexture)], for a texture that is
    there. *)
Definition configureTexture (isColorTexture : bool) (t : texture) : texture :=
  Texture (tex_id t)
    (if isColorTexture then SRGBColorSpace else NoColorSpace)
    LinearMipmapLinearFilter LinearFilter (tex_repeat t)
    (tex_hasImage t) (tex_generateMipmaps t)
    (tex_isColorTexture t) (tex_sourceUrl t) (tex_src t) true.

(** [configureLoadedTexture(texture)], for a texture that is there. *)
Definition configureLoadedTexture (t : texture) : texture :=
  let isColorTexture :=
    match tex_isColorTexture t with Some false => false | _ => true end in
  Texture (tex_id t)
    (if isColorTexture then SRGBColorSpace else NoColorSpace)
    LinearMipmapLinearFilter LinearFilter true (tex_hasImage t)
    (if tex_hasImage t then true else tex_generateMipmaps t)
    (tex_isColorTexture t) (tex_sourceUrl t) (tex_src t) true.

Definition isColorMap (k : mapName) : bool :=
  match k with map_ | emissiveMap => true | _ => false end.

(** [texture.userData.isColorTexture = isColor] *)
Definition markTexture (isColor : bool) (t : texture) : texture :=
  Texture (tex_id t) (tex_colorSpace t) (tex_minFilter t) (tex_magFilter t)
    (tex_repeat t) (tex_hasImage t) (tex_generateMipmaps t) (Some isColor)
    (tex_sourceUrl t) (tex_src t) (tex_needsUpdate t).

Definition onMaps (f : mapName -> option texture -> option texture)
           (m : material) : material :=
  Material (mat_id m) (mat_uuid m) (mat_name m) (mat_type m) (mat_color m)
    (mat_roughness m) (mat_metalness m) (mat_emissive m)
    (mat_emissiveIntensity m) (mat_opacity m) (mat_transparent m)
    (mat_depthWrite m) (mat_envMapIntensity m)
    (fun k => f k (mat_maps m k)) (mat_needsUpdate m).

Definition onMaterials (f : material -> material) (o : obj) : obj :=
  match materialOf o with
  | Some (One m) => setMaterial (Some (One (f m))) o
  | Some (Many ms) => setMaterial (Some (Many (List.map f ms))) o
  | None => o
  end.

Definition meshMaterials (o : obj) : list material :=
  match isMesh o, materialOf o with
  | true, Some slot => materialsOf slot
  | _, _ => []
  end.

(** A texture is an object that several slots, of one material or of
    several, can hold, and the code writes to it in place.  A write names
    the object by its identity and says what is written. *)
Definition write : Type := nat * (texture -> texture).

(** A texture object after the writes [ws], made in this order: those
    that name another object pass it by.  Slots that hold the same object
    hold the same record, and show the same record after the writes. *)
Definition written (ws : list write) (t : texture) : texture :=
  fold_left (fun t w => if Nat.eqb (fst w) (tex_id t) then snd w t else t) ws t.

(** Every slot of a material shows its texture as it is after the
    writes. *)
Definition onTextures (ws : list write) (m : material) : material :=
  onMaps (fun _ t => option_map (written ws) t) m.

(** The writes of a pass over the six slots of a material, in the order
    of the source; an empty slot is skipped. *)
Definition slotWrites (f : mapName -> texture -> texture) (m : material)
  : list write :=
  flat_map (fun k => match mat_maps m k with
                     | Some t => [(tex_id t, f k)]
                     | None => []
                     end)
    textureMaps.

(** The body of the loop of [processGLTFTextures] over the materials:
    the texture of every slot is marked as a colour or a data texture by
    the slot and configured; where the roughness and the metalness slot
    hold the same object, it is marked as a data texture once more. *)
Definition processMaterial (material : material) : list write :=
  slotWrites (fun k t => configureLoadedTexture (markTexture (isColorMap k) t))
    material
  ++ match mat_maps material roughnessMap, mat_maps material metalnessMap with
     | Some r, Some m =>
         if Nat.eqb (tex_id r) (tex_id m) then [(tex_id r, markTexture false)]
         else []
     | _, _ => []
     end.

(** [processGLTFTextures(gltf)]: the writes to the textures of the
    materials of the meshes, in the order of the traversal, and the scene
    with every texture as these writes leave it.  The second loop of the
    source writes to what [parser.getDependency] returns, which is a
    promise and no texture of the scene. *)
Definition processGLTFTextures (gltf : object3d) : object3d :=
  let ws := flat_map (fun object => flat_map processMaterial (meshMaterials object))
              (traverse gltf) in
  traverseMap (onMaterials (onTextures ws)) gltf.

(** [optimizeMaterial(material)]: the material, which is the one given,
    and the writes to its textures. *)
Definition optimizeMaterial (m : material) : material * list write :=
  let fades := mat_transparent m
               && match mat_opacity m with
                  | Some o => if Rlt_dec o 1 then true else false
                  | None => false
                  end in
  (Material (mat_id m) (mat_uuid m) (mat_name m) (mat_type m) (mat_color m)
     (mat_roughness m) (mat_metalness m) (mat_emissive m)
     (mat_emissiveIntensity m) (mat_opacity m) (mat_transparent m)
     (if fades then Some false else mat_depthWrite m)
     (mat_envMapIntensity m) (mat_maps m) true,
   slotWrites (fun k => configureTexture (isColorMap k)) m).

Definition white : color := Color Byte.xff Byte.xff Byte.xff.
Definition black : color := Color Byte.x00 Byte.x00 Byte.x00.

Section Methods.

(** The rendering library: the centre and the size of the bounding box of
    an object with its descendants, the identity and the uuid of the
    material that replaces a given one, and the text of a number. *)
Variable boxCenter boxSize : object3d -> vec3.
Variable newMaterial : material -> nat * string.
Variable toFixed : nat -> R -> string.
Variable numberToString : R -> string.

(** [convertToStandardMaterial(sourceMaterial)]: the new material, which
    holds the texture objects of the one given, and the writes to
    them. *)
Definition convertToStandardMaterial (sourceMaterial : material)
  : material * list write :=
  (Material (fst (newMaterial sourceMaterial))
     (snd (newMaterial sourceMaterial)) ""
     MeshStandardMaterial
     (Some (default white (mat_color sourceMaterial)))
     (Some (default 0.5 (mat_roughness sourceMaterial)))
     (Some (default 0 (mat_metalness sourceMaterial)))
     (Some (default black (mat_emissive sourceMaterial)))
     (Some (match mat_emissiveIntensity sourceMaterial with
            | Some x => if Req_dec_T x 0 then 1 else x
            | None => 1
            end))
     (Some (default 1 (mat_opacity sourceMaterial)))
     (mat_transparent sourceMaterial)
     (Some (default true (mat_depthWrite sourceMaterial)))
     (Some 1)
     (mat_maps sourceMaterial) true,
   slotWrites (fun k => configureTexture (isColorMap k)) sourceMaterial).

Definition convertMaterial (m : material) : material * list write :=
  if isCanonical m then optimizeMaterial m else convertToStandardMaterial m.

(** The callback of the traversal of [convertMaterials], for one object:
    the object with its converted materials, and the writes to the
    textures. *)
Definition convertChild (child : obj) : obj * list write :=
  match isMesh child, materialOf child with
  | true, Some slot =>
      let converted := List.map convertMaterial (materialsOf slot) in
      let convertedMaterials := List.map fst converted in
      (setMaterial
         (Some (match convertedMaterials with
                | [m] => One m
                | _ => Many convertedMaterials
                end)) child,
       flat_map snd converted)
  | _, _ => (child, [])
  end.

(** [convertMaterials(object)]: the materials are converted, and every
    texture is as the writes of the whole traversal leave it. *)
Definition convertMaterials (object : object3d) : object3d :=
  let ws := flat_map (fun child => snd (convertChild child)) (traverse object) in
  traverseMap (fun child => onMaterials (onTextures ws) (fst (convertChild child)))
    object.

Definition panelMaterialNames : list string :=
  [ "Panel_01-Solar_Panel_Cell_Material_UV";
    "Panel_02-Solar_Panel_Cell_Material_UV";
    "Panel_03-Solar_Panel_Cell_Material_UV";
    "Panel_04-Solar_Panel_Cell_Material_UV" ].

Definition texturePath : string := "assets/images/Solar_Panel_Mask_Texture.png".

(** [applySolarPanelTexture()]: the texture loads it starts. *)
Definition applySolarPanelTexture (v : viewer) : viewer :=
  match satellite v with
  | None => v
  | Some model =>
      emits
        (flat_map
           (fun child =>
              flat_map
                (fun m =>
                   if negb (String.eqb (mat_name m) "")
                      && existsb (String.eqb (mat_name m)) panelMaterialNames
                   then [TextureLoad texturePath (mat_id m)] else [])
                (meshMaterials child))
           (traverse model))
        v
  end.

(** A mesh gets part information if its name is not blank. *)
Definition hasPartName (child : obj) : bool :=
  isMesh child
  && negb (String.eqb (name child) "")
  && negb (chars_eqb (trim (str (name child))) []).

Definition defaultPartInfo (child : obj) : partInfo :=
  let formattedName := formatPartName (name child) in
  PartInfo formattedName ("Part of the " ++ formattedName ++ " component.").

Definition tagPart (child : obj) : obj :=
  if hasPartName child then setPartInfo (Some (defaultPartInfo child)) child
  else child.

Definition tagParts (v : viewer) : viewer :=
  match satellite v with
  | None => v
  | Some model =>
      let v := withSatellite (Some (traverseMap tagPart model)) v in
      withPartData
        (fold_left
           (fun (pd : gmap string partInfo) child =>
              if hasPartName child
              then <[uuid child := defaultPartInfo child]> pd else pd)
           (traverse model) (partData v))
        v
  end.

Definition setEnvMapIntensity (value : R) (m : material) : material :=
  match mat_envMapIntensity m with
  | None => m
  | Some _ =>
      Material (mat_id m) (mat_uuid m) (mat_name m) (mat_type m) (mat_color m)
        (mat_roughness m) (mat_metalness m) (mat_emissive m)
        (mat_emissiveIntensity m) (mat_opacity m) (mat_transparent m)
        (mat_depthWrite m) (Some value) (mat_maps m) true
  end.

Definition setBackdropEnv (value : R) (b : backdrop) : backdrop :=
  Backdrop (backgroundIntensity b) (starFieldVisible b) (environmentOn b)
    (environmentMap b) value.

(** [setEnvironmentIntensity(value)]; the model is reached by the
    traversal of the scene once it has been added ([inScene]).  The guard
    against NaN has no counterpart, a number being a real. *)
Definition setEnvironmentIntensity (inScene : bool) (value : R) (v : viewer)
  : viewer :=
  let v := withBack (setBackdropEnv value (back v)) v in
  if inScene
  then withSatellite
         (option_map
            (traverseMap (fun child =>
               if isMesh child
               then onMaterials (setEnvMapIntensity value) child
               else child))
            (satellite v)) v
  else v.

Definition loadingOverlayId : string := "loading-overlay".

Definition showLoadingIndicator (v : viewer) : viewer :=
  onDom (fun d =>
    setText "loading-percent" "0%"
      (setStyle "loading-progress" "width" "0%"
         (removeClass loadingOverlayId "hidden" d))) v.

Definition hideLoadingIndicator (v : viewer) : viewer :=
  onDom (addClass loadingOverlayId "hidden") v.

Definition updateLoadingProgress (percent : R) (v : viewer) : viewer :=
  onDom (fun d =>
    setText "loading-percent" (toFixed 0 percent ++ "%")
      (setStyle "loading-progress" "width" (numberToString percent ++ "%") d)) v.

(** The dispose calls for one object of the old model. *)
Definition disposeMaterial (mat : material) : list event :=
  flat_map
    (fun k => match mat_maps mat k with
              | Some t => [TextureDispose (tex_id t)]
              | None => []
              end)
    textureMaps
  ++ [MaterialDispose (mat_id mat)].

Definition disposeObject (child : obj) : list event :=
  if isMesh child then
    match geometry child with Some g => [GeometryDispose g] | None => [] end
    ++ match materialOf child with
       | Some slot => flat_map disposeMaterial (materialsOf slot)
       | None => []
       end
  else [].

(** The three ways a model is loaded: at start-up, by a path of the menu,
    from a file the user picked. *)
Inductive source : Type :=
| Startup
| ByPath (modelPath : string)
| FromFile (fileName fileURL : string).

Definition startupPath : string :=
  "3D_WEB_VIEW/assets/models/NASA_Orion_GLTF_TEST1A.gltf".

Definition urlOf (src : source) : string :=
  match src with
  | Startup => startupPath
  | ByPath modelPath => modelPath
  | FromFile _ fileURL => fileURL
  end.

(** The part of [loadModelByPath] and [loadModelFromFile] that removes the
    model on display. *)
Definition removeExisting (v : viewer) : viewer :=
  match satellite v with
  | Some old =>
      let v := emit (SceneRemove (uuid (root old))) v in
      let v := emits (flat_map disposeObject (traverse old)) v in
      withSatellite None v
  | None => v
  end.

(** [loadModel()], [loadModelByPath(modelPath)] and
    [loadModelFromFile(file)] up to the call of [loader.load]. *)
Definition startLoad (src : source) (v : viewer) : viewer :=
  let v :=
    match src with
    | Startup => v
    | _ =>
        let v := removeExisting v in
        let v := withPartData ∅ v in
        let v := closeIndicator v in
        emit (BuildOutliner (bool_decide (is_Some (satellite v)))) v
    end in
  let v := showLoadingIndicator v in
  emit (LoaderLoad (urlOf src)) v.

(** The first steps of the callback of a finished load, on the model:
    its textures are configured, it is centred and scaled, and its
    materials are converted. *)
Definition prepare (gltf : object3d) : object3d :=
  let model := processGLTFTextures gltf in
  let center := boxCenter model in
  let model := setRoot (setPosition
                          (Vec3 (- vx center) (- vy center) (- vz center))) model in
  let model := setRoot (setScale (Vec3 40 40 40)) model in
  convertMaterials model.

(** The callback of a finished load. *)
Definition modelLoaded (src : source) (gltf : object3d) (v : viewer) : viewer :=
  let model := prepare gltf in
  let v := withSatellite (Some model) v in
  let v := applySolarPanelTexture v in
  let v := tagParts v in
  let v := setEnvironmentIntensity false (currentEnvIntensity (back v)) v in
  let v := emit (SceneAdd (uuid (root model))) v in
  let v := emit (BuildOutliner true) v in
  let newSize := match satellite v with
                 | Some m => boxSize m
                 | None => Vec3 0 0 0
                 end in
  let maxSize := Rmax (Rmax (vx newSize) (vy newSize)) (vz newSize) in
  let v := emit (CameraSet (- maxSize * 0.8)) v in
  let v := emit ControlsUpdate v in
  let v := updateLoadingProgress 100 v in
  let v := emit (SetTimeout 300 "hideLoadingIndicator") v in
  let v := match src with
           | FromFile _ fileURL => emit (RevokeObjectURL fileURL) v
           | _ => v
           end in
  emit (ConsoleLog "Model loaded successfully") v.

(** The callback of a failed load. *)
Definition loadFailed (src : source) (v : viewer) : viewer :=
  let v := emit (ConsoleError "Error loading GLTF model:") v in
  let v := hideLoadingIndicator v in
  let v := emit (Alert "Failed to load 3D model. Please check the console for details.") v in
  match src with
  | FromFile _ fileURL => emit (RevokeObjectURL fileURL) v
  | _ => v
  end.

End Methods.

End Loading.

(* ------------------------------------------------------------------ *)
(** ** Colours as text *)

Module Hex.
Import Scene.

Local Open Scope Z_scope.

Definition hexDigit (n : Z) : ascii :=
  if n <? 10 then ascii_of_nat (Z.to_nat (48 + n))
  else ascii_of_nat (Z.to_nat (87 + n)).

Definition channel (b : Byte.byte) : Z := Z.of_N (Byte.to_N b).

(** Two hexadecimal digits for one channel. *)
Definition hex2 (b : Byte.byte) : list ascii :=
  [hexDigit (channel b / 16); hexDigit (channel b mod 16)].

(** [Color.getHexString()]: six hexadecimal digits. *)
Definition getHexString (c : color) : string :=
  string_of_list_ascii (hex2 (red c) ++ hex2 (green c) ++ hex2 (blue c)).

Definition digitValue (c : ascii) : option Z :=
  let n := Z.of_nat (nat_of_ascii c) in
  if (48 <=? n) && (n <=? 57) then Some (n - 48)
  else if (97 <=? n) && (n <=? 102) then Some (n - 87)
  else if (65 <=? n) && (n <=? 70) then Some (n - 55)
  else None.

(** The value of a string of hexadecimal digits, if it is one. *)
Definition hexValue (digits : list ascii) : option Z :=
  fold_left
    (fun acc c =>
       match acc, digitValue c with
       | Some a, Some d => Some (a * 16 + d)
       | _, _ => None
       end)
    digits (Some 0).

(** [text.replace('#', '0x')]: the first ['#'] only. *)
Fixpoint replaceHash (s : list ascii) : list ascii :=
  match s with
  | [] => []
  | c :: t =>
      if Ascii.eqb c "#"%char then "0"%char :: "x"%char :: t
      else c :: replaceHash t
  end.

Definition byteOf (n : Z) : Byte.byte :=
  default Byte.x00 (Byte.of_N (Z.to_N n)).

(** The language: the double that a natural number is read as, the
    nearest one with ties to even; [None] is [Infinity], for a number
    beyond the largest double.  Up to [2 ^ 53] nothing is rounded. *)
Definition toDouble (n : Z) : option Z :=
  if n <? 2 ^ 53 then Some n
  else
    let e := Z.log2 n - 52 in
    let q := n / 2 ^ e in
    let r := n mod 2 ^ e in
    let half := 2 ^ (e - 1) in
    let q := if (half <? r) || ((r =? half) && Z.odd q) then q + 1 else q in
    if 2 ^ 1024 <=? q * 2 ^ e then None else Some (q * 2 ^ e).

(** The colour of a 24-bit number: [hex >> 16 & 255], [hex >> 8 & 255]
    and [hex & 255]. *)
Definition colorOfHex (hex : Z) : color :=
  Color (byteOf (Z.land (Z.shiftr hex 16) 255))
        (byteOf (Z.land (Z.shiftr hex 8) 255))
        (byteOf (Z.land hex 255)).

Section SetHex.

(** The language: [Math.floor(Number(text))] for a text that is not a
    hexadecimal literal, with 0 where it is not a number. *)
Variable floorNumber : string -> Z.

(** [color.setHex(text)], the argument being a text: a hexadecimal
    literal [0x...] is read as such, as a double; the shifts read what is
    not a number, and [Infinity], as 0. *)
Definition setHex (text : list ascii) : color :=
  let hex :=
    match text with
    | z :: x :: (_ :: _) as digits =>
        if Ascii.eqb z "0"%char
           && (Ascii.eqb x "x"%char || Ascii.eqb x "X"%char)
        then match hexValue digits with
             | Some n => default 0 (toDouble n)
             | None => 0
             end
        else floorNumber (string_of_list_ascii text)
    | _ => floorNumber (string_of_list_ascii text)
    end in
  colorOfHex hex.

(** [color.setHex(text.replace('#', '0x'))] *)
Definition setHexOf (text : string) : color :=
  setHex (replaceHash (list_ascii_of_string text)).

End SetHex.

End Hex.

(* ------------------------------------------------------------------ *)
(** ** The scene data of a settings file *)

Module SceneData.
Import Scene State Hex.

Local Open Scope R_scope.

(** What is saved of a texture: its address, or the fact that it is
    there. *)
Inductive textureInfo : Type :=
| Url (url : string)
| Present.

Record materialData : Type := MaterialData {
  md_index : nat;
  md_name : string;
  md_uuid : string;
  md_color : option string;
  md_roughness : option R;
  md_metalness : option R;
  md_emissive : option string;
  md_emissiveIntensity : option R;
  md_opacity : option R;
  md_transparent : bool;
  md_textures : option (list (mapName * textureInfo))
}.

Record objectData : Type := ObjectData {
  od_uuid : string;
  od_name : string;
  od_position : option vec3;
  od_rotation : option vec3;
  od_scale : option vec3;
  od_visible : option bool;
  od_materials : list materialData
}.

Record sceneData : Type := SceneDataOf {
  sd_objects : option (list objectData);
  sd_partData : option (list (string * partInfo))
}.

(** A call returns a value or throws. *)
Inductive completion (A : Type) : Type :=
| Normal (a : A)
| Throw (error : string).
Arguments Normal {A} a.
Arguments Throw {A} error.

Fixpoint collect {A B} (f : nat -> A -> completion B) (i : nat) (l : list A)
  : completion (list B) :=
  match l with
  | [] => Normal []
  | a :: rest =>
      match f i a with
      | Throw e => Throw e
      | Normal b =>
          match collect f (S i) rest with
          | Throw e => Throw e
          | Normal bs => Normal (b :: bs)
          end
      end
  end.

Definition nonEmpty (s : option string) : option string :=
  match s with
  | Some u => if String.eqb u "" then None else Some u
  | None => None
  end.

Definition textureUrl (t : texture) : option string :=
  match nonEmpty (tex_sourceUrl t) with
  | Some u => Some u
  | None => nonEmpty (tex_src t)
  end.

Definition serializeTextures (m : material) : list (mapName * textureInfo) :=
  flat_map
    (fun mapName =>
       match mat_maps m mapName with
       | Some t =>
           [(mapName, match textureUrl t with
                      | Some u => Url u
                      | None => Present
                      end)]
       | None => []
       end)
    textureMaps.

Definition serializeMaterial (index : nat) (m : material)
  : completion materialData :=
  match mat_color m with
  | None => Throw "TypeError: material.color is undefined"
  | Some c =>
      Normal
        (MaterialData index (mat_name m) (mat_uuid m)
           (Some ("#" ++ getHexString c)%string)
           (mat_roughness m) (mat_metalness m)
           (option_map (fun e => ("#" ++ getHexString e)%string) (mat_emissive m))
           (mat_emissiveIntensity m) (mat_opacity m) (mat_transparent m)
           (Some (serializeTextures m)))
  end.

Definition serializeObject (child : obj) : completion (list objectData) :=
  match isMesh child, materialOf child with
  | true, Some slot =>
      match collect serializeMaterial 0 (materialsOf slot) with
      | Throw e => Throw e
      | Normal mds =>
          Normal [ObjectData (uuid child) (name child)
                    (Some (position child)) (Some (rotation child))
                    (Some (scale child)) (Some (visible child)) mds]
      end
  | _, _ => Normal []
  end.

Fixpoint serializeObjects (children : list obj) : completion (list objectData) :=
  match children with
  | [] => Normal []
  | child :: rest =>
      match serializeObject child with
      | Throw e => Throw e
      | Normal ods =>
          match serializeObjects rest with
          | Throw e => Throw e
          | Normal ods' => Normal (ods ++ ods')
          end
      end
  end.

(** [serializeSceneData()]; [None] is the [null] of a viewer without a
    model. *)
Definition serializeSceneData (v : viewer) : completion (option sceneData) :=
  match satellite v with
  | None => Normal None
  | Some model =>
      match serializeObjects (traverse model) with
      | Throw e => Throw e
      | Normal ods =>
          Normal (Some (SceneDataOf (Some ods)
                          (Some (map_to_list (partData v)))))
      end
  end.

Section Deserialize.

Variable floorNumber : string -> Z.

Definition truthy (s : option string) : option string := nonEmpty s.

(** Whether a call of the loop body ran to its end; a write through a
    missing colour throws, and what was written before it stays. *)
Definition ran : Type := bool.

Definition withColors (color emissive : option Scene.color) (m : material)
  : material :=
  Material (mat_id m) (mat_uuid m) (mat_name m) (mat_type m) color
    (mat_roughness m) (mat_metalness m) emissive (mat_emissiveIntensity m)
    (mat_opacity m) (mat_transparent m) (mat_depthWrite m)
    (mat_envMapIntensity m) (mat_maps m) (mat_needsUpdate m).

Definition withSurface (roughness metalness : option R) (m : material)
  : material :=
  Material (mat_id m) (mat_uuid m) (mat_name m) (mat_type m) (mat_color m)
    roughness metalness (mat_emissive m) (mat_emissiveIntensity m)
    (mat_opacity m) (mat_transparent m) (mat_depthWrite m)
    (mat_envMapIntensity m) (mat_maps m) (mat_needsUpdate m).

Definition withGlow (emissiveIntensity opacity : option R)
           (transparent needsUpdate : bool) (m : material) : material :=
  Material (mat_id m) (mat_uuid m) (mat_name m) (mat_type m) (mat_color m)
    (mat_roughness m) (mat_metalness m) (mat_emissive m) emissiveIntensity
    opacity transparent (mat_depthWrite m) (mat_envMapIntensity m)
    (mat_maps m) needsUpdate.

Definition orElse {A} (saved current : option A) : option A :=
  match saved with Some x => Some x | None => current end.

(** The texture loads that restoring a material starts. *)
Definition restoreTextures (md : materialData) (m : material) : list event :=
  match md_textures md with
  | Some ts =>
      flat_map (fun t => match snd t with
                         | Url u => if String.eqb u "true" then []
                                    else [TextureLoad u (mat_id m)]
                         | Present => []
                         end) ts
  | None => []
  end.

(** The body of the loop over [objectData.materials], for the material
    found at the saved index. *)
Definition restoreMaterial (md : materialData) (m : material)
  : material * list event * ran :=
  match truthy (md_color md), mat_color m with
  | Some _, None => (m, [], false)
  | colorText, _ =>
      let m := withColors
                 (orElse (option_map (setHexOf floorNumber) colorText)
                    (mat_color m))
                 (mat_emissive m) m in
      let m := withSurface (orElse (md_roughness md) (mat_roughness m))
                 (orElse (md_metalness md) (mat_metalness m)) m in
      match truthy (md_emissive md), mat_emissive m with
      | Some _, None => (m, [], false)
      | emissiveText, _ =>
          let m := withColors (mat_color m)
                     (orElse (option_map (setHexOf floorNumber) emissiveText)
                        (mat_emissive m)) m in
          let loads := restoreTextures md m in
          let m := withGlow
                     (orElse (md_emissiveIntensity md) (mat_emissiveIntensity m))
                     (orElse (md_opacity md) (mat_opacity m))
                     (match md_opacity md with
                      | Some x => md_transparent md
                                  || (if Rlt_dec x 1 then true else false)
                      | None => mat_transparent m
                      end)
                     (match loads with
                      | [] => true
                      | _ :: _ => mat_needsUpdate m
                      end) m in
          (m, loads, true)
      end
  end.

Fixpoint alterNth {A B} (f : A -> A * list B * ran) (i : nat) (l : list A)
  : list A * list B * ran :=
  match l, i with
  | [], _ => ([], [], true)
  | a :: rest, O => let '(a', es, ok) := f a in (a' :: rest, es, ok)
  | a :: rest, S j =>
      let '(rest', es, ok) := alterNth f j rest in (a :: rest', es, ok)
  end.

(** [materials[materialData.index]], written in place; nothing happens
    where the index names no material. *)
Definition onMaterialAt (i : nat) (f : material -> material * list event * ran)
           (slot : materialSlot) : materialSlot * list event * ran :=
  match slot with
  | One m =>
      match i with
      | O => let '(m', es, ok) := f m in (One m', es, ok)
      | S _ => (One m, [], true)
      end
  | Many ms => let '(ms', es, ok) := alterNth f i ms in (Many ms', es, ok)
  end.

Fixpoint restoreMaterials (mds : list materialData) (o : obj)
  : obj * list event * ran :=
  match mds with
  | [] => (o, [], true)
  | md :: rest =>
      match materialOf o with
      | None => (o, [], true)
      | Some slot =>
          let '(slot', es, ok) :=
            onMaterialAt (md_index md) (restoreMaterial md) slot in
          let o := setMaterial (Some slot') o in
          if ok
          then let '(o', es', ok') := restoreMaterials rest o in
               (o', es ++ es', ok')
          else (o, es, false)
      end
  end.

(** The body of the loop over [sceneData.objects], for the object found
    under the saved uuid. *)
Definition restoreObject (od : objectData) (o : obj) : obj * list event * ran :=
  match materialOf o with
  | None => (o, [], true)
  | Some _ =>
      let o := match od_position od with Some p => setPosition p o | None => o end in
      let o := match od_rotation od with Some r => setRotation r o | None => o end in
      let o := match od_scale od with Some s => setScale s o | None => o end in
      let o := match od_visible od with Some b => setVisible b o | None => o end in
      restoreMaterials (od_materials od) o
  end.

(** [objectMap]: the meshes of the traversal by uuid; a later mesh
    replaces an earlier one with the same uuid.  The objects are held by
    their place in the traversal. *)
Fixpoint objectMapFrom (i : nat) (children : list obj) (m : gmap string nat)
  : gmap string nat :=
  match children with
  | [] => m
  | child :: rest =>
      objectMapFrom (S i) rest
        (if isMesh child then <[uuid child := i]> m else m)
  end.

Definition objectMap (model : object3d) : gmap string nat :=
  objectMapFrom 0 (traverse model) ∅.

Definition restoreOne (objectMap : gmap string nat) (od : objectData)
           (v : viewer) : viewer * ran :=
  match satellite v, objectMap !! od_uuid od with
  | Some model, Some i =>
      match traverse model !! i with
      | Some o =>
          let '(o', es, ok) := restoreObject od o in
          (withSatellite (Some (updateNth (fun _ => o') model i)) (emits es v),
           ok)
      | None => (v, true)
      end
  | _, _ => (v, true)
  end.

Fixpoint restoreAll (objectMap : gmap string nat) (ods : list objectData)
         (v : viewer) : viewer * ran :=
  match ods with
  | [] => (v, true)
  | od :: rest =>
      let (v, ok) := restoreOne objectMap od v in
      if ok then restoreAll objectMap rest v else (v, false)
  end.

(** [deserializeSceneData(sceneData)]; the flag tells whether the call
    returned. *)
Definition deserializeSceneData (sceneData : option sceneData) (v : viewer)
  : viewer * ran :=
  match sceneData, satellite v with
  | Some sd, Some model =>
      let v := match sd_partData sd with
               | Some entries =>
                   withPartData
                     (fold_left (fun pd e => <[fst e := snd e]> pd)
                        entries (partData v)) v
               | None => v
               end in
      let objectMap := objectMap model in
      match sd_objects sd with
      | Some objects =>
          let (v, ok) := restoreAll objectMap objects v in
          if ok then (emit (SetTimeout 500 "buildOutliner") v, true)
          else (v, false)
      | None => (v, true)
      end
  | _, _ =>
      (emit (ConsoleLog "No scene data to load or model not loaded") v, true)
  end.

End Deserialize.

End SceneData.

(* ------------------------------------------------------------------ *)
(** ** Settings: the lighting controls and the settings file *)

Module Settings.
Import Scene State Hex SceneData Viewer Loading.

Local Open Scope R_scope.

(** A value of a parsed settings file. *)
Inductive jsval : Type :=
| JNum (x : R)
| JStr (s : string)
| JBool (b : bool)
| JNull.

Record settings : Type := SettingsOf {
  backgroundType : option jsval;
  backgroundColor : option jsval;
  backgroundIntensity_ : option jsval;
  ambientIntensity : option jsval;
  ambientColor : option jsval;
  directionalIntensity : option jsval;
  directionalColor : option jsval;
  directionalX : option jsval;
  directionalY : option jsval;
  directionalZ : option jsval;
  fillIntensity : option jsval;
  fillColor : option jsval;
  pointIntensity : option jsval;
  pointColor : option jsval;
  environmentType : option jsval;
  envIntensity : option jsval;
  sceneData_ : option sceneData;
  loadPanelCollapsed : option jsval;
  lightingPanelCollapsed : option jsval;
  outlinerPanelCollapsed : option jsval;
  rightPanelCollapsed : option jsval
}.

(** [if (x)] *)
Definition truthyVal (x : option jsval) : bool :=
  match x with
  | Some (JNum r) => if Req_dec_T r 0 then false else true
  | Some (JStr s) => negb (String.eqb s "")
  | Some (JBool b) => b
  | Some JNull | None => false
  end.

Inductive eventType : Type := input | change.

Definition setIntensity (x : R) (l : light) : light :=
  Light x (lightColor l) (lightPosition l).
Definition setLightColor (c : color) (l : light) : light :=
  Light (intensity l) c (lightPosition l).
Definition setLightPosition (p : vec3) (l : light) : light :=
  Light (intensity l) (lightColor l) p.

Definition onAmbient (f : light -> light) (v : viewer) : viewer :=
  let ls := lamps v in
  withLamps (Lights (option_map f (ambientLight ls)) (directionalLight ls)
               (fillLight ls) (pointLight ls) (initialDirectional ls)
               (initialFill ls) (initialPoint ls)) v.
Definition onDirectional (f : light -> light) (v : viewer) : viewer :=
  let ls := lamps v in
  withLamps (Lights (ambientLight ls) (option_map f (directionalLight ls))
               (fillLight ls) (pointLight ls) (initialDirectional ls)
               (initialFill ls) (initialPoint ls)) v.
Definition onFill (f : light -> light) (v : viewer) : viewer :=
  let ls := lamps v in
  withLamps (Lights (ambientLight ls) (directionalLight ls)
               (option_map f (fillLight ls)) (pointLight ls)
               (initialDirectional ls) (initialFill ls) (initialPoint ls)) v.
Definition onPoint (f : light -> light) (v : viewer) : viewer :=
  let ls := lamps v in
  withLamps (Lights (ambientLight ls) (directionalLight ls) (fillLight ls)
               (option_map f (pointLight ls)) (initialDirectional ls)
               (initialFill ls) (initialPoint ls)) v.

Definition setBackgroundIntensity (x : R) (b : backdrop) : backdrop :=
  Backdrop x (starFieldVisible b) (environmentOn b) (environmentMap b)
    (currentEnvIntensity b).
Definition setStarField (x : bool) (b : backdrop) : backdrop :=
  Backdrop (backgroundIntensity b) x (environmentOn b) (environmentMap b)
    (currentEnvIntensity b).
Definition setEnvironmentOn (x : bool) (b : backdrop) : backdrop :=
  Backdrop (backgroundIntensity b) (starFieldVisible b) x (environmentMap b)
    (currentEnvIntensity b).

Section Methods.

(** The language and the page: the text of a number, [toFixed],
    [parseFloat] on the text of a control, [Math.floor(Number(text))],
    the value a control reports once a text has been assigned to it, and
    [JSON.parse]. *)
Variable numberToString : R -> string.
Variable toFixed : nat -> R -> string.
Variable parseFloat : string -> R.
Variable floorNumber : string -> Z.
Variable controlValue : string -> string -> string.
Variable JSON_parse : string -> completion (option settings).

(** The text assigned to [element.value]. *)
Definition toText (x : jsval) : string :=
  match x with
  | JNum r => numberToString r
  | JStr s => s
  | JBool true => "true"
  | JBool false => "false"
  | JNull => ""
  end.

Definition applyBackgroundType (type : string) (v : viewer) : viewer :=
  if String.eqb type "color" then
    let v := onDom (setStyle "background-color-control" "display" "block") v in
    let v := withBack (setStarField false (back v)) v in
    emit (Background "updateBackgroundColor") v
  else
    let v := onDom (setStyle "background-color-control" "display" "none") v in
    let v := withBack (setStarField true (back v)) v in
    emits [Background "updateStarFieldIntensity"; Background "black"] v.

Definition applyEnvironmentType (type : string) (v : viewer) : viewer :=
  if String.eqb type "hdri" then
    let v := onDom (setStyle "environment-hdri-control" "display" "block") v in
    if environmentMap (back v)
    then setEnvironmentIntensity true (currentEnvIntensity (back v))
           (withBack (setEnvironmentOn true (back v)) v)
    else emit LoadDefaultHDRI v
  else
    let v := onDom (setStyle "environment-hdri-control" "display" "none") v in
    withBack (setEnvironmentOn false (back v)) v.

(** A slider: the parsed value is shown with one decimal and handed on. *)
Definition slider (id : string) (use : R -> viewer -> viewer) (v : viewer)
  : viewer :=
  let value := parseFloat (getValue id (dom v)) in
  let v := onDom (setText (id ++ "-value") (toFixed 1 value)) v in
  use value v.

Definition picked (id : string) (v : viewer) : color :=
  setHexOf floorNumber (getValue id (dom v)).

Definition setX (x : R) (l : light) : light :=
  setLightPosition (Vec3 x (vy (lightPosition l)) (vz (lightPosition l))) l.
Definition setY (y : R) (l : light) : light :=
  setLightPosition (Vec3 (vx (lightPosition l)) y (vz (lightPosition l))) l.
Definition setZ (z : R) (l : light) : light :=
  setLightPosition (Vec3 (vx (lightPosition l)) (vy (lightPosition l)) z) l.

(** The listeners that [setupLightingControls] attaches, by element and
    event type. *)
Definition listeners : list (string * eventType * (viewer -> viewer)) :=
  [ ("background-type", change,
     fun v => applyBackgroundType (getValue "background-type" (dom v)) v);
    ("background-color", input,
     fun v => if String.eqb (getValue "background-type" (dom v)) "color"
              then emit (Background "updateBackgroundColor") v else v);
    ("background-intensity", input,
     slider "background-intensity" (fun value v =>
       let v := withBack (setBackgroundIntensity value (back v)) v in
       if String.eqb (getValue "background-type" (dom v)) "color"
       then emit (Background "updateBackgroundColor") v
       else if String.eqb (getValue "background-type" (dom v)) "stars"
       then emit (Background "updateStarFieldIntensity") v
       else v));
    ("environment-type", change,
     fun v => applyEnvironmentType (getValue "environment-type" (dom v)) v);
    ("ambient-intensity", input,
     slider "ambient-intensity" (fun value => onAmbient (setIntensity value)));
    ("ambient-color", input,
     fun v => onAmbient (setLightColor (picked "ambient-color" v)) v);
    ("directional-intensity", input,
     slider "directional-intensity"
       (fun value => onDirectional (setIntensity value)));
    ("directional-color", input,
     fun v => onDirectional (setLightColor (picked "directional-color" v)) v);
    ("directional-x", input,
     slider "directional-x" (fun value => onDirectional (setX value)));
    ("directional-y", input,
     slider "directional-y" (fun value => onDirectional (setY value)));
    ("directional-z", input,
     slider "directional-z" (fun value => onDirectional (setZ value)));
    ("fill-intensity", input,
     slider "fill-intensity" (fun value => onFill (setIntensity value)));
    ("fill-color", input,
     fun v => onFill (setLightColor (picked "fill-color" v)) v);
    ("point-intensity", input,
     slider "point-intensity" (fun value => onPoint (setIntensity value)));
    ("point-color", input,
     fun v => onPoint (setLightColor (picked "point-color" v)) v);
    ("env-intensity", input,
     slider "env-intensity" (fun value => setEnvironmentIntensity true value)) ].

Definition eventType_eqb (a b : eventType) : bool :=
  match a, b with input, input | change, change => true | _, _ => false end.

(** [element.dispatchEvent(new Event(type))]: the listeners of the
    element for the type run, in the order they were attached. *)
Definition dispatchEvent (id : string) (type : eventType) (v : viewer) : viewer :=
  fold_left
    (fun v l =>
       if String.eqb (fst (fst l)) id && eventType_eqb (snd (fst l)) type
       then snd l v else v)
    listeners v.

(** [element.value = x; element.dispatchEvent(new Event(type))] *)
Definition assign (id : string) (type : eventType) (x : jsval) (v : viewer)
  : viewer :=
  dispatchEvent id type
    (onDom (setValue id (controlValue id (toText x))) v).

(** [if (x) { ... }] and [if (x !== undefined) { ... }] around an
    assignment. *)
Definition whenTruthy (x : option jsval) (id : string) (type : eventType)
           (v : viewer) : viewer :=
  match x with
  | Some y => if truthyVal x then assign id type y v else v
  | None => v
  end.

Definition whenDefined (x : option jsval) (id : string) (type : eventType)
           (v : viewer) : viewer :=
  match x with
  | Some y => assign id type y v
  | None => v
  end.

Definition panelState (x : option jsval) (id : string) (v : viewer) : viewer :=
  match x with
  | None => v
  | Some _ =>
      if truthyVal x then onDom (addClass id "collapsed") v
      else onDom (removeClass id "collapsed") v
  end.

(** [applySettings(settings)] *)
Definition applySettings (settings : option settings) (v : viewer) : viewer :=
  match settings with
  | None => emit (ConsoleLog "No settings to apply") v
  | Some st =>
      let v := emit (ConsoleLog "Applying settings:") v in
      let v := whenTruthy (backgroundType st) "background-type" change v in
      let v := whenTruthy (backgroundColor st) "background-color" input v in
      let v := whenDefined (backgroundIntensity_ st) "background-intensity" input v in
      let v := whenDefined (ambientIntensity st) "ambient-intensity" input v in
      let v := whenTruthy (ambientColor st) "ambient-color" input v in
      let v := whenDefined (directionalIntensity st) "directional-intensity" input v in
      let v := whenTruthy (directionalColor st) "directional-color" input v in
      let v := whenDefined (directionalX st) "directional-x" input v in
      let v := whenDefined (directionalY st) "directional-y" input v in
      let v := whenDefined (directionalZ st) "directional-z" input v in
      let v := whenDefined (fillIntensity st) "fill-intensity" input v in
      let v := whenTruthy (fillColor st) "fill-color" input v in
      let v := whenDefined (pointIntensity st) "point-intensity" input v in
      let v := whenTruthy (pointColor st) "point-color" input v in
      let v := if truthyVal (environmentType st)
               then whenTruthy (environmentType st) "environment-type" change v
               else assign "environment-type" change (JStr "hdri") v in
      let v := whenDefined (envIntensity st) "env-intensity" input v in
      let v := match sceneData_ st with
               | Some _ => emit (SetTimeout 500 "deserializeSceneData") v
               | None => v
               end in
      let v := panelState (loadPanelCollapsed st) "load-panel" v in
      let v := panelState (lightingPanelCollapsed st) "lighting-panel" v in
      let v := panelState (outlinerPanelCollapsed st) "outliner-panel" v in
      let v :=
        match rightPanelCollapsed st with
        | None => v
        | Some _ =>
            if truthyVal (rightPanelCollapsed st) then
              onDom (fun d => addClass rightPanelToggleId "panel-collapsed"
                       (setText rightPanelToggleId "◄"
                          (addClass rightPanelId "collapsed" d))) v
            else
              onDom (fun d => removeClass rightPanelToggleId "panel-collapsed"
                       (setText rightPanelToggleId "►"
                          (removeClass rightPanelId "collapsed" d))) v
        end in
      emit (ConsoleLog "Settings applied successfully") v
  end.

(** [loadSettingsFromFile(file)]: the [onload] callback of the reader,
    with the text of the file, and its [onerror] callback. *)
Definition settingsFileRead (text : string) (v : viewer) : viewer :=
  match JSON_parse text with
  | Normal settings =>
      let v := applySettings settings v in
      emits [Alert "Settings loaded successfully!";
             ConsoleLog "Settings loaded from file:"] v
  | Throw _ =>
      emits [ConsoleError "Error loading settings:";
             Alert "Failed to load settings file. Please check that it is a valid JSON file."] v
  end.

Definition settingsFileError (v : viewer) : viewer :=
  emits [ConsoleError "Error reading file";
         Alert "Failed to read settings file."] v.

End Methods.

Definition noSettings : settings :=
  SettingsOf None None None None None None None None None None None None
    None None None None None None None None None.

End Settings.

(* ------------------------------------------------------------------ *)
(** ** The model viewer of [scripts/objects.js] and its drop handler *)

Module Monsters.
Import Scene.

Inductive projectType : Type := Monsters | Rings.

Record setting : Type := Setting {
  cameraPosition : vec3;
  orbitTarget : vec3;
  isAnimate : bool;
  needShadow : bool;
  needFloor : bool;
  needDirectionalLight : bool;
  NeedHemisphereLight : bool
}.

Local Open Scope R_scope.

Definition settingByProjectType (p : projectType) : setting :=
  match p with
  | Monsters => Setting (Vec3 0 5 10) (Vec3 0 3 0) true true true true true
  | Rings => Setting (Vec3 1 0.3 0.3) (Vec3 0 0 0) false false false false false
  end.

(** Calls into the library and the browser; [Uncaught] is an error that
    no handler of the code catches. *)
Inductive call : Type :=
| LoaderLoad (model : string)
| SceneAdd (uuid : string)
| SceneAddFloor
| SceneAddGrid
| CreateModelActionsGUI (uuid : string) (clip : option nat)
| Alert (msg : string)
| ConsoleLog (label msg : string)
| Fetch (method url : string)
| ReadAsDataURL (blob : nat)
| InitProject (canvas : nat) (model : string) (projectType : projectType)
| Uncaught (error : string).

(** [createFloor(THREE, scene)] *)
Definition createFloor : list call := [SceneAddFloor; SceneAddGrid].

(** The library: [mixer.clipAction(undefined)] throws. *)
Definition clipError : string :=
  "TypeError: Cannot read property 'uuid' of undefined".

(** [createModelActionsGUI(THREE, model, animations)] of
    [animateMonster.js]: the mixer is asked for the action of
    [animations[0]]; the call and the error that it throws, if the model
    has no clip. *)
Definition createModelActionsGUI (model : object3d) (animations : list nat)
  : list call * option string :=
  ([CreateModelActionsGUI (uuid (root model)) (head animations)],
   match head animations with
   | Some _ => None
   | None => Some clipError
   end).

(** What the callback of a finished load leaves: the model as it is
    afterwards, the calls made, and the error that ended the callback, if
    one was thrown. *)
Record loaded : Type := Loaded {
  loadedModel : object3d;
  loadedCalls : list call;
  thrown : option string
}.

(** [load3dModel]: the callback of a finished load, for the scene [gltf]
    and the clips [animations] of the file. *)
Definition load3dModel_loaded (projectType : projectType) (gltf : object3d)
           (animations : list nat) : loaded :=
  let st := settingByProjectType projectType in
  let model := gltf in
  let calls := [SceneAdd (uuid (root model))] in
  let gui := if isAnimate st then createModelActionsGUI model animations
             else ([], None) in
  let calls := calls ++ fst gui in
  match snd gui with
  | Some error => Loaded model calls (Some error)
  | None =>
      let model := if needShadow st
                   then traverseMap (fun object =>
                          if isMesh object then setCastShadow true object
                          else object) model
                   else model in
      let calls := if needFloor st then calls ++ createFloor else calls in
      Loaded model calls None
  end.

(** [load3dModel]: the callback of a failed load. *)
Definition load3dModel_failed (err : string) : list call := [Alert err].

(** A promise settles with a value or with a reason. *)
Inductive settled (A : Type) : Type :=
| Fulfilled (a : A)
| Rejected (reason : string).
Arguments Fulfilled {A} a.
Arguments Rejected {A} reason.

(** An entry of a form: a text or a file. *)
Inductive formValue : Type :=
| FormText (text : string)
| FormFile (blob : nat).

(** What the page, the network and the reader give to one drop: the
    global [canvas] of the page, if it has one (the module declares
    none), the response of the server, its form, and the data URL that
    the reader makes of a file, if it can read it. *)
Record answers : Type := Answers {
  canvas : option nat;
  fetched : settled nat;
  formData : nat -> settled (list (string * formValue));
  dataURL : nat -> option string
}.

Definition endpoint : string := "http://192.168.0.125:5000/api/estimate".

Definition canvasError : string := "ReferenceError: canvas is not defined".

(** [handleDrop(e, initProject)] with the callbacks of its promise chain
    and of the reader.  The callback of the reader runs outside the
    promise chain: what it throws is not caught. *)
Definition handleDrop (a : answers) : list call :=
  Fetch "POST" endpoint ::
  match fetched a with
  | Rejected error => [ConsoleLog "error" error]
  | Fulfilled response =>
      match formData a response with
      | Rejected error => [ConsoleLog "error" error]
      | Fulfilled result =>
          let jsonObject : gmap string formValue :=
            fold_left (fun o kv => <[fst kv := snd kv]> o) result ∅ in
          match jsonObject !! "mesh" with
          | Some (FormFile blob) =>
              ReadAsDataURL blob ::
              match dataURL a blob with
              | Some parsedToArrayBufferModel =>
                  match canvas a with
                  | Some canvas =>
                      [InitProject canvas parsedToArrayBufferModel Rings]
                  | None => [Uncaught canvasError]
                  end
              | None => []
              end
          | _ => [ConsoleLog "error" "TypeError: parameter 1 is not of type 'Blob'"]
          end
      end
  end.

End Monsters.

(* ------------------------------------------------------------------ *)
(** ** Saving the settings *)

Module Saving.
Import Scene State SceneData Settings.

(** [document.getElementById(id).value] and
    [document.getElementById(id).classList.contains('collapsed')], as
    fields of the settings object. *)
Definition valueOf (id : string) (v : viewer) : option jsval :=
  Some (JStr (getValue id (dom v))).

Definition collapsedOf (id : string) (v : viewer) : option jsval :=
  Some (JBool (hasClass id "collapsed" (dom v))).

(** The settings object that [saveSettings()] builds before it writes
    the file; building it throws if [serializeSceneData] does. *)
Definition settingsToSave (v : viewer) : completion settings :=
  match serializeSceneData v with
  | Throw e => Throw e
  | Normal sceneData =>
      Normal
        (SettingsOf
           (valueOf "background-type" v)
           (valueOf "background-color" v)
           (valueOf "background-intensity" v)
           (valueOf "ambient-intensity" v)
           (valueOf "ambient-color" v)
           (valueOf "directional-intensity" v)
           (valueOf "directional-color" v)
           (valueOf "directional-x" v)
           (valueOf "directional-y" v)
           (valueOf "directional-z" v)
           (valueOf "fill-intensity" v)
           (valueOf "fill-color" v)
           (valueOf "point-intensity" v)
           (valueOf "point-color" v)
           (valueOf "environment-type" v)
           (valueOf "env-intensity" v)
           sceneData
           (collapsedOf "load-panel" v)
           (collapsedOf "lighting-panel" v)
           (collapsedOf "outliner-panel" v)
           (collapsedOf "right-panel" v))
  end.

End Saving.

(* ------------------------------------------------------------------ *)
(** ** The drop area of the model viewer *)

Module DropArea.

(** The drag events that [removeUselessEvents] listens to. *)
Inductive eventName : Type := DragEnter | DragOver | DragLeave | Drop.

Definition eventName_eqb (a b : eventName) : bool :=
  match a, b with
  | DragEnter, DragEnter | DragOver, DragOver
  | DragLeave, DragLeave | Drop, Drop => true
  | _, _ => false
  end.

Inductive listener : Type := preventDefaults | highlight | unhighlight.

(** [names.forEach(eventName => dropArea.addEventListener(eventName, l))] *)
Definition added (names : list eventName) (l : listener) (e : eventName)
  : list listener :=
  if existsb (eventName_eqb e) names then [l] else [].

(** The listeners of the drop area for an event, in the order in which
    [removeUselessEvents(dropArea)] adds them. *)
Definition listenersOf (e : eventName) : list listener :=
  added [DragEnter; DragOver; DragLeave; Drop] preventDefaults e
  ++ added [DragEnter; DragOver] highlight e
  ++ added [DragLeave; Drop] unhighlight e.

(** The class list of the drop area, and whether [e.preventDefault()] and
    [e.stopPropagation()] have been called on the event. *)
Record outcome : Type := Outcome {
  classList : gset string;
  preventDefaultCalled : bool;
  stopPropagationCalled : bool
}.

Definition run (l : listener) (o : outcome) : outcome :=
  match l with
  | preventDefaults => Outcome (classList o) true true
  | highlight =>
      Outcome (classList o ∪ {[ "highlight" ]}) (preventDefaultCalled o)
        (stopPropagationCalled o)
  | unhighlight =>
      Outcome (classList o ∖ {[ "highlight" ]}) (preventDefaultCalled o)
        (stopPropagationCalled o)
  end.

(** One event on the drop area. *)
Definition dispatch (e : eventName) (classes : gset string) : outcome :=
  fold_left (fun o l => run l o) (listenersOf e) (Outcome classes false false).

(** The class list after a sequence of events. *)
Definition after (es : list eventName) (classes : gset string) : gset string :=
  fold_left (fun cs e => classList (dispatch e cs)) es classes.

End DropArea.

(* ------------------------------------------------------------------ *)
(** ** The loading manager, the backdrop and the camera of the presets *)

Module Manager.



End Manager.

Module Sky.

Local Open Scope R_scope.

(** The material of the star field. *)
Record pointsMaterial : Type := PointsMaterial {
  size : R;
  opacity : R;
  transparent : bool;
  needsUpdate : bool
}.

(** [updateStarFieldIntensity()]; [None] is a viewer without a star
    field. *)
Definition updateStarFieldIntensity (backgroundIntensity : R)
           (starField : option pointsMaterial) : option pointsMaterial :=
  match starField with
  | Some _ =>
      Some (PointsMaterial (0.1 * backgroundIntensity)
              (Rmin 1 backgroundIntensity)
              (if Rlt_dec backgroundIntensity 1 then true else false)
              true)
  | None => None
  end.

(** A colour of the rendering library: three numbers. *)
Record rgb : Type := Rgb { r : R; g : R; b : R }.

Section Background.

(** The rendering library: [new THREE.Color(text)]. *)
Variable parseColor : string -> rgb.

(** [updateBackgroundColor()]; [control] is the value of the colour
    control, if the page has one, and [background] is the background of
    the scene. *)
Definition updateBackgroundColor (control : option string)
           (backgroundIntensity : R) (background : rgb) : rgb :=
  match control with
  | None => background
  | Some value =>
      let color := parseColor value in
      if Req_dec_T backgroundIntensity 1 then color
      else
        let color := Rgb (r color * backgroundIntensity)
                         (g color * backgroundIntensity)
                         (b color * backgroundIntensity) in
        Rgb (Rmin 1 (r color)) (Rmin 1 (g color)) (Rmin 1 (b color))
  end.

End Background.

End Sky.

Module Camera.
Import Scene.

Local Open Scope R_scope.

(** [Vector3.lerpVectors(v1, v2, alpha)]; [v1.lerp(v2, alpha)] is
    [lerpVectors v1 v2 alpha] written to [v1]. *)
Definition lerpVectors (v1 v2 : vec3) (alpha : R) : vec3 :=
  Vec3 (vx v1 + (vx v2 - vx v1) * alpha)
       (vy v1 + (vy v2 - vy v1) * alpha)
       (vz v1 + (vz v2 - vz v1) * alpha).

Definition multiplyScalar (v : vec3) (s : R) : vec3 :=
  Vec3 (vx v * s) (vy v * s) (vz v * s).

Definition add (a b : vec3) : vec3 :=
  Vec3 (vx a + vx b) (vy a + vy b) (vz a + vz b).

(** The easing of the four presets: quadratic in, cubic out. *)
Definition easeInOut (progress : R) : R :=
  if Rlt_dec progress 0.5 then 2 * progress * progress
  else 1 - (-2 * progress + 2) ^ 3 / 2.

(** The easing of the other parts: cubic out. *)
Definition easeOutCubic (progress : R) : R := 1 - (1 - progress) ^ 3.

(** The camera and the target of the orbit controls. *)
Record rig : Type := Rig { cameraPosition : vec3; controlsTarget : vec3 }.

Definition presetDuration (isExhaust : bool) : R :=
  if isExhaust then 2500 else 1500.

(** Where the camera of the exhaust preset heads for: a point on an arc
    around the part. *)
Definition exhaustTarget (center : vec3) (distance easeProgress : R) : vec3 :=
  let angle := easeProgress * PI * 0.25 in
  let startRadius := distance * 1.8 in
  let endRadius := distance * 1.2 in
  let currentRadius := startRadius + (endRadius - startRadius) * easeProgress in
  let currentOffset :=
    multiplyScalar
      (Vec3 (sin angle * 0.4 + cos angle * 0.1) 0.15
            (cos angle * 1.1 - sin angle * 0.1))
      currentRadius in
  add center currentOffset.

Section Controls.

(** The library: [this.controls.update()], what the orbit controls make
    of the camera and of their target (damping, limits of the
    distance). *)
Variable controlsUpdate : rig -> rig.

(** One call of [animateCamera] in [showPartPreset], for one of the four
    presets; [elapsed] is [performance.now() - startTime].  The result
    says whether another frame is requested. *)
Definition animatePreset (isExhaust : bool) (center : vec3) (distance : R)
           (startPosition targetPosition lookAtPoint : vec3)
           (elapsed : R) (rg : rig) : rig * bool :=
  let duration := presetDuration isExhaust in
  let progress := Rmin (elapsed / duration) 1 in
  let easeProgress := easeInOut progress in
  let position :=
    if isExhaust
    then lerpVectors startPosition
           (exhaustTarget center distance easeProgress) easeProgress
    else lerpVectors startPosition targetPosition easeProgress in
  let rg := Rig position
              (lerpVectors (controlsTarget rg) lookAtPoint easeProgress) in
  (controlsUpdate rg, if Rlt_dec progress 1 then true else false).

(** One call of [animateCamera] for another part. *)
Definition animateOther (startPosition targetPosition lookAtPoint : vec3)
           (elapsed : R) (rg : rig) : rig * bool :=
  let duration := 1200 in
  let progress := Rmin (elapsed / duration) 1 in
  let easeProgress := easeOutCubic progress in
  let rg := Rig (lerpVectors startPosition targetPosition easeProgress)
              (lerpVectors (controlsTarget rg) lookAtPoint easeProgress) in
  (controlsUpdate rg, if Rlt_dec progress 1 then true else false).

End Controls.

End Camera.

(* ------------------------------------------------------------------ *)
(** ** The material controls of the outliner *)

Module Outliner.
Import Scene State Hex.

Local Open Scope R_scope.

(** One event on a control that [createMaterialControls] makes for a
    material: the text of a colour picker, the number that
    [createSliderControl] parses from a slider, a click on the remove
    button of a texture. *)
Inductive input : Type :=
| ColorInput (value : string)
| RoughnessInput (newValue : R)
| MetalnessInput (newValue : R)
| EmissiveInput (value : string)
| EmissiveIntensityInput (newValue : R)
| OpacityInput (newValue : R)
| RemoveTexture (mapName : mapName).

Definition defined {A} (x : option A) : bool :=
  match x with Some _ => true | None => false end.

(** Whether [createMaterialControls] makes the control for a material. *)
Definition hasControl (i : input) (material : material) : bool :=
  match i with
  | ColorInput _ => defined (mat_color material)
  | RoughnessInput _ => defined (mat_roughness material)
  | MetalnessInput _ => defined (mat_metalness material)
  | EmissiveInput _ => defined (mat_emissive material)
  | EmissiveIntensityInput _ => defined (mat_emissiveIntensity material)
  | OpacityInput _ => defined (mat_opacity material)
  | RemoveTexture mapName => defined (mat_maps material mapName)
  end.

Section Controls.

Variable floorNumber : string -> Z.

(** The listener of the control: the material afterwards and the calls
    into the library. *)
Definition onInput (i : input) (m : material) : material * list event :=
  match i with
  | ColorInput value =>
      (Material (mat_id m) (mat_uuid m) (mat_name m) (mat_type m)
         (Some (setHexOf floorNumber value))
         (mat_roughness m) (mat_metalness m) (mat_emissive m)
         (mat_emissiveIntensity m) (mat_opacity m) (mat_transparent m)
         (mat_depthWrite m) (mat_envMapIntensity m) (mat_maps m) true, [])
  | RoughnessInput newValue =>
      (Material (mat_id m) (mat_uuid m) (mat_name m) (mat_type m) (mat_color m)
         (Some newValue) (mat_metalness m) (mat_emissive m)
         (mat_emissiveIntensity m) (mat_opacity m) (mat_transparent m)
         (mat_depthWrite m) (mat_envMapIntensity m) (mat_maps m) true, [])
  | MetalnessInput newValue =>
      (Material (mat_id m) (mat_uuid m) (mat_name m) (mat_type m) (mat_color m)
         (mat_roughness m) (Some newValue) (mat_emissive m)
         (mat_emissiveIntensity m) (mat_opacity m) (mat_transparent m)
         (mat_depthWrite m) (mat_envMapIntensity m) (mat_maps m) true, [])
  | EmissiveInput value =>
      (Material (mat_id m) (mat_uuid m) (mat_name m) (mat_type m) (mat_color m)
         (mat_roughness m) (mat_metalness m)
         (Some (setHexOf floorNumber value))
         (mat_emissiveIntensity m) (mat_opacity m) (mat_transparent m)
         (mat_depthWrite m) (mat_envMapIntensity m) (mat_maps m) true, [])
  | EmissiveIntensityInput newValue =>
      (Material (mat_id m) (mat_uuid m) (mat_name m) (mat_type m) (mat_color m)
         (mat_roughness m) (mat_metalness m) (mat_emissive m)
         (Some newValue) (mat_opacity m) (mat_transparent m)
         (mat_depthWrite m) (mat_envMapIntensity m) (mat_maps m) true, [])
  | OpacityInput newValue =>
      (Material (mat_id m) (mat_uuid m) (mat_name m) (mat_type m) (mat_color m)
         (mat_roughness m) (mat_metalness m) (mat_emissive m)
         (mat_emissiveIntensity m) (Some newValue)
         (if Rlt_dec newValue 1 then true else false)
         (mat_depthWrite m) (mat_envMapIntensity m) (mat_maps m) true, [])
  | RemoveTexture mapName =>
      match mat_maps m mapName with
      | Some t =>
          (setNeedsUpdate (setMap mapName None m), [TextureDispose (tex_id t)])
      | None => (m, [])
      end
  end.

(** The text that a colour picker is given when the controls are made:
    [colorInput.value = '#' + material.color.getHexString()]. *)
Definition pickerValue (c : color) : string := ("#" ++ getHexString c)%string.

End Controls.

End Outliner.

(* ------------------------------------------------------------------ *)
(** ** A small model, for the examples *)

Module Samples.
Import Scene State Viewer.

Local Open Scope R_scope.

Definition origin : vec3 := Vec3 0 0 0.
Definition unit : vec3 := Vec3 1 1 1.

Definition panelTexture : texture :=
  Texture 7 LoaderColorSpace LoaderFilter LoaderFilter false true false None
    None (Some "textures/panel.png") false.

Definition noMaps : mapName -> option texture := fun _ => None.

(** A material of the canonical type, with a colour texture. *)
Definition panelMaterial : material :=
  Material 11 "mat-panel" "Panel_01-Solar_Panel_Cell_Material_UV"
    MeshStandardMaterial
    (Some (Color Byte.x1a Byte.x2b Byte.x3c)) (Some 0.5) (Some 0)
    (Some (Color Byte.x00 Byte.x00 Byte.x00)) (Some 1) (Some 1) false
    (Some true) (Some 1)
    (fun k => match k with map_ => Some panelTexture | _ => None end) false.

(** A material of another type. *)
Definition shieldMaterial : material :=
  Material 12 "mat-shield" "Heat_Shield_Metal_UV" MeshBasicMaterial
    (Some (Color Byte.xc0 Byte.x80 Byte.x40)) None None None None (Some 1)
    false None None noMaps false.

Definition panel : obj :=
  Obj "uuid-panel" "Panel_01" true (Vec3 2 0 0) origin unit true false
    (Some 21%nat) (Some (One panelMaterial)) None.

Definition shield : obj :=
  Obj "uuid-shield" "HEAT_Shield-Heat_Shield_Metal_UV" true (Vec3 0 1 0)
    origin unit true false (Some 22%nat) (Some (Many [shieldMaterial])) None.

(** A mesh whose name is a single space. *)
Definition blank : obj :=
  Obj "uuid-blank" " " true origin origin unit true false (Some 23%nat)
    (Some (One panelMaterial)) None.

Definition group (id : string) : obj :=
  Obj id "Scene" false origin origin unit true false None None None.

(** [parseFloat] on texts of the form [digits] or [digits.digits]. *)
Definition digitOf (c : ascii) : option Z :=
  let n := Z.of_nat (nat_of_ascii c) in
  if ((48 <=? n) && (n <=? 57))%Z then Some (n - 48)%Z else None.

Fixpoint readDigits (l : list ascii) (acc : Z) (count : nat)
  : Z * nat * list ascii :=
  match l with
  | c :: t =>
      match digitOf c with
      | Some d => readDigits t (acc * 10 + d)%Z (S count)
      | None => (acc, count, l)
      end
  | [] => (acc, count, [])
  end.

Definition parseDecimal (s : string) : R :=
  let '(whole, _, rest) := readDigits (list_ascii_of_string s) 0 0 in
  match rest with
  | c :: t =>
      if Ascii.eqb c "."%char
      then let '(fraction, places, _) := readDigits t 0 0 in
           IZR whole + IZR fraction / IZR (10 ^ Z.of_nat places)
      else IZR whole
  | [] => IZR whole
  end.

Definition orion : object3d :=
  Node (group "uuid-orion") [Node panel []; Node shield []].

(** The sample model after the user has moved and hidden the panel and
    edited its material. *)
Definition editedMaterial : material :=
  Material 11 "mat-panel" "Panel_01-Solar_Panel_Cell_Material_UV"
    MeshStandardMaterial
    (Some (Color Byte.xff Byte.x00 Byte.x00)) (Some 0.9) (Some 1)
    (Some (Color Byte.x01 Byte.x02 Byte.x03)) (Some 2) (Some 0.25) true
    (Some false) (Some 1)
    (fun k => match k with map_ => Some panelTexture | _ => None end) true.

Definition editedPanel : obj :=
  Obj "uuid-panel" "Panel_01" true (Vec3 9 9 9) (Vec3 0 1 0) (Vec3 2 2 2)
    false false (Some 21%nat) (Some (One editedMaterial)) None.

Definition edited : object3d :=
  Node (group "uuid-orion") [Node editedPanel []; Node shield []].

Definition other : object3d :=
  Node (group "uuid-other") [Node blank []].

(** A hull whose material holds one texture object both as its colour
    map and as its normal map. *)
Definition hullMaterial : material :=
  Material 13 "mat-hull" "Hull_Metal" MeshStandardMaterial
    (Some (Color Byte.x80 Byte.x80 Byte.x80)) (Some 0.5) (Some 1)
    (Some (Color Byte.x00 Byte.x00 Byte.x00)) (Some 1) (Some 1) false
    (Some true) (Some 1)
    (fun k => match k with
              | map_ | normalMap => Some panelTexture
              | _ => None
              end) false.

Definition hull : object3d :=
  Node (Obj "uuid-hull" "Hull" true origin origin unit true false
          (Some 23%nat) (Some (One hullMaterial)) None) [].

End Samples.

(* ================================================================== *)
(** * Properties *)

(* ------------------------------------------------------------------ *)
(** ** Text and regular expressions *)

Module TextFacts.
Import Chars Regex Text.

(** A character is tidy when it is a plain space or no white space. *)
Definition tidy (c : ascii) : bool := negb (isSpace c) || Ascii.eqb c space.

Definition solid (c : ascii) : bool := negb (isSpace c).

Lemma replaceFrom_forallb (P : ascii -> bool) r rep :
  forallb P rep = true ->
  forall s prev skip,
    forallb P s = true -> forallb P (replaceFrom r rep prev skip s) = true.
Proof.
  intros Hrep s. induction s as [|c t IH]; intros prev skip Hs; simpl.
  - reflexivity.
  - simpl in Hs. apply andb_prop in Hs as [Hc Ht].
    destruct skip as [|k].
    + destruct (matchAt r prev (c :: t)) as [[|m]|].
      * simpl. rewrite Hc. now apply IH.
      * rewrite forallb_app, Hrep. now apply IH.
      * simpl. rewrite Hc. now apply IH.
    + now apply IH.
Qed.

Lemma replaceAll_forallb (P : ascii -> bool) r rep s :
  forallb P (str rep) = true -> forallb P s = true ->
  forallb P (replaceAll r rep s) = true.
Proof. intros Hr Hs. unfold replaceAll. now apply replaceFrom_forallb. Qed.

(** Whatever a match returns is what its continuation returned. *)
Lemma starLoop_total (m : matcher) (k : cont) :
  (forall prev s n, exists len, k prev s n = Some len /\ (n <= len)%nat) ->
  (forall prev s n (k' : cont) len,
      m prev s n k' = Some len ->
      exists prev' s' n', k' prev' s' n' = Some len) ->
  forall fuel prev s n,
    exists len, starLoop m k fuel prev s n = Some len /\ (n <= len)%nat.
Proof.
  intros Hk Hm fuel. induction fuel as [|f IH]; intros prev s n; simpl.
  - apply Hk.
  - destruct (m prev s n _) as [len|] eqn:E.
    + exists len. split; [reflexivity|].
      apply Hm in E as (p' & s' & n' & E).
      destruct (n <? n')%nat eqn:Hlt; [|discriminate].
      apply Nat.ltb_lt in Hlt.
      destruct (IH p' s' n') as (len' & E' & Hle).
      rewrite E' in E. injection E as <-. lia.
    + apply Hk.
Qed.

Lemma cls_result (p : ascii -> bool) prev s n (k' : cont) len :
  rmatch (Cls p) prev s n k' = Some len ->
  exists prev' s' n', k' prev' s' n' = Some len.
Proof.
  simpl. destruct s as [|x t]; [discriminate|].
  destruct (p x); [|discriminate]. intros E. now exists (Some x), t, (S n).
Qed.

(** [\s+] matches, with a positive length, wherever a white space
    character starts. *)
Lemma ws1_matches prev c t :
  isSpace c = true ->
  exists len, matchAt PartName.ws1 prev (c :: t) = Some (S len).
Proof.
  intros Hc. unfold matchAt, PartName.ws1, Plus. simpl. rewrite Hc.
  destruct (starLoop_total (rmatch (Cls isSpace)) (fun _ _ n => Some n))
    with (fuel := length t) (prev := Some c) (s := t) (n := 1%nat)
    as (len & E & Hle).
  - intros p s n. exists n. split; [reflexivity|lia].
  - intros p s n k' len. apply cls_result.
  - destruct len as [|len]; [lia|]. exists len. exact E.
Qed.

(** After [replace(/\s+/g, ' ')] the only white space left is the plain
    space. *)
Lemma collapse_tidy s prev skip :
  forallb tidy (replaceFrom PartName.ws1 [space] prev skip s) = true.
Proof.
  revert prev skip. induction s as [|c t IH]; intros prev skip; simpl.
  - reflexivity.
  - destruct skip as [|k]; [|apply IH].
    destruct (isSpace c) eqn:Hc.
    + destruct (ws1_matches prev c t Hc) as (len & E). rewrite E.
      simpl. apply IH.
    + assert (Hty : tidy c = true) by (unfold tidy; now rewrite Hc).
      destruct (matchAt PartName.ws1 prev (c :: t)) as [[|m]|]; simpl;
        rewrite ?Hty; apply IH.
Qed.

Lemma dropSpaces_forallb (P : ascii -> bool) s :
  forallb P s = true -> forallb P (dropSpaces s) = true.
Proof.
  induction s as [|c t IH]; simpl; [easy|].
  intros H. destruct (isSpace c).
  - apply andb_prop in H as [_ H]. now apply IH.
  - exact H.
Qed.

Lemma forallb_rev (P : ascii -> bool) s :
  forallb P (rev s) = forallb P s.
Proof.
  induction s as [|c t IH]; simpl; [reflexivity|].
  rewrite forallb_app, IH. simpl. rewrite andb_true_r. apply andb_comm.
Qed.

Lemma trim_forallb (P : ascii -> bool) s :
  forallb P s = true -> forallb P (trim s) = true.
Proof.
  intros H. unfold trim. rewrite forallb_rev.
  apply dropSpaces_forallb. rewrite forallb_rev.
  now apply dropSpaces_forallb.
Qed.

(** The pieces of a tidy text between its spaces hold no white space. *)
Lemma split_solid s :
  forallb tidy s = true ->
  Forall (fun w => forallb solid w = true) (split space s).
Proof.
  induction s as [|c t IH]; simpl; intros H.
  - repeat constructor.
  - apply andb_prop in H as [Hc Ht]. specialize (IH Ht).
    destruct (Ascii.eqb c space) eqn:E.
    + constructor; [reflexivity|exact IH].
    + destruct (split space t) as [|w ws'].
      * repeat constructor. simpl. unfold tidy in Hc. rewrite E in Hc.
        rewrite orb_false_r in Hc. unfold solid. now rewrite Hc.
      * inversion IH as [|? ? Hw Hws]; subst. constructor; [|exact Hws].
        simpl. rewrite Hw. unfold tidy in Hc. rewrite E in Hc.
        rewrite orb_false_r in Hc. unfold solid. now rewrite Hc.
Qed.

Lemma wordsFrom_solid w : forall cur rest,
  forallb solid w = true ->
  wordsFrom cur (w ++ rest) = wordsFrom (rev w ++ cur) rest.
Proof.
  induction w as [|c t IH]; intros cur rest H; simpl in *.
  - reflexivity.
  - apply andb_prop in H as [Hc Ht]. unfold solid in Hc.
    apply negb_true_iff in Hc. rewrite Hc.
    rewrite IH by exact Ht. now rewrite <- app_assoc.
Qed.

Lemma words_solid w :
  forallb solid w = true -> (length (words w) <= 1)%nat.
Proof.
  intros H. unfold words.
  rewrite <- (app_nil_r w) at 1. rewrite wordsFrom_solid by exact H.
  simpl. destruct (rev w ++ []); simpl; lia.
Qed.

(** Joining at most two pieces without white space gives at most two
    words. *)
Lemma words_join2 (ws : list chars) :
  (length ws <= 2)%nat ->
  Forall (fun w => forallb solid w = true) ws ->
  (length (words (join space ws)) <= 2)%nat.
Proof.
  intros Hlen Hall.
  destruct ws as [|w1 [|w2 [|w3 ws']]]; simpl in *; try lia.
  - inversion Hall; subst. pose proof (words_solid w1 ltac:(assumption)). lia.
  - inversion Hall as [|? ? H1 Hall']; subst.
    inversion Hall' as [|? ? H2 _]; subst.
    unfold words. rewrite wordsFrom_solid by exact H1. simpl.
    pose proof (words_solid w2 H2) as Hw2. unfold words in Hw2.
    destruct (rev w1 ++ []); simpl; lia.
Qed.

End TextFacts.

(* ------------------------------------------------------------------ *)
(** ** The part name shown to the user *)

Module PartNameFacts.
Import Chars Regex Text PartName TextFacts.

Lemma renames_tidy :
  Forall (fun rr => forallb tidy (str (snd rr)) = true) renames.
Proof. repeat constructor. Qed.

Lemma applyRenames_tidy s :
  forallb tidy s = true -> forallb tidy (applyRenames s) = true.
Proof.
  unfold applyRenames. generalize renames_tidy.
  generalize renames as rs. intros rs Hrs. revert s.
  induction Hrs as [|rr rs Hrr _ IH]; intros s Hs; simpl.
  - exact Hs.
  - apply IH. now apply replaceAll_forallb.
Qed.

Lemma uniqueLoop_Forall (P : chars -> Prop) ws :
  forall uniqueWords seen,
    Forall P ws -> Forall P uniqueWords ->
    Forall P (uniqueLoop ws uniqueWords seen).
Proof.
  induction ws as [|w rest IH]; intros u seen Hws Hu; simpl.
  - exact Hu.
  - inversion Hws as [|? ? Hw Hrest]; subst.
    destruct (negb _ && _).
    + apply IH; [exact Hrest|]. apply Forall_app. split; [exact Hu|].
      now constructor.
    + now apply IH.
Qed.

Lemma Forall_firstn {A} (P : A -> Prop) n (l : list A) :
  Forall P l -> Forall P (firstn n l).
Proof.
  intros H. revert n. induction H as [|x l Hx _ IH]; intros [|n]; simpl;
    constructor; auto.
Qed.

Lemma formatChars_two_words name :
  (length (words (formatChars name)) <= 2)%nat.
Proof.
  unfold formatChars. apply words_join2.
  - rewrite length_firstn. lia.
  - apply Forall_firstn. apply uniqueLoop_Forall; [|constructor].
    apply split_solid. apply applyRenames_tidy. apply trim_forallb.
    apply collapse_tidy.
Qed.

Lemma formatPartName_wordCount name : (wordCount (formatPartName name) <= 2)%nat.
Proof.
  unfold wordCount, formatPartName. destruct name as [|c s].
  - simpl. lia.
  - unfold str at 1. rewrite list_ascii_of_string_of_list_ascii.
    apply formatChars_two_words.
Qed.

End PartNameFacts.

(* ------------------------------------------------------------------ *)
(** ** The page *)

Module PageFacts.
Import State.

Lemma hasClass_addClass id c id' c' d :
  hasClass id c (addClass id' c' d)
  = bool_decide ((id, c) = (id', c')) || hasClass id c d.
Proof.
  unfold hasClass, addClass; simpl. apply eq_true_iff_eq.
  rewrite orb_true_iff, !bool_decide_eq_true. set_solver.
Qed.

Lemma hasClass_removeClass id c id' c' d :
  hasClass id c (removeClass id' c' d)
  = negb (bool_decide ((id, c) = (id', c'))) && hasClass id c d.
Proof.
  unfold hasClass, removeClass; simpl. apply eq_true_iff_eq.
  rewrite andb_true_iff, negb_true_iff, bool_decide_eq_false,
    !bool_decide_eq_true.
  set_solver.
Qed.

Lemma hasClass_setText id c id' x d :
  hasClass id c (setText id' x d) = hasClass id c d.
Proof. reflexivity. Qed.

Lemma getText_setText id x d : getText id (setText id x d) = x.
Proof. unfold getText, setText; simpl. now rewrite lookup_insert_eq. Qed.

Lemma getText_addClass id id' c d :
  getText id (addClass id' c d) = getText id d.
Proof. reflexivity. Qed.

Lemma getText_removeClass id id' c d :
  getText id (removeClass id' c d) = getText id d.
Proof. reflexivity. Qed.

End PageFacts.

(* ------------------------------------------------------------------ *)
(** ** The side panel *)

Module PanelFacts.
Import Scene State Viewer PageFacts.

Lemma buttons_keep_collapsed btns : forall v,
  hasClass rightPanelId "collapsed"
    (dom (fold_left (fun v btn => onDom (removeClass btn "active") v) btns v))
  = hasClass rightPanelId "collapsed" (dom v).
Proof.
  induction btns as [|b btns IH]; intros v; simpl; [reflexivity|].
  rewrite IH. simpl. rewrite hasClass_removeClass.
  rewrite bool_decide_eq_false_2 by (intros [=]). reflexivity.
Qed.

Lemma buttons_keep_text btns : forall v,
  getText rightPanelToggleId
    (dom (fold_left (fun v btn => onDom (removeClass btn "active") v) btns v))
  = getText rightPanelToggleId (dom v).
Proof.
  induction btns as [|b btns IH]; intros v; simpl; [reflexivity|].
  now rewrite IH.
Qed.

(** One toggle flips the [collapsed] class and writes the arrow of the
    new state. *)
Lemma toggleRightPanel_once pb btns v :
  let v' := toggleRightPanel pb btns v in
  hasClass rightPanelId "collapsed" (dom v')
  = negb (hasClass rightPanelId "collapsed" (dom v))
  /\ getText rightPanelToggleId (dom v')
     = (if hasClass rightPanelId "collapsed" (dom v') then "◄" else "►").
Proof.
  unfold toggleRightPanel, toggleClass.
  destruct (hasClass rightPanelId "collapsed" (dom v)) eqn:Hc; simpl.
  - rewrite buttons_keep_collapsed, buttons_keep_text.
    assert (Hoff : forall d,
      hasClass rightPanelId "collapsed" d = false ->
      forall d', (d' = d \/ exists pb', d' = addClass pb' "hidden" d) ->
      hasClass rightPanelId "collapsed" d' = false).
    { intros d Hd d' [->|[pb' ->]]; [exact Hd|].
      rewrite hasClass_addClass, Hd.
      rewrite bool_decide_eq_false_2 by (intros [=]). reflexivity. }
    assert (H0 : hasClass rightPanelId "collapsed"
                   (removeClass rightPanelToggleId "panel-collapsed"
                      (setText rightPanelToggleId "►"
                         (removeClass rightPanelId "collapsed" (dom v)))) = false).
    { rewrite hasClass_removeClass, hasClass_setText, hasClass_removeClass.
      repeat case_bool_decide; simplify_eq; reflexivity. }
    destruct pb as [pb|]; simpl.
    + rewrite (Hoff _ H0) by (right; eauto). split; [reflexivity|].
      rewrite getText_addClass, getText_removeClass. apply getText_setText.
    + rewrite H0. split; [reflexivity|].
      rewrite getText_removeClass. apply getText_setText.
  - assert (H1 : hasClass rightPanelId "collapsed"
                   (addClass rightPanelToggleId "panel-collapsed"
                      (setText rightPanelToggleId "◄"
                         (addClass rightPanelId "collapsed" (dom v)))) = true).
    { rewrite hasClass_addClass, hasClass_setText, hasClass_addClass.
      repeat case_bool_decide; simplify_eq; reflexivity. }
    destruct pb as [pb|]; simpl.
    + rewrite hasClass_removeClass, H1.
      rewrite bool_decide_eq_false_2 by (intros [=]). simpl.
      split; [reflexivity|].
      rewrite getText_removeClass, getText_addClass. apply getText_setText.
    + rewrite H1. split; [reflexivity|].
      rewrite getText_addClass. apply getText_setText.
Qed.

(** C7. Toggling the right side panel twice returns it to its original
    state: whatever the page looks like, after two calls of
    [toggleRightPanel] the panel carries the [collapsed] class exactly if
    it did before, and the toggle button shows the arrow of that state
    (the left arrow when collapsed, the right arrow when open). *)
Theorem toggleRightPanel_twice
        (presetButtons : option string) (presetButtonElements : list string)
        (v : viewer) :
  let v2 := toggleRightPanel presetButtons presetButtonElements
              (toggleRightPanel presetButtons presetButtonElements v) in
  hasClass rightPanelId "collapsed" (dom v2)
  = hasClass rightPanelId "collapsed" (dom v)
  /\ getText rightPanelToggleId (dom v2)
     = (if hasClass rightPanelId "collapsed" (dom v) then "◄" else "►").
Proof.
  intros v2.
  destruct (toggleRightPanel_once presetButtons presetButtonElements v)
    as [H1 _].
  destruct (toggleRightPanel_once presetButtons presetButtonElements
              (toggleRightPanel presetButtons presetButtonElements v))
    as [H2 T2].
  cbv zeta in H1, H2, T2. fold v2 in H2, T2.
  assert (E : hasClass rightPanelId "collapsed" (dom v2)
              = hasClass rightPanelId "collapsed" (dom v)).
  { rewrite H2, H1. apply negb_involutive. }
  split; [exact E|]. now rewrite T2, E.
Qed.

End PanelFacts.

(* ------------------------------------------------------------------ *)
(** ** The part indicator *)

Module IndicatorFacts.
Import Scene State Viewer PartName Text PageFacts.

Section WithLibrary.
Variable raycast : R * R -> object3d -> list hit.
Variable worldToLocal localToWorld : string -> vec3 -> vec3.
Variable placePopup : option object3d -> string -> vec3 -> string * string * vec3.

Lemma updateIndicatorPosition_texts v :
  texts (dom (updateIndicatorPosition localToWorld placePopup v)) = texts (dom v).
Proof.
  unfold updateIndicatorPosition.
  destruct (selectedObject (sel v)) as [o|]; [|reflexivity].
  destruct (selectedIntersectionPoint (sel v)) as [p|]; [|reflexivity].
  destruct (placePopup _ _ _) as [[x y] q].
  unfold updateConnectionMarker, updateConnectionLine, createConnectionLine,
    createConnectionMarker; simpl.
  destruct (connectionLine (sel v)); simpl;
    destruct (connectionMarker (sel v)); reflexivity.
Qed.

(** The title that [showIndicator] writes is the formatted part name. *)
Lemma showIndicator_title object point v :
  let v' := showIndicator worldToLocal localToWorld placePopup object point v in
  match (match userData_partInfo object with
         | Some i => Some i
         | None => partData v !! uuid object
         end) with
  | Some info =>
      getText "indicator-title" (dom v') = formatPartName (part_name info)
  | None =>
      getText "indicator-title" (dom v') = getText "indicator-title" (dom v)
  end.
Proof.
  unfold showIndicator.
  generalize updateIndicatorPosition_texts.
  generalize (updateIndicatorPosition localToWorld placePopup).
  intros update Hupdate. simpl.
  destruct (match userData_partInfo object with
            | Some i => Some i
            | None => partData v !! uuid object
            end) as [info|]; simpl; [|reflexivity].
  unfold getText, removeClass. cbn [texts]. rewrite Hupdate. simpl.
  rewrite lookup_insert_ne by (intros [=]).
  now rewrite lookup_insert_eq.
Qed.

End WithLibrary.

(** C9. For every input string, [formatPartName] returns a string of at
    most two white-space separated words; the renames of the domain are
    applied ('panel' becomes 'Solar Arrays', 'heat shield' becomes 'Crew
    Module', the exhaust variants collapse to 'Exhaust'), duplicate words
    are dropped without regard to case and only the first two remaining
    words are kept.  Hence the part name that the indicator displays has at
    most two words. *)
Theorem formatPartName_at_most_two_words :
  (forall name : string, (wordCount (formatPartName name) <= 2)%nat)
  /\ formatPartName "panel" = "Solar Arrays"
  /\ formatPartName "heat shield" = "Crew Module"
  /\ formatPartName "Exhaust02" = "Exhaust"
  /\ formatPartName "Exhaust01_Exhaust" = "Exhaust"
  /\ formatPartName "exhaust 12 nozzle ring" = "Exhaust"
  /\ formatPartName "HEAT_Shield-Heat_Shield_Metal_UV" = "Crew Module"
  /\ formatPartName "Antenna antenna DISH mast" = "Antenna DISH"
  /\ (forall worldToLocal localToWorld placePopup object point v info,
        let v' := showIndicator worldToLocal localToWorld placePopup
                    object point v in
        (match userData_partInfo object with
         | Some i => Some i
         | None => partData v !! uuid object
         end) = Some info ->
        getText "indicator-title" (dom v') = formatPartName (part_name info)
        /\ (wordCount (getText "indicator-title" (dom v')) <= 2)%nat).
Proof.
  split; [exact PartNameFacts.formatPartName_wordCount|].
  do 7 (split; [vm_compute; reflexivity|]).
  intros w2l l2w pp object point v info v' Hinfo.
  pose proof (showIndicator_title w2l l2w pp object point v) as H.
  cbv zeta in H. rewrite Hinfo in H. fold v' in H.
  split; [exact H|]. rewrite H.
  apply PartNameFacts.formatPartName_wordCount.
Qed.

End IndicatorFacts.

(* ------------------------------------------------------------------ *)
(** ** Double click *)

Module SelectionFacts.
Import Scene State Viewer.

Local Open Scope R_scope.

(** C6. A double click whose ray from the camera through the click
    position meets nothing of the loaded model (in particular when no
    model is loaded) does not open the part overlay and leaves the
    selection state alone: [selectedPart], [selectedObject],
    [lastIntersectionPoint] and the rest of the selection, the
    [isRotationPaused] flag, the page and the model are what they were. *)
Theorem doubleClick_on_empty_space
        (raycast : R * R -> object3d -> list hit)
        (worldToLocal localToWorld : string -> vec3 -> vec3)
        (placePopup : option object3d -> string -> vec3 -> string * string * vec3)
        (container : option rect) (clientX clientY : R) (v : viewer) :
  (forall containerRect model,
      container = Some containerRect -> satellite v = Some model ->
      raycast (toNDC containerRect clientX clientY) model = []) ->
  let v' := onMouseDoubleClick raycast worldToLocal localToWorld placePopup
              container clientX clientY v in
  sel v' = sel v
  /\ isRotationPaused v' = isRotationPaused v
  /\ hasClass overlayId "hidden" (dom v') = hasClass overlayId "hidden" (dom v)
  /\ dom v' = dom v
  /\ satellite v' = satellite v.
Proof.
  intros Hmiss. unfold onMouseDoubleClick.
  destruct container as [rc|]; [|now repeat split].
  simpl. unfold intersectObjects.
  destruct (satellite v) as [model|] eqn:Hs; simpl.
  - rewrite (Hmiss rc model eq_refl eq_refl). simpl. now rewrite Hs.
  - now rewrite Hs.
Qed.

(** The claim at work.  The panel of the sample model fills the left half
    of the canvas and the click is in the right half: once on the page
    before any model has arrived, once beside the loaded model. *)
Lemma doubleClick_on_empty_space_witness :
  let leftHalf : R * R -> object3d -> list hit :=
    fun ndc _ => if Rlt_dec (fst ndc) 0
                 then [Hit Samples.panel (Vec3 2 0 0)] else [] in
  let click := onMouseDoubleClick leftHalf (fun _ p => p) (fun _ p => p)
                 (fun _ _ p => ("0px", "0px", p))
                 (Some (Rect 0 0 800 600)) 700 300 in
  let empty := initialViewer 0 in
  let loaded := withSatellite (Some Samples.orion) (initialViewer 0) in
  (sel (click empty) = sel empty /\ isRotationPaused (click empty) = false
   /\ hasClass overlayId "hidden" (dom (click empty)) = true)
  /\ (sel (click loaded) = sel loaded /\ isRotationPaused (click loaded) = false
      /\ hasClass overlayId "hidden" (dom (click loaded)) = true
      /\ satellite (click loaded) = Some Samples.orion)
  /\ leftHalf (toNDC (Rect 0 0 800 600) 100 300) Samples.orion
     = [Hit Samples.panel (Vec3 2 0 0)].
Proof.
  intros leftHalf click empty loaded.
  assert (Hmiss : forall model,
             leftHalf (toNDC (Rect 0 0 800 600) 700 300) model = []).
  { intros model. unfold leftHalf, toNDC. cbn [fst left top width height].
    destruct (Rlt_dec _ 0) as [H|_]; [lra|reflexivity]. }
  split; [|split].
  - destruct (doubleClick_on_empty_space leftHalf (fun _ p => p) (fun _ p => p)
                (fun _ _ p => ("0px", "0px", p))
                (Some (Rect 0 0 800 600)) 700 300 empty)
      as (Hsel & Hpaused & Hover & _).
    + intros rc model Hrc _. injection Hrc as <-. apply Hmiss.
    + fold click in Hsel, Hpaused, Hover.
      split; [exact Hsel|]. split; [rewrite Hpaused; reflexivity|].
      rewrite Hover. vm_compute. reflexivity.
  - destruct (doubleClick_on_empty_space leftHalf (fun _ p => p) (fun _ p => p)
                (fun _ _ p => ("0px", "0px", p))
                (Some (Rect 0 0 800 600)) 700 300 loaded)
      as (Hsel & Hpaused & Hover & _ & Hsat).
    + intros rc model Hrc _. injection Hrc as <-. apply Hmiss.
    + fold click in Hsel, Hpaused, Hover, Hsat.
      split; [exact Hsel|]. split; [rewrite Hpaused; reflexivity|].
      split; [rewrite Hover; vm_compute; reflexivity|].
      rewrite Hsat. reflexivity.
  - unfold leftHalf, toNDC. cbn [fst left top width height].
    destruct (Rlt_dec _ 0) as [_|H]; [reflexivity|]. exfalso. apply H. lra.
Defined.

End SelectionFacts.

(* ------------------------------------------------------------------ *)
(** ** The per-frame loop *)

Module AnimateFacts.
Import Scene State Viewer.

Local Open Scope R_scope.

Section WithLibrary.
Variable localToWorld : string -> vec3 -> vec3.
Variable placePopup : option object3d -> string -> vec3 -> string * string * vec3.


End WithLibrary.




End AnimateFacts.

(* ------------------------------------------------------------------ *)
(** ** The drop handler *)

Module DropFacts.
Import Monsters.

(** The reason with which the promise chain of [handleDrop] rejects, if
    it does: the request fails, the response has no form, or the form has
    no file under [mesh], so that [readAsDataURL] throws. *)
Definition rejection (a : answers) : option string :=
  match fetched a with
  | Rejected error => Some error
  | Fulfilled response =>
      match formData a response with
      | Rejected error => Some error
      | Fulfilled result =>
          match fold_left (fun (o : gmap string formValue) kv =>
                             <[fst kv := snd kv]> o) result ∅ !! "mesh" with
          | Some (FormFile _) => None
          | _ => Some "TypeError: parameter 1 is not of type 'Blob'"
          end
      end
  end.

Definition isFetch (c : call) : bool :=
  match c with Fetch _ _ => true | _ => false end.

(** C8. When the POST to the estimate endpoint fails (the promise chain
    of the fetch rejects), the failure is logged to the console and that
    is all: no alert is shown, the request is not made again and
    [initProject] is not called. *)
Theorem handleDrop_failure_logged_only (a : answers) (error : string) :
  rejection a = Some error ->
  handleDrop a = [Fetch "POST" endpoint; ConsoleLog "error" error]
  /\ (forall msg, ~ In (Alert msg) (handleDrop a))
  /\ (forall canvas model p, ~ In (InitProject canvas model p) (handleDrop a))
  /\ length (filter isFetch (handleDrop a)) = 1%nat.
Proof.
  intros Hrej.
  assert (E : handleDrop a = [Fetch "POST" endpoint; ConsoleLog "error" error]).
  { unfold handleDrop, rejection in *.
    destruct (fetched a) as [response|e]; [|now injection Hrej as ->].
    destruct (formData a response) as [result|e]; [|now injection Hrej as ->].
    destruct (fold_left _ result ∅ !! "mesh") as [[text|blob]|];
      try discriminate; now injection Hrej as <-. }
  rewrite E. split; [reflexivity|]. split; [|split].
  - intros msg [H|[H|[]]]; discriminate.
  - intros canvas model p [H|[H|[]]]; discriminate.
  - reflexivity.
Qed.

(** The server is down; and: the server answers with a form that has no
    mesh. *)
Lemma handleDrop_failure_logged_only_witness :
  handleDrop (Answers (Some 1%nat) (Rejected "TypeError: Failed to fetch")
                (fun _ => Fulfilled []) (fun _ => None))
  = [Fetch "POST" endpoint; ConsoleLog "error" "TypeError: Failed to fetch"]
  /\ length (filter isFetch
       (handleDrop (Answers (Some 1%nat) (Fulfilled 1%nat)
                      (fun _ => Fulfilled [("note", FormText "no mesh")])
                      (fun _ => None)))) = 1%nat.
Proof.
  split.
  - apply (handleDrop_failure_logged_only
             (Answers (Some 1%nat) (Rejected "TypeError: Failed to fetch")
                (fun _ => Fulfilled []) (fun _ => None))).
    reflexivity.
  - apply (handleDrop_failure_logged_only
             (Answers (Some 1%nat) (Fulfilled 1%nat)
                (fun _ => Fulfilled [("note", FormText "no mesh")])
                (fun _ => None))
             "TypeError: parameter 1 is not of type 'Blob'").
    vm_compute. reflexivity.
Defined.

End DropFacts.

(* ------------------------------------------------------------------ *)
(** ** Traces *)

Module StateFacts.
Import Scene State.

Lemma emits_eq es : forall v,
  emits es v
  = Viewer (satellite v) (partData v) (mouse v) (sel v) (isRotationPaused v)
      (rotationTime v) (lastFrameTime v) (lamps v) (back v) (currentPreset v)
      (dom v) (trace v ++ es).
Proof.
  unfold emits. induction es as [|e es IH]; intros v; simpl.
  - rewrite app_nil_r. now destruct v.
  - rewrite IH. simpl. now rewrite <- app_assoc.
Qed.

Lemma traverse_traverseMap f t :
  traverse (traverseMap f t) = List.map f (traverse t).
Proof.
  revert t. fix IH 1. intros [o cs]. simpl. f_equal.
  induction cs as [|c cs IHcs]; simpl; [reflexivity|].
  rewrite List.map_app, IH, IHcs. reflexivity.
Qed.

Lemma root_traverseMap f t : root (traverseMap f t) = f (root t).
Proof. now destruct t. Qed.

Lemma traverse_setRoot f t :
  traverse (setRoot f t) = f (root t) :: tail (traverse t).
Proof. now destruct t. Qed.

Lemma traverse_root t : traverse t = root t :: tail (traverse t).
Proof. now destruct t. Qed.

End StateFacts.

(* ------------------------------------------------------------------ *)
(** ** Replacing the model *)

Module LoadFacts.
Import Scene State Viewer Loading StateFacts PageFacts.

Definition closeEvents (v : viewer) : list event :=
  match connectionLine (sel v) with
  | Some _ => [LineRemove; LineDispose]
  | None => []
  end
  ++ match connectionMarker (sel v) with
     | Some _ => [MarkerRemove; MarkerDispose]
     | None => []
     end.

Lemma closeIndicator_eq v :
  closeIndicator v
  = Viewer (satellite v) (partData v) (mouse v)
      (Selection None None None None None None) false
      (rotationTime v) (lastFrameTime v) (lamps v) (back v) (currentPreset v)
      (addClass overlayId "hidden" (dom v)) (trace v ++ closeEvents v).
Proof.
  destruct v as [sat pd ms [sp so sip lip line marker] paused rt lft ls bk cp d tr].
  destruct line, marker; cbv -[app addClass];
    rewrite <- ?app_assoc, ?app_nil_r; reflexivity.
Qed.

(** What the old model is owed before another one takes its place. *)
Definition disposes (old : object3d) (es : list event) : Prop :=
  In (SceneRemove (uuid (root old))) es
  /\ forall child,
       In child (traverse old) -> isMesh child = true ->
       (forall g, geometry child = Some g -> In (GeometryDispose g) es)
       /\ (forall slot m,
             materialOf child = Some slot -> In m (materialsOf slot) ->
             In (MaterialDispose (mat_id m)) es
             /\ forall k t, mat_maps m k = Some t ->
                            In (TextureDispose (tex_id t)) es).

Lemma textureMaps_all k : In k textureMaps.
Proof. destruct k; simpl; tauto. Qed.

Lemma disposeMaterial_spec m :
  In (MaterialDispose (mat_id m)) (disposeMaterial m)
  /\ forall k t, mat_maps m k = Some t ->
                 In (TextureDispose (tex_id t)) (disposeMaterial m).
Proof.
  unfold disposeMaterial. split.
  - apply in_or_app. right. now left.
  - intros k t Hk. apply in_or_app. left. apply in_flat_map.
    exists k. split; [apply textureMaps_all|]. rewrite Hk. now left.
Qed.

Lemma disposeObject_spec child :
  isMesh child = true ->
  (forall g, geometry child = Some g -> In (GeometryDispose g) (disposeObject child))
  /\ (forall slot m,
        materialOf child = Some slot -> In m (materialsOf slot) ->
        In (MaterialDispose (mat_id m)) (disposeObject child)
        /\ forall k t, mat_maps m k = Some t ->
                       In (TextureDispose (tex_id t)) (disposeObject child)).
Proof.
  intros Hmesh. unfold disposeObject. rewrite Hmesh. split.
  - intros g Hg. rewrite Hg. apply in_or_app. left. now left.
  - intros slot m Hslot Hm. rewrite Hslot.
    destruct (disposeMaterial_spec m) as [Hd Ht].
    split.
    + apply in_or_app. right. apply in_flat_map. eauto.
    + intros k t Hk. apply in_or_app. right. apply in_flat_map. eauto.
Qed.

Definition removeEvents (old : object3d) : list event :=
  SceneRemove (uuid (root old)) :: flat_map disposeObject (traverse old).

Lemma removeEvents_disposes old : disposes old (removeEvents old).
Proof.
  split; [now left|].
  intros child Hin Hmesh.
  destruct (disposeObject_spec child Hmesh) as [Hg Hm].
  split.
  - intros g E. right. apply in_flat_map. eauto.
  - intros slot m Hs Hi. destruct (Hm slot m Hs Hi) as [H1 H2]. split.
    + right. apply in_flat_map. eauto.
    + intros k t Hk. right. apply in_flat_map. eauto.
Qed.

Lemma disposeObject_no_add child u : ~ In (SceneAdd u) (disposeObject child).
Proof.
  unfold disposeObject. destruct (isMesh child); [|easy].
  intros H. apply in_app_or in H as [H|H].
  - destruct (geometry child); simpl in H; intuition discriminate.
  - destruct (materialOf child) as [slot|]; [|easy].
    apply in_flat_map in H as (m & _ & H). unfold disposeMaterial in H.
    apply in_app_or in H as [H|H].
    + apply in_flat_map in H as (k & _ & H).
      destruct (mat_maps m k); simpl in H; intuition discriminate.
    + simpl in H. intuition discriminate.
Qed.

Lemma removeExisting_eq v old :
  satellite v = Some old ->
  removeExisting v
  = Viewer None (partData v) (mouse v) (sel v) (isRotationPaused v)
      (rotationTime v) (lastFrameTime v) (lamps v) (back v) (currentPreset v)
      (dom v) (trace v ++ removeEvents old).
Proof.
  intros H. unfold removeExisting. rewrite H. rewrite emits_eq. simpl.
  rewrite <- app_assoc. reflexivity.
Qed.

Lemma removeExisting_none v :
  satellite v = None -> removeExisting v = v.
Proof. intros H. unfold removeExisting. now rewrite H. Qed.

(** The events of [startLoad] for a model that replaces another one. *)
Definition replaceEvents (src : source) (v : viewer) : list event :=
  match satellite v with Some old => removeEvents old | None => [] end
  ++ closeEvents v ++ [BuildOutliner false; LoaderLoad (urlOf src)].

Lemma startLoad_replace src v :
  src <> Startup ->
  satellite (startLoad src v) = None
  /\ trace (startLoad src v) = trace v ++ replaceEvents src v
  /\ partData (startLoad src v) = ∅.
Proof.
  intros Hsrc. unfold startLoad, replaceEvents.
  destruct src as [|p|n u]; [congruence| |];
    (destruct (satellite v) as [old|] eqn:Hs;
     [rewrite (removeExisting_eq v old Hs)
     |rewrite (removeExisting_none v Hs)];
     rewrite closeIndicator_eq; simpl; rewrite ?Hs;
     rewrite <- ?app_assoc; simpl; repeat split; reflexivity).
Qed.

Lemma replaceEvents_no_add src v u : ~ In (SceneAdd u) (replaceEvents src v).
Proof.
  unfold replaceEvents. intros H.
  apply in_app_or in H as [H|H].
  - destruct (satellite v) as [old|]; [|easy].
    destruct H as [H|H]; [discriminate|].
    apply in_flat_map in H as (c & _ & H). now apply disposeObject_no_add in H.
  - apply in_app_or in H as [H|H].
    + unfold closeEvents in H.
      destruct (connectionLine (sel v)), (connectionMarker (sel v));
        simpl in H; intuition discriminate.
    + simpl in H. intuition discriminate.
Qed.

End LoadFacts.

Module LoadClaims.
Import Scene State Viewer Loading StateFacts PageFacts LoadFacts.

Section WithLibrary.
Variable boxCenter boxSize : object3d -> vec3.
Variable newMaterial : material -> nat * string.
Variable toFixed : nat -> R -> string.
Variable numberToString : R -> string.

Lemma uuid_onMaterials f o : uuid (onMaterials f o) = uuid o.
Proof. unfold onMaterials. now destruct (materialOf o) as [[m|ms]|]. Qed.

Lemma root_setRoot f t : root (setRoot f t) = f (root t).
Proof. now destruct t. Qed.

Lemma uuid_root_traverseMap f t :
  (forall o, uuid (f o) = uuid o) ->
  uuid (root (traverseMap f t)) = uuid (root t).
Proof. intros H. now rewrite root_traverseMap. Qed.

Lemma prepare_uuid gltf :
  uuid (root (prepare boxCenter newMaterial gltf)) = uuid (root gltf).
Proof.
  unfold prepare, convertMaterials, processGLTFTextures.
  rewrite uuid_root_traverseMap.
  - rewrite !root_setRoot. simpl. apply uuid_root_traverseMap.
    intros o. apply uuid_onMaterials.
  - intros o. rewrite uuid_onMaterials. unfold convertChild.
    destruct (isMesh o), (materialOf o); reflexivity.
Qed.

Lemma modelLoaded_trace src gltf v :
  exists pre post,
    trace (modelLoaded boxCenter boxSize newMaterial toFixed numberToString
             src gltf v)
    = trace v ++ pre ++ SceneAdd (uuid (root gltf)) :: post
    /\ forall u, ~ In (SceneAdd u) pre.
Proof.
  unfold modelLoaded.
  pose proof (prepare_uuid gltf) as Hu. revert Hu.
  generalize (prepare boxCenter newMaterial gltf). intros model Hu.
  unfold applySolarPanelTexture, tagParts, setEnvironmentIntensity,
    updateLoadingProgress. simpl.
  rewrite emits_eq. simpl. rewrite Hu.
  assert (Hpre : forall u,
    ~ In (SceneAdd u)
        (flat_map
           (fun child =>
              flat_map
                (fun m =>
                   if negb (String.eqb (mat_name m) "")
                      && existsb (String.eqb (mat_name m)) panelMaterialNames
                   then [TextureLoad texturePath (mat_id m)] else [])
                (meshMaterials child))
           (traverse model))).
  { intros u H. apply in_flat_map in H as (c & _ & H).
    apply in_flat_map in H as (m & _ & H).
    destruct (_ && _); simpl in H; intuition discriminate. }
  destruct src; simpl; rewrite <- !app_assoc; simpl;
    (eexists; eexists; split; [reflexivity|exact Hpre]).
Qed.

Lemma modelLoaded_satellite src gltf v :
  satellite (modelLoaded boxCenter boxSize newMaterial toFixed numberToString
               src gltf v)
  = Some (traverseMap tagPart (prepare boxCenter newMaterial gltf)).
Proof.
  unfold modelLoaded.
  generalize (prepare boxCenter newMaterial gltf). intros model.
  unfold applySolarPanelTexture, tagParts, setEnvironmentIntensity,
    updateLoadingProgress. simpl.
  rewrite emits_eq. simpl. destruct src; reflexivity.
Qed.

End WithLibrary.

(** C2. When another model is chosen while one is on display,
    [loadModelByPath] and [loadModelFromFile] remove the model on display
    from the scene and dispose the geometry, every material and every
    texture map (map, normalMap, roughnessMap, metalnessMap, aoMap,
    emissiveMap) of each of its meshes; all of this is in the trace
    before the new model is added to the scene, which happens in the
    callback of the finished load. *)
Theorem old_model_disposed_before_new_added
        (boxCenter boxSize : object3d -> vec3)
        (newMaterial : material -> nat * string)
        (toFixed : nat -> R -> string) (numberToString : R -> string)
        (src : source) (v : viewer) (old : object3d) :
  src <> Startup ->
  satellite v = Some old ->
  let v1 := startLoad src v in
  exists before,
    trace v1 = trace v ++ before
    /\ disposes old before
    /\ (forall u, ~ In (SceneAdd u) before)
    /\ satellite v1 = None
    /\ forall (gltf : object3d) (v1' : viewer) (between : list event),
         trace v1' = trace v1 ++ between ->
         exists pre post,
           trace (modelLoaded boxCenter boxSize newMaterial toFixed
                    numberToString src gltf v1')
           = trace v ++ before ++ between ++ pre
               ++ SceneAdd (uuid (root gltf)) :: post
           /\ forall u, ~ In (SceneAdd u) pre.
Proof.
  intros Hsrc Hold v1.
  destruct (startLoad_replace src v Hsrc) as (Hsat & Htrace & _).
  exists (replaceEvents src v). fold v1 in Hsat, Htrace.
  split; [exact Htrace|]. split; [|split; [|split]].
  - unfold replaceEvents. rewrite Hold.
    destruct (removeEvents_disposes old) as [Hrem Hall]. split.
    + apply in_or_app. now left.
    + intros child Hin Hmesh. destruct (Hall child Hin Hmesh) as [Hg Hm].
      split.
      * intros g E. apply in_or_app. left. eauto.
      * intros slot m Hs Hi. destruct (Hm slot m Hs Hi) as [H1 H2]. split.
        -- apply in_or_app. now left.
        -- intros k t Hk. apply in_or_app. left. eauto.
  - apply replaceEvents_no_add.
  - exact Hsat.
  - intros gltf v1' between Hbetween.
    destruct (modelLoaded_trace boxCenter boxSize newMaterial toFixed
                numberToString src gltf v1') as (pre & post & E & Hpre).
    exists pre, post. split; [|exact Hpre].
    rewrite E, Hbetween, Htrace. now rewrite <- !app_assoc.
Qed.

End LoadClaims.

Module LoadExamples.
Import Scene State Viewer Loading LoadFacts LoadClaims Samples.

(** The sample model is on display and a path of the menu is chosen. *)
Lemma old_model_disposed_before_new_added_witness :
  let v := withSatellite (Some orion) (initialViewer 0) in
  let v1 := startLoad (ByPath "models/other.gltf") v in
  exists before,
    trace v1 = before
    /\ In (SceneRemove "uuid-orion") before
    /\ In (GeometryDispose 21) before
    /\ In (MaterialDispose 11) before
    /\ In (TextureDispose 7) before
    /\ In (MaterialDispose 12) before
    /\ satellite v1 = None.
Proof.
  intros v v1.
  destruct (old_model_disposed_before_new_added
              (fun _ => origin) (fun _ => unit)
              (fun m => (100 + mat_id m, "fresh")%nat)
              (fun _ _ => "100") (fun _ => "100")
              (ByPath "models/other.gltf") v orion)
    as (before & Htrace & [Hremove Hall] & _ & Hsat & _).
  - discriminate.
  - reflexivity.
  - exists before. fold v1 in Htrace, Hsat.
    destruct (Hall panel) as [Hg Hm];
      [simpl; tauto | reflexivity |].
    destruct (Hm (One panelMaterial) panelMaterial eq_refl) as [Hmat Htex];
      [now left|].
    destruct (Hall shield) as [_ Hm'];
      [simpl; tauto | reflexivity |].
    destruct (Hm' (Many [shieldMaterial]) shieldMaterial eq_refl) as [Hmat' _];
      [now left|].
    split; [exact Htrace|]. split; [exact Hremove|].
    split; [exact (Hg _ eq_refl)|]. split; [exact Hmat|].
    split; [exact (Htex map_ panelTexture eq_refl)|].
    split; [exact Hmat'|exact Hsat].
Defined.

End LoadExamples.

(* ------------------------------------------------------------------ *)
(** ** Failures *)

Module FailureFacts.
Import Scene State Viewer Loading SceneData Settings StateFacts PageFacts
       LoadFacts.

Definition loadAlert : string :=
  "Failed to load 3D model. Please check the console for details.".

Definition settingsAlert : string :=
  "Failed to load settings file. Please check that it is a valid JSON file.".

Lemma startLoad_startup v :
  satellite (startLoad Startup v) = satellite v
  /\ trace (startLoad Startup v) = trace v ++ [LoaderLoad startupPath].
Proof. now split. Qed.

(** A load that fails, whichever way it was started. *)
Lemma failed_load src v :
  (src = Startup -> satellite v = None) ->
  let v2 := loadFailed src (startLoad src v) in
  satellite v2 = None
  /\ hasClass loadingOverlayId "hidden" (dom v2) = true
  /\ exists es,
       trace v2 = trace v ++ es
       /\ In (Alert loadAlert) es
       /\ forall u, ~ In (SceneAdd u) es.
Proof.
  intros Hstart v2. subst v2.
  assert (Hs : satellite (startLoad src v) = None
               /\ exists es, trace (startLoad src v) = trace v ++ es
                             /\ forall u, ~ In (SceneAdd u) es).
  { destruct src as [|p|n u].
    - destruct (startLoad_startup v) as [H1 H2]. rewrite H1, H2.
      split; [now apply Hstart|]. eexists. split; [reflexivity|].
      intros u [H|[]]. discriminate.
    - destruct (startLoad_replace (ByPath p) v) as (H1 & H2 & _);
        [discriminate|].
      split; [exact H1|]. eexists. split; [exact H2|].
      apply replaceEvents_no_add.
    - destruct (startLoad_replace (FromFile n u) v) as (H1 & H2 & _);
        [discriminate|].
      split; [exact H1|]. eexists. split; [exact H2|].
      apply replaceEvents_no_add. }
  destruct Hs as (Hsat & es & Htrace & Hno).
  revert Hsat Htrace. generalize (startLoad src v). intros v1 Hsat Htrace.
  unfold loadFailed, hideLoadingIndicator.
  split; [|split].
  - destruct src; simpl; exact Hsat.
  - destruct src; simpl; rewrite hasClass_addClass;
      rewrite bool_decide_eq_true_2 by reflexivity; reflexivity.
  - destruct src as [|p|n u]; simpl; rewrite Htrace, <- !app_assoc; simpl.
    + eexists. split; [reflexivity|]. split.
      * apply in_or_app. right. simpl. tauto.
      * intros w H. apply in_app_or in H as [H|H]; [now apply Hno in H|].
        simpl in H. intuition discriminate.
    + eexists. split; [reflexivity|]. split.
      * apply in_or_app. right. simpl. tauto.
      * intros w H. apply in_app_or in H as [H|H]; [now apply Hno in H|].
        simpl in H. intuition discriminate.
    + eexists. split; [reflexivity|]. split.
      * apply in_or_app. right. simpl. tauto.
      * intros w H. apply in_app_or in H as [H|H]; [now apply Hno in H|].
        simpl in H. intuition discriminate.
Qed.

(** C4. If a model load fails, the error callback leaves the scene
    without a model: the satellite reference is null, nothing has been
    added to the scene, the loading indicator is hidden and the user is
    told by an alert.  If the text of a settings file does not parse, no
    setting is applied (the viewer is as before, up to the trace) and the
    user is told by an alert. *)
Theorem failures_are_reported
        (numberToString : R -> string) (toFixed : nat -> R -> string)
        (parseFloat : string -> R) (floorNumber : string -> Z)
        (controlValue : string -> string -> string)
        (JSON_parse : string -> completion (option settings))
        (src : source) (text : string) (v : viewer) :
  ((src = Startup -> satellite v = None) ->
   let v2 := loadFailed src (startLoad src v) in
   satellite v2 = None
   /\ hasClass loadingOverlayId "hidden" (dom v2) = true
   /\ exists es,
        trace v2 = trace v ++ es
        /\ In (Alert loadAlert) es
        /\ forall u, ~ In (SceneAdd u) es)
  /\ ((exists error, JSON_parse text = Throw error) ->
      let v' := settingsFileRead numberToString toFixed parseFloat floorNumber
                  controlValue JSON_parse text v in
      v' = emits [ConsoleError "Error loading settings:"; Alert settingsAlert] v
      /\ trace v' = trace v ++ [ConsoleError "Error loading settings:";
                                Alert settingsAlert]
      /\ satellite v' = satellite v /\ partData v' = partData v
      /\ lamps v' = lamps v /\ back v' = back v /\ dom v' = dom v
      /\ sel v' = sel v).
Proof.
  split; [apply failed_load|].
  intros [error Hparse] v'. subst v'. unfold settingsFileRead.
  rewrite Hparse. split; [reflexivity|]. rewrite emits_eq. simpl.
  repeat split.
Qed.

(** A file that cannot be loaded, and a settings file that is no JSON
    (here [JSON.parse] is the parser that rejects every text). *)
Lemma failures_are_reported_witness :
  let v := initialViewer 0 in
  let src := FromFile "broken.glb" "blob:1" in
  satellite (loadFailed src (startLoad src v)) = None
  /\ trace (settingsFileRead (fun _ => "0") (fun _ _ => "0") (fun _ => 0%R)
              (fun _ => 0%Z) (fun _ text => text)
              (fun _ => Throw "SyntaxError") "{" v)
     = [ConsoleError "Error loading settings:"; Alert settingsAlert].
Proof.
  intros v src.
  destruct (failures_are_reported (fun _ => "0") (fun _ _ => "0")
              (fun _ => 0%R) (fun _ => 0%Z) (fun _ text => text)
              (fun _ => Throw "SyntaxError") src "{" v) as [Hload Hparse].
  split.
  - destruct Hload as [H _]; [discriminate|exact H].
  - destruct Hparse as (_ & H & _); [now exists "SyntaxError"|exact H].
Defined.

End FailureFacts.

(* ------------------------------------------------------------------ *)
(** ** Applying settings *)

Module SettingsFacts.
Import Scene State Viewer Loading SceneData Settings StateFacts PageFacts.

Local Open Scope R_scope.

(** The intensity of the ambient light, if there is one. *)
Definition ambient (v : viewer) : option R :=
  option_map intensity (ambientLight (lamps v)).

Section WithPage.
Variable numberToString : R -> string.
Variable toFixed : nat -> R -> string.
Variable parseFloat : string -> R.
Variable floorNumber : string -> Z.
Variable controlValue : string -> string -> string.
Variable JSON_parse : string -> completion (option settings).

Local Abbreviation listeners := (listeners toFixed parseFloat floorNumber).
Local Abbreviation dispatchEvent := (dispatchEvent toFixed parseFloat floorNumber).
Local Abbreviation assign := (assign numberToString toFixed parseFloat floorNumber controlValue).
Local Abbreviation whenTruthy := (whenTruthy numberToString toFixed parseFloat floorNumber controlValue).
Local Abbreviation whenDefined := (whenDefined numberToString toFixed parseFloat floorNumber controlValue).
Local Abbreviation applySettings := (applySettings numberToString toFixed parseFloat floorNumber controlValue).

Lemma ambient_setEnvironmentIntensity inScene x v :
  ambient (setEnvironmentIntensity inScene x v) = ambient v.
Proof. unfold setEnvironmentIntensity. now destruct inScene. Qed.

Lemma ambient_emits es v : ambient (emits es v) = ambient v.
Proof. now rewrite emits_eq. Qed.

(** Every listener but the one of the ambient intensity slider leaves
    the ambient intensity alone. *)
Lemma listeners_keep_ambient :
  Forall (fun l => fst (fst l) <> "ambient-intensity" ->
                   forall v, ambient (snd l v) = ambient v) listeners.
Proof.
  unfold listeners.
  repeat (constructor; [simpl; intros Hid v|]); try (now constructor);
    try congruence; unfold ambient, applyBackgroundType, applyEnvironmentType,
      slider, onAmbient, onDirectional, onFill, onPoint;
    repeat match goal with
           | |- context [if ?b then _ else _] => destruct b
           end;
    simpl; rewrite ?emits_eq; simpl;
    try reflexivity;
    try (destruct (ambientLight (lamps v)); reflexivity);
    try apply ambient_setEnvironmentIntensity.
Qed.

Lemma dispatchEvent_keeps_ambient id type v :
  id <> "ambient-intensity" ->
  ambient (dispatchEvent id type v) = ambient v.
Proof.
  intros Hid. unfold Settings.dispatchEvent.
  generalize listeners_keep_ambient. generalize listeners. intros ls Hls.
  revert v. induction Hls as [|l ls Hl _ IH]; intros v; simpl; [reflexivity|].
  rewrite IH. destruct (String.eqb (fst (fst l)) id) eqn:E; simpl;
    [|reflexivity].
  apply String.eqb_eq in E. destruct (eventType_eqb _ _); [|reflexivity].
  apply Hl. congruence.
Qed.

Lemma assign_keeps_ambient id type x v :
  id <> "ambient-intensity" -> ambient (assign id type x v) = ambient v.
Proof.
  intros Hid. unfold Settings.assign. now rewrite dispatchEvent_keeps_ambient.
Qed.

Lemma whenTruthy_keeps_ambient x id type v :
  id <> "ambient-intensity" -> ambient (whenTruthy x id type v) = ambient v.
Proof.
  intros Hid. unfold Settings.whenTruthy. destruct x; [|reflexivity].
  destruct (truthyVal _); [now apply assign_keeps_ambient|reflexivity].
Qed.

Lemma whenDefined_keeps_ambient x id type v :
  id <> "ambient-intensity" -> ambient (whenDefined x id type v) = ambient v.
Proof.
  intros Hid. unfold Settings.whenDefined. destruct x; [|reflexivity].
  now apply assign_keeps_ambient.
Qed.

Lemma panelState_keeps_ambient x id v : ambient (panelState x id v) = ambient v.
Proof.
  unfold panelState. destruct x; [|reflexivity]. now destruct (truthyVal _).
Qed.

Lemma dispatch_ambient v :
  dispatchEvent "ambient-intensity" input v
  = slider toFixed parseFloat "ambient-intensity"
      (fun value => onAmbient (setIntensity value)) v.
Proof. reflexivity. Qed.

(** The slider of the ambient intensity hands the parsed value of the
    control to the light. *)
Lemma assign_ambient x v :
  ambient (assign "ambient-intensity" input x v)
  = option_map
      (fun _ => parseFloat (controlValue "ambient-intensity"
                              (toText numberToString x)))
      (ambient v).
Proof.
  unfold Settings.assign. rewrite dispatch_ambient.
  unfold slider, ambient.
  cbv [onAmbient onDom withDom withLamps lamps ambientLight dom getValue
       setValue setText values].
  rewrite lookup_insert_eq.
  destruct v as [? ? ? ? ? ? ? [[a|] ? ? ? ? ? ?] ? ? ? ?]; reflexivity.
Qed.

Lemma applySettings_ambient st x v :
  ambientIntensity st = Some x ->
  ambient (applySettings (Some st) v)
  = option_map
      (fun _ => parseFloat (controlValue "ambient-intensity"
                              (toText numberToString x)))
      (ambient v).
Proof.
  intros Hx. unfold Settings.applySettings. cbv zeta.
  change (ambient (emit ?e ?w)) with (ambient w).
  assert (Hright : forall w,
    ambient match rightPanelCollapsed st with
            | Some _ =>
                if truthyVal (rightPanelCollapsed st)
                then onDom (fun d => addClass rightPanelToggleId "panel-collapsed"
                              (setText rightPanelToggleId "◄"
                                 (addClass rightPanelId "collapsed" d))) w
                else onDom (fun d => removeClass rightPanelToggleId "panel-collapsed"
                              (setText rightPanelToggleId "►"
                                 (removeClass rightPanelId "collapsed" d))) w
            | None => w
            end = ambient w).
  { intros w. destruct (rightPanelCollapsed st) as [y|]; [|reflexivity].
    now destruct (truthyVal (Some y)). }
  rewrite Hright, !panelState_keeps_ambient.
  assert (Hscene : forall w,
    ambient match sceneData_ st with
            | Some _ => emit (SetTimeout 500 "deserializeSceneData") w
            | None => w
            end = ambient w).
  { intros w. now destruct (sceneData_ st). }
  rewrite Hscene.
  rewrite whenDefined_keeps_ambient by congruence.
  assert (Henv : forall w,
    ambient (if truthyVal (environmentType st)
             then whenTruthy (environmentType st) "environment-type" change w
             else assign "environment-type" change (JStr "hdri") w)
    = ambient w).
  { intros w. destruct (truthyVal (environmentType st)).
    - now apply whenTruthy_keeps_ambient.
    - now apply assign_keeps_ambient. }
  rewrite Henv.
  rewrite !(whenTruthy_keeps_ambient _ _ _ _) by congruence.
  repeat first [ rewrite whenTruthy_keeps_ambient by congruence
               | rewrite whenDefined_keeps_ambient by congruence ].
  rewrite Hx. unfold Settings.whenDefined at 1. rewrite assign_ambient.
  f_equal.
  repeat first [ rewrite whenTruthy_keeps_ambient by congruence
               | rewrite whenDefined_keeps_ambient by congruence ].
  reflexivity.
Qed.

End WithPage.

End SettingsFacts.

(* ------------------------------------------------------------------ *)
(** ** The ambient light after a settings file *)

Module SettingsClaims.
Import Scene State Viewer Loading SceneData Settings SettingsFacts Samples.

Local Open Scope R_scope.

(** C5. For every settings object whose [ambientIntensity] field is 0.7,
    after [applySettings] the intensity of the ambient light reads 0.7:
    [applySettings] writes the value into the ambient intensity control
    and dispatches its input event, and the listener assigns the parsed
    value of the control to the light.  The page is taken to report as the
    value of the control a text that parses to 0.7 once 0.7 has been
    assigned to it. *)
Theorem applySettings_sets_ambient_intensity
        (numberToString : R -> string) (toFixed : nat -> R -> string)
        (parseFloat : string -> R) (floorNumber : string -> Z)
        (controlValue : string -> string -> string)
        (st : settings) (v : viewer) (l : light) :
  ambientIntensity st = Some (JNum 0.7) ->
  parseFloat (controlValue "ambient-intensity" (numberToString 0.7)) = 0.7 ->
  ambientLight (lamps v) = Some l ->
  exists l',
    ambientLight
      (lamps (applySettings numberToString toFixed parseFloat floorNumber
                controlValue (Some st) v)) = Some l'
    /\ intensity l' = 0.7.
Proof.
  intros Hfield Hpage Hlight.
  pose proof (applySettings_ambient numberToString toFixed parseFloat
                floorNumber controlValue st (JNum 0.7) v Hfield) as H.
  assert (Hv : ambient v = Some (intensity l))
    by (unfold ambient; now rewrite Hlight).
  rewrite Hv in H. cbn [option_map toText] in H. rewrite Hpage in H.
  set (res := applySettings _ _ _ _ _ _ _) in *.
  unfold ambient in H.
  destruct (ambientLight (lamps res)) as [l'|]; [|discriminate].
  exists l'. split; [reflexivity|]. cbn [option_map] in H. congruence.
Qed.

(** A settings file that sets nothing but the ambient intensity, applied
    to the viewer as the constructor leaves it; the control reports the
    text it was given. *)
Lemma applySettings_sets_ambient_intensity_witness :
  let st := SettingsOf None None None (Some (JNum 0.7)) None None None None
              None None None None None None None None None None None None
              None in
  exists l',
    ambientLight
      (lamps (applySettings (fun _ => "0.7") (fun _ _ => "0.7") parseDecimal
                (fun _ => 0%Z) (fun _ text => text) (Some st)
                (initialViewer 0))) = Some l'
    /\ intensity l' = 0.7.
Proof.
  intros st.
  apply (applySettings_sets_ambient_intensity
           (fun _ => "0.7") (fun _ _ => "0.7") parseDecimal (fun _ => 0%Z)
           (fun _ text => text) st (initialViewer 0)
           (Light 0.5 (Color Byte.x40 Byte.x40 Byte.x40) (Vec3 0 0 0))).
  - reflexivity.
  - change (IZR 0 + IZR 7 / IZR 10 = 0.7). lra.
  - reflexivity.
Defined.

End SettingsClaims.

(* ------------------------------------------------------------------ *)
(** ** Examples for the frame loop and the indicator *)

Module FrameExamples.
Import Scene State Viewer PartName Text AnimateFacts IndicatorFacts Samples.

Local Open Scope R_scope.


(** The indicator for the heat shield of the sample model, once tagged. *)
Lemma formatPartName_at_most_two_words_witness :
  let tagged := setPartInfo
                  (Some (PartInfo "HEAT_Shield-Heat_Shield_Metal_UV"
                           "Part of the Crew Module component.")) shield in
  let v' := showIndicator (fun _ p => p) (fun _ p => p)
              (fun _ _ p => ("0px", "0px", p)) tagged origin
              (initialViewer 0) in
  getText "indicator-title" (dom v') = "Crew Module"
  /\ (wordCount (getText "indicator-title" (dom v')) <= 2)%nat.
Proof.
  intros tagged v'.
  destruct formatPartName_at_most_two_words as (_ & _ & _ & _ & _ & _ & _ & _ & H).
  destruct (H (fun _ p => p) (fun _ p => p) (fun _ _ p => ("0px", "0px", p))
              tagged origin (initialViewer 0)
              (PartInfo "HEAT_Shield-Heat_Shield_Metal_UV"
                 "Part of the Crew Module component.") eq_refl) as [H1 H2].
  fold v' in H1, H2. split; [|exact H2]. rewrite H1. vm_compute. reflexivity.
Defined.

End FrameExamples.

(* ------------------------------------------------------------------ *)
(** ** What a finished load leaves behind *)

Module LoaderFacts.
Import Scene State Viewer PartName Text Loading StateFacts LoadClaims.

Local Open Scope R_scope.

(** What identifies an object for the part tagging. *)
Definition face (o : obj) : string * string * bool := (uuid o, name o, isMesh o).

(** The type a material has once converted. *)
Definition canonicalType (m : material) : materialType :=
  if isCanonical m then mat_type m else MeshStandardMaterial.

Lemma map_traverse_setRoot {A} (G : obj -> A) f t :
  (forall o, G (f o) = G o) ->
  List.map G (traverse (setRoot f t)) = List.map G (traverse t).
Proof.
  intros H. rewrite traverse_setRoot, (traverse_root t) at 1.
  simpl. rewrite H. now rewrite (traverse_root t) at 2.
Qed.

Lemma meshMaterials_onMaterials f o :
  isMesh o = true ->
  meshMaterials (onMaterials f o) = List.map f (meshMaterials o).
Proof.
  intros Hm. unfold meshMaterials, onMaterials.
  destruct (materialOf o) as [[m|ms]|] eqn:E; simpl; rewrite Hm; simpl;
    rewrite ?E; reflexivity.
Qed.

Lemma meshMaterials_onMaterials_all f o :
  meshMaterials (onMaterials f o) = List.map f (meshMaterials o).
Proof.
  unfold meshMaterials, onMaterials.
  destruct (materialOf o) as [[m|ms]|] eqn:E; simpl;
    destruct (isMesh o); simpl; rewrite ?E; reflexivity.
Qed.

Lemma face_onMaterials f o : face (onMaterials f o) = face o.
Proof. unfold onMaterials. now destruct (materialOf o) as [[m|ms]|]. Qed.

Lemma materialsOf_pack (l : list material) :
  materialsOf (match l with [m] => One m | _ => Many l end) = l.
Proof. now destruct l as [|m [|m' l]]. Qed.

Section WithLibrary.
Variable boxCenter boxSize : object3d -> vec3.
Variable newMaterial : material -> nat * string.
Variable toFixed : nat -> R -> string.
Variable numberToString : R -> string.

Local Abbreviation prepare := (prepare boxCenter newMaterial).
Local Abbreviation modelLoaded :=
  (modelLoaded boxCenter boxSize newMaterial toFixed numberToString).
Local Abbreviation convertMaterial := (convertMaterial newMaterial).

(** The writes of [processGLTFTextures] to the textures of a scene, and
    those of [convertMaterials]. *)
Definition loadedWrites (gltf : object3d) : list write :=
  flat_map (fun object => flat_map processMaterial (meshMaterials object))
    (traverse gltf).

Definition convertedWrites (object : object3d) : list write :=
  flat_map (fun child => snd (convertChild newMaterial child)) (traverse object).

Definition procNode (ws : list write) (object : obj) : obj :=
  onMaterials (onTextures ws) object.

(** A converted material, its textures as the writes leave them. *)
Definition converted (ws : list write) (m : material) : material :=
  onTextures ws (fst (convertMaterial m)).

Definition convNode (ws : list write) (child : obj) : obj :=
  onMaterials (onTextures ws) (fst (convertChild newMaterial child)).

(** The scene, its textures processed, centred and scaled. *)
Definition placed (gltf : object3d) : object3d :=
  setRoot (setScale (Vec3 40 40 40))
    (setRoot (setPosition
                (Vec3 (- vx (boxCenter (processGLTFTextures gltf)))
                      (- vy (boxCenter (processGLTFTextures gltf)))
                      (- vz (boxCenter (processGLTFTextures gltf)))))
       (traverseMap (procNode (loadedWrites gltf)) gltf)).

Lemma prepare_eq gltf :
  prepare gltf
  = traverseMap (convNode (convertedWrites (placed gltf))) (placed gltf).
Proof. reflexivity. Qed.

Lemma face_procNode ws o : face (procNode ws o) = face o.
Proof. apply face_onMaterials. Qed.

Lemma face_convertChild o : face (fst (convertChild newMaterial o)) = face o.
Proof. unfold convertChild. now destruct (isMesh o), (materialOf o). Qed.

Lemma face_convNode ws o : face (convNode ws o) = face o.
Proof. unfold convNode. now rewrite face_onMaterials, face_convertChild. Qed.

Lemma face_tagPart o : face (tagPart o) = face o.
Proof. unfold tagPart. now destruct (hasPartName o). Qed.

Lemma partInfo_onMaterials f o :
  userData_partInfo (onMaterials f o) = userData_partInfo o.
Proof. unfold onMaterials. now destruct (materialOf o) as [[m|ms]|]. Qed.

Lemma partInfo_procNode ws o :
  userData_partInfo (procNode ws o) = userData_partInfo o.
Proof. apply partInfo_onMaterials. Qed.

Lemma partInfo_convNode ws o :
  userData_partInfo (convNode ws o) = userData_partInfo o.
Proof.
  unfold convNode. rewrite partInfo_onMaterials. unfold convertChild.
  now destruct (isMesh o), (materialOf o).
Qed.

Lemma mat_type_converted ws m : mat_type (converted ws m) = canonicalType m.
Proof.
  unfold converted, Loading.convertMaterial, canonicalType.
  now destruct (isCanonical m).
Qed.

Lemma isCanonical_converted ws m : isCanonical (converted ws m) = true.
Proof.
  unfold isCanonical at 1. rewrite mat_type_converted.
  unfold canonicalType, isCanonical. now destruct (mat_type m).
Qed.

Lemma meshMaterials_procNode ws o :
  meshMaterials (procNode ws o) = List.map (onTextures ws) (meshMaterials o).
Proof. apply meshMaterials_onMaterials_all. Qed.

Lemma types_procNode ws o :
  List.map canonicalType (meshMaterials (procNode ws o))
  = List.map canonicalType (meshMaterials o).
Proof. rewrite meshMaterials_procNode, List.map_map. reflexivity. Qed.

Lemma meshMaterials_convertChild o :
  meshMaterials (fst (convertChild newMaterial o))
  = List.map (fun m => fst (convertMaterial m)) (meshMaterials o).
Proof.
  unfold convertChild, meshMaterials.
  destruct (isMesh o) eqn:E; [|now cbn [fst]; rewrite E].
  destruct (materialOf o) as [slot|] eqn:Es; cbn [fst];
    [|now rewrite E, Es].
  cbn [isMesh materialOf setMaterial]. rewrite E.
  rewrite materialsOf_pack, List.map_map. reflexivity.
Qed.

Lemma meshMaterials_convNode ws o :
  meshMaterials (convNode ws o) = List.map (converted ws) (meshMaterials o).
Proof.
  unfold convNode. rewrite meshMaterials_onMaterials_all.
  rewrite meshMaterials_convertChild, List.map_map. reflexivity.
Qed.

Lemma meshMaterials_tagPart o : meshMaterials (tagPart o) = meshMaterials o.
Proof. unfold tagPart. now destruct (hasPartName o). Qed.

(** The objects of the model on display, from those of the file. *)
Lemma traverse_tagged gltf :
  List.map face (traverse (traverseMap tagPart (prepare gltf)))
  = List.map face (traverse gltf)
  /\ List.map (fun o => List.map mat_type (meshMaterials o))
       (traverse (traverseMap tagPart (prepare gltf)))
     = List.map (fun o => List.map canonicalType (meshMaterials o))
         (traverse gltf).
Proof.
  rewrite prepare_eq, !traverse_traverseMap.
  generalize (convertedWrites (placed gltf)). intros ws. unfold placed. split.
  - rewrite !List.map_map.
    rewrite (List.map_ext (fun o => face (tagPart (convNode ws o))) face)
      by (intros o; now rewrite face_tagPart, face_convNode).
    rewrite !map_traverse_setRoot by reflexivity.
    rewrite traverse_traverseMap, List.map_map.
    apply List.map_ext. apply face_procNode.
  - rewrite !List.map_map.
    rewrite (List.map_ext
               (fun o => List.map mat_type (meshMaterials (tagPart (convNode ws o))))
               (fun o => List.map canonicalType (meshMaterials o))).
    + rewrite !map_traverse_setRoot by reflexivity.
      rewrite traverse_traverseMap, List.map_map.
      apply List.map_ext. apply types_procNode.
    + intros o. rewrite meshMaterials_tagPart, meshMaterials_convNode.
      rewrite List.map_map. apply List.map_ext. apply mat_type_converted.
Qed.

Lemma prepare_root gltf :
  position (root (prepare gltf))
  = Vec3 (- vx (boxCenter (processGLTFTextures gltf)))
         (- vy (boxCenter (processGLTFTextures gltf)))
         (- vz (boxCenter (processGLTFTextures gltf)))
  /\ scale (root (prepare gltf)) = Vec3 40 40 40.
Proof.
  rewrite prepare_eq, root_traverseMap. unfold placed. rewrite !root_setRoot.
  assert (Hon : forall f o, position (onMaterials f o) = position o
                            /\ scale (onMaterials f o) = scale o)
    by (intros f o; unfold onMaterials;
        now destruct (materialOf o) as [[m|ms]|]).
  assert (Hcc : forall o, position (fst (convertChild newMaterial o)) = position o
                          /\ scale (fst (convertChild newMaterial o)) = scale o)
    by (intros o; unfold convertChild;
        now destruct (isMesh o), (materialOf o)).
  unfold convNode.
  match goal with
  | |- context [onMaterials ?f (fst (convertChild newMaterial ?o))] =>
      destruct (Hon f (fst (convertChild newMaterial o))) as [-> ->];
      destruct (Hcc o) as [-> ->]
  end.
  split; reflexivity.
Qed.

End WithLibrary.

End LoaderFacts.

(* ------------------------------------------------------------------ *)
(** ** The model loader *)

Module LoaderClaims.
Import Scene State Viewer PartName Text Loading StateFacts LoadClaims
       LoaderFacts Samples.

Local Open Scope R_scope.

Definition partInfoOf (rawName : string) : partInfo :=
  PartInfo (formatPartName rawName)
    ("Part of the " ++ formatPartName rawName ++ " component.").

(** The tagging loop, on the faces of the objects. *)
Definition named (f : string * string * bool) : bool :=
  snd f && negb (String.eqb (snd (fst f)) "")
  && negb (chars_eqb (trim (str (snd (fst f)))) []).

Definition tagFace (pd : gmap string partInfo) (f : string * string * bool)
  : gmap string partInfo :=
  if named f then <[fst (fst f) := partInfoOf (snd (fst f))]> pd else pd.

Lemma tag_fold l : forall pd,
  fold_left
    (fun (pd : gmap string partInfo) child =>
       if hasPartName child
       then <[uuid child := defaultPartInfo child]> pd else pd) l pd
  = fold_left tagFace (List.map face l) pd.
Proof. induction l as [|o l IH]; intros pd; simpl; [reflexivity|apply IH]. Qed.

Lemma tagFace_keeps u fs : forall pd,
  (forall f, In f fs -> named f = true -> fst (fst f) <> u) ->
  fold_left tagFace fs pd !! u = pd !! u.
Proof.
  induction fs as [|f fs IH]; intros pd H; simpl; [reflexivity|].
  rewrite IH by (intros g Hg; apply H; now right).
  unfold tagFace. destruct (named f) eqn:E; [|reflexivity].
  apply lookup_insert_ne. apply H; [now left|exact E].
Qed.

Lemma tagFace_sets fs : forall pd f,
  NoDup (List.map (fun f => fst (fst f)) (List.filter named fs)) ->
  In f fs -> named f = true ->
  fold_left tagFace fs pd !! fst (fst f) = Some (partInfoOf (snd (fst f))).
Proof.
  induction fs as [|g fs IH]; intros pd f Hnd Hin Hf; [destruct Hin|].
  simpl in Hnd. simpl. destruct Hin as [->|Hin].
  - rewrite Hf in Hnd. simpl in Hnd. apply NoDup_cons in Hnd as [Hnot _].
    rewrite tagFace_keeps.
    + unfold tagFace. rewrite Hf. apply lookup_insert_eq.
    + intros h Hh Hn Heq. apply Hnot. rewrite <- Heq.
      apply list_elem_of_In. apply in_map_iff. exists h. split; [reflexivity|].
      apply filter_In. now split.
  - apply IH; [|exact Hin|exact Hf].
    destruct (named g); [|exact Hnd].
    simpl in Hnd. now apply NoDup_cons in Hnd as [_ Hnd].
Qed.

Section WithLibrary.
Variable boxCenter boxSize : object3d -> vec3.
Variable newMaterial : material -> nat * string.
Variable toFixed : nat -> R -> string.
Variable numberToString : R -> string.

Local Abbreviation prepare := (prepare boxCenter newMaterial).
Local Abbreviation modelLoaded :=
  (modelLoaded boxCenter boxSize newMaterial toFixed numberToString).

Lemma modelLoaded_partData src gltf v :
  partData (modelLoaded src gltf v)
  = fold_left tagFace (List.map face (traverse gltf)) (partData v).
Proof.
  destruct (traverse_tagged boxCenter newMaterial gltf) as [Hface _].
  rewrite traverse_traverseMap, List.map_map in Hface.
  rewrite (List.map_ext (fun o => face (tagPart o)) face) in Hface
    by apply face_tagPart.
  rewrite <- Hface, <- tag_fold.
  unfold Loading.modelLoaded.
  generalize (prepare gltf). intros model.
  unfold applySolarPanelTexture, tagParts, setEnvironmentIntensity,
    updateLoadingProgress. simpl.
  rewrite emits_eq. simpl. destruct src; reflexivity.
Qed.

End WithLibrary.

(** What the model on display shows of the part tagging. *)
Definition tagOf (o : obj) : string * option partInfo :=
  (uuid o, if hasPartName o then Some (defaultPartInfo o)
           else userData_partInfo o).

Lemma tagOf_same o o' :
  face o' = face o -> userData_partInfo o' = userData_partInfo o ->
  tagOf o' = tagOf o.
Proof.
  intros Hf Hu. unfold tagOf.
  change (hasPartName o') with (named (face o')).
  change (hasPartName o) with (named (face o)).
  unfold defaultPartInfo. rewrite Hf, Hu. now injection Hf as -> -> _.
Qed.

(** The claim as the specification states it, for a loader that was given
    the model [gltf] with bounding-box centre [center] and left [model] on
    display and [tags] as part data: the model is centred, every material
    of a mesh is of the canonical type, and every mesh with a non-empty
    name is tagged under its uuid with its formatted name. *)
Definition statedContract (center : vec3) (gltf model : object3d)
           (tags : gmap string partInfo) : Prop :=
  position (root model) = Vec3 (- vx center) (- vy center) (- vz center)
  /\ Forall (fun o => Forall (fun m => isCanonical m = true) (meshMaterials o))
       (traverse model)
  /\ forall child,
       In child (traverse gltf) -> isMesh child = true -> name child <> "" ->
       tags !! uuid child = Some (partInfoOf (name child)).

(** C3, as amended.  For every model that one of the three loading paths
    of the satellite viewer ([loadModel], [loadModelByPath],
    [loadModelFromFile]) has loaded, the model on display is centred (its
    position is the negation of the centre of its bounding box) and scaled
    by 40, every material of every mesh is of the canonical type
    (MeshStandardMaterial, except that a MeshStandardMaterial or
    MeshPhysicalMaterial keeps its type), and every mesh whose name is not
    blank carries the part record made of its formatted name, which is
    also stored in the part data under the uuid of the mesh (uuids being
    unique among the named meshes). *)
Theorem satellite_loader_contract
        (boxCenter boxSize : object3d -> vec3)
        (newMaterial : material -> nat * string)
        (toFixed : nat -> R -> string) (numberToString : R -> string)
        (src : source) (gltf : object3d) (v : viewer) :
  let v' := Loading.modelLoaded boxCenter boxSize newMaterial toFixed
              numberToString src gltf v in
  let center := boxCenter (processGLTFTextures gltf) in
  exists model,
    satellite v' = Some model
    /\ position (root model) = Vec3 (- vx center) (- vy center) (- vz center)
    /\ scale (root model) = Vec3 40 40 40
    /\ List.map (fun o => List.map mat_type (meshMaterials o)) (traverse model)
       = List.map (fun o => List.map canonicalType (meshMaterials o))
           (traverse gltf)
    /\ Forall (fun o => Forall (fun m => isCanonical m = true) (meshMaterials o))
         (traverse model)
    /\ List.map (fun o => (uuid o, userData_partInfo o)) (traverse model)
       = List.map tagOf (traverse gltf)
    /\ (NoDup (List.map uuid (List.filter hasPartName (traverse gltf))) ->
        forall child,
          In child (traverse gltf) -> hasPartName child = true ->
          partData v' !! uuid child = Some (partInfoOf (name child))).
Proof.
  intros v' center. subst v'.
  exists (traverseMap tagPart (Loading.prepare boxCenter newMaterial gltf)).
  split; [apply modelLoaded_satellite|].
  destruct (prepare_root boxCenter newMaterial gltf) as [Hpos Hscale].
  destruct (traverse_tagged boxCenter newMaterial gltf) as [Hface Htypes].
  split; [|split; [|split; [|split; [|split]]]].
  - rewrite root_traverseMap. unfold tagPart.
    destruct (hasPartName _); exact Hpos.
  - rewrite root_traverseMap. unfold tagPart.
    destruct (hasPartName _); exact Hscale.
  - exact Htypes.
  - rewrite prepare_eq, !traverse_traverseMap.
    apply List.Forall_forall. intros o Ho.
    apply in_map_iff in Ho as (o1 & <- & Ho1).
    apply in_map_iff in Ho1 as (o2 & <- & _).
    rewrite meshMaterials_tagPart, meshMaterials_convNode.
    apply List.Forall_forall. intros m Hm.
    apply in_map_iff in Hm as (m0 & <- & _).
    apply isCanonical_converted.
  - rewrite prepare_eq, !traverse_traverseMap, !List.map_map.
    generalize (convertedWrites newMaterial (placed boxCenter gltf)).
    intros ws. unfold placed.
    rewrite (List.map_ext
               (fun o => (uuid (tagPart (convNode newMaterial ws o)),
                          userData_partInfo (tagPart (convNode newMaterial ws o))))
               tagOf).
    + rewrite !map_traverse_setRoot by reflexivity.
      rewrite traverse_traverseMap, List.map_map.
      apply List.map_ext. intros o. apply tagOf_same.
      * apply face_procNode.
      * apply partInfo_procNode.
    + intros o.
      assert (Hconv : face (convNode newMaterial ws o) = face o
                      /\ userData_partInfo (convNode newMaterial ws o)
                         = userData_partInfo o)
        by (split; [apply face_convNode|apply partInfo_convNode]).
      destruct Hconv as [Hf Hu].
      assert (Hn : hasPartName (convNode newMaterial ws o) = hasPartName o)
        by (change (named (face (convNode newMaterial ws o)) = named (face o));
            now rewrite Hf).
      assert (Hd : defaultPartInfo (convNode newMaterial ws o) = defaultPartInfo o)
        by (unfold defaultPartInfo; now injection Hf as _ -> _).
      unfold tagOf, tagPart. rewrite Hn.
      destruct (hasPartName o); simpl; rewrite ?Hd, ?Hu;
        now injection Hf as -> _ _.
  - intros Hnd child Hin Hnamed.
    rewrite modelLoaded_partData.
    apply (tagFace_sets (List.map face (traverse gltf)) (partData v)
             (face child)).
    + assert (Hfilter : forall l,
                List.filter named (List.map face l)
                = List.map face (List.filter hasPartName l)).
      { induction l as [|o l IH]; simpl; [reflexivity|].
        change (named (face o)) with (hasPartName o).
        destruct (hasPartName o); simpl; now rewrite IH. }
      rewrite Hfilter, List.map_map. exact Hnd.
    + now apply in_map.
    + exact Hnamed.
Qed.

End LoaderClaims.

Module LoaderExamples.
Import Scene State Viewer PartName Text Loading StateFacts LoadClaims
       LoaderFacts LoaderClaims Samples.

Local Open Scope R_scope.

Definition fresh (m : material) : nat * string := ((100 + mat_id m)%nat, "fresh").

(** The claim as stated fails on two counts.  What the loader of the
    model viewer ([load3dModel]) leaves of the sample, whatever its clips,
    does not meet it: in a Rings project the heat shield keeps its
    MeshBasicMaterial, and in no project is a part tagged.  And the
    satellite viewer does not tag a mesh whose name is not empty but
    blank. *)
Lemma stated_loader_contract_fails :
  (forall animations,
     ~ statedContract origin orion
         (Monsters.loadedModel
            (Monsters.load3dModel_loaded Monsters.Rings orion animations)) ∅)
  /\ (forall animations,
        ~ statedContract origin orion
            (Monsters.loadedModel
               (Monsters.load3dModel_loaded Monsters.Monsters orion animations))
            ∅)
  /\ forall model,
       satellite (modelLoaded (fun _ => origin) (fun _ => unit) fresh
                    (fun _ _ => "100") (fun _ => "100") Startup other
                    (initialViewer 0)) = Some model ->
       ~ statedContract origin other model
           (partData (modelLoaded (fun _ => origin) (fun _ => unit) fresh
                        (fun _ _ => "100") (fun _ => "100") Startup other
                        (initialViewer 0))).
Proof.
  split; [|split].
  - intros animations (_ & Hcanon & _).
    apply List.Forall_forall with (x := shield) in Hcanon; [|simpl; tauto].
    apply List.Forall_forall with (x := shieldMaterial) in Hcanon;
      [discriminate|now left].
  - intros animations (_ & _ & Htag).
    specialize (Htag shield ltac:(simpl; tauto) eq_refl ltac:(discriminate)).
    rewrite lookup_empty in Htag. discriminate.
  - intros model _ (_ & _ & Htag).
    specialize (Htag blank ltac:(simpl; tauto) eq_refl ltac:(discriminate)).
    rewrite modelLoaded_partData in Htag.
    lazy in Htag. discriminate.
Qed.

(** The sample model, loaded by a path of the menu. *)
Lemma satellite_loader_contract_witness :
  let v' := modelLoaded (fun _ => origin) (fun _ => unit) fresh
              (fun _ _ => "100") (fun _ => "100") (ByPath "models/orion.gltf")
              orion (initialViewer 0) in
  partData v' !! "uuid-shield"
  = Some (PartInfo "Crew Module" "Part of the Crew Module component.")
  /\ partData v' !! "uuid-panel"
     = Some (PartInfo "Solar Arrays" "Part of the Solar Arrays component.").
Proof.
  intros v'.
  destruct (satellite_loader_contract (fun _ => origin) (fun _ => unit) fresh
              (fun _ _ => "100") (fun _ => "100") (ByPath "models/orion.gltf")
              orion (initialViewer 0))
    as (model & _ & _ & _ & _ & _ & _ & Htags).
  fold v' in Htags.
  assert (Hnd : NoDup (List.map uuid (List.filter hasPartName (traverse orion)))).
  { change (NoDup ["uuid-panel"; "uuid-shield"]).
    repeat constructor; set_solver. }
  split.
  - pose proof (Htags Hnd shield ltac:(simpl; tauto) eq_refl) as H.
    change (uuid shield) with "uuid-shield" in H. rewrite H.
    vm_compute. reflexivity.
  - pose proof (Htags Hnd panel ltac:(simpl; tauto) eq_refl) as H.
    change (uuid panel) with "uuid-panel" in H. rewrite H.
    vm_compute. reflexivity.
Defined.

End LoaderExamples.

(* ------------------------------------------------------------------ *)
(** ** Colours survive their text *)

Module HexFacts.
Import Scene Hex.

Local Open Scope Z_scope.

Lemma digitValue_hexDigit n :
  0 <= n < 16 -> digitValue (hexDigit n) = Some n.
Proof.
  intros H.
  rewrite <- (Z2Nat.id n) by lia.
  assert (Hk : (Z.to_nat n < 16)%nat) by lia.
  revert Hk. generalize (Z.to_nat n) as k. intros k Hk.
  do 16 (destruct k as [|k]; [reflexivity|]). lia.
Qed.

Lemma channel_range b : 0 <= channel b < 256.
Proof.
  unfold channel. pose proof (Byte.to_N_bounded b). lia.
Qed.

Definition hexStep (acc : option Z) (c : ascii) : option Z :=
  match acc, digitValue c with
  | Some a, Some d => Some (a * 16 + d)
  | _, _ => None
  end.

Lemma hexValue_hex2 b rest a :
  fold_left hexStep (hex2 b ++ rest) (Some a)
  = fold_left hexStep rest (Some (a * 256 + channel b)).
Proof.
  pose proof (channel_range b) as Hb.
  unfold hex2. simpl. unfold hexStep at 2 3.
  rewrite !digitValue_hexDigit
    by first [ split; [apply Z.div_pos; lia | apply Z.div_lt_upper_bound; lia]
             | apply Z.mod_pos_bound; lia ].
  f_equal. f_equal.
  pose proof (Z.div_mod (channel b) 16 ltac:(lia)). lia.
Qed.

Lemma hexValue_color c :
  hexValue (hex2 (red c) ++ hex2 (green c) ++ hex2 (blue c))
  = Some ((channel (red c) * 256 + channel (green c)) * 256 + channel (blue c)).
Proof.
  unfold hexValue. change (fun acc c0 => _) with hexStep.
  rewrite hexValue_hex2, hexValue_hex2.
  rewrite <- (app_nil_r (hex2 (blue c))), hexValue_hex2. reflexivity.
Qed.

Lemma byteOf_channel b : byteOf (channel b) = b.
Proof.
  unfold byteOf, channel. rewrite N2Z.id, Byte.of_to_N. reflexivity.
Qed.

Lemma colorOfHex_channels r g b :
  colorOfHex ((channel r * 256 + channel g) * 256 + channel b) = Color r g b.
Proof.
  pose proof (channel_range r) as Hr. pose proof (channel_range g) as Hg.
  pose proof (channel_range b) as Hb.
  unfold colorOfHex.
  change 255 with (Z.ones 8). rewrite !Z.land_ones by lia.
  rewrite !Z.shiftr_div_pow2 by lia.
  change (2 ^ 16) with 65536. change (2 ^ 8) with 256.
  set (h := (channel r * 256 + channel g) * 256 + channel b).
  assert (H1 : (h / 65536) mod 256 = channel r)
    by (subst h; Z.div_mod_to_equations; lia).
  assert (H2 : (h / 256) mod 256 = channel g)
    by (subst h; Z.div_mod_to_equations; lia).
  assert (H3 : h mod 256 = channel b)
    by (subst h; Z.div_mod_to_equations; lia).
  rewrite H1, H2, H3, !byteOf_channel. reflexivity.
Qed.

(** Six hexadecimal digits are read exactly. *)
Lemma toDouble_channels r g b :
  toDouble ((channel r * 256 + channel g) * 256 + channel b)
  = Some ((channel r * 256 + channel g) * 256 + channel b).
Proof.
  pose proof (channel_range r) as Hr. pose proof (channel_range g) as Hg.
  pose proof (channel_range b) as Hb.
  unfold toDouble.
  destruct (Z.ltb_spec ((channel r * 256 + channel g) * 256 + channel b)
              (2 ^ 53)) as [_|H]; [reflexivity|].
  exfalso. change (2 ^ 53) with 9007199254740992 in H. lia.
Qed.

(** [color.setHex(('#' + color.getHexString()).replace('#', '0x'))] gives
    the colour back. *)
Lemma setHex_getHexString floorNumber c :
  setHexOf floorNumber ("#" ++ getHexString c) = c.
Proof.
  unfold setHexOf, getHexString. simpl. unfold setHex.
  change [hexDigit (channel (red c) / 16); hexDigit (channel (red c) mod 16);
          hexDigit (channel (green c) / 16); hexDigit (channel (green c) mod 16);
          hexDigit (channel (blue c) / 16); hexDigit (channel (blue c) mod 16)]
    with (hex2 (red c) ++ hex2 (green c) ++ hex2 (blue c)).
  cbn [Ascii.eqb Bool.eqb andb orb].
  rewrite hexValue_color, toDouble_channels. unfold from_option, Datatypes.id.
  rewrite colorOfHex_channels. now destruct c.
Qed.

End HexFacts.

(* ------------------------------------------------------------------ *)
(** ** Writing to one object of the traversal *)

Module TraverseFacts.
Import Scene StateFacts.

Lemma size_traverse : forall t, size t = length (traverse t).
Proof.
  fix IH 1. intros [o cs]. simpl. f_equal.
  induction cs as [|c cs IHcs]; simpl; [reflexivity|].
  rewrite length_app, <- IH, IHcs. reflexivity.
Qed.

(** [updateNth] is a write at one place of the traversal. *)
Lemma traverse_updateNth f : forall t i,
  traverse (updateNth f t i) = alter f i (traverse t).
Proof.
  fix IH 1. intros [o cs] [|j]; [reflexivity|].
  simpl. f_equal. revert j.
  induction cs as [|c cs IHcs]; intros j; [reflexivity|].
  change (flat_map traverse (c :: cs))
    with (traverse c ++ flat_map traverse cs).
  etransitivity; [|symmetry; apply (alter_app f _ _ j)].
  rewrite <- size_traverse.
  destruct (j <? size c)%nat eqn:E.
  - apply Nat.ltb_lt in E. rewrite decide_True by exact E.
    cbn [flat_map]. now rewrite IH.
  - apply Nat.ltb_ge in E. rewrite decide_False by lia.
    cbn [flat_map]. f_equal. apply IHcs.
Qed.

End TraverseFacts.

(* ------------------------------------------------------------------ *)
(** ** Saving and restoring the scene data *)

Module SceneDataFacts.
Import Scene State Hex SceneData Loading StateFacts HexFacts TraverseFacts.

Local Open Scope R_scope.

(** What the claim observes of a material and of a mesh. *)
Definition matView (m : material) :=
  (mat_color m, mat_roughness m, mat_metalness m, mat_emissive m,
   mat_emissiveIntensity m, mat_opacity m).

Definition meshView (o : obj) :=
  match isMesh o, materialOf o with
  | true, Some slot =>
      Some (position o, rotation o, scale o, visible o,
            List.map matView (materialsOf slot))
  | _, _ => None
  end.

Definition isSome {A} (x : option A) : bool :=
  match x with Some _ => true | None => false end.

(** What has to be the same when the data is read back: the objects and
    their uuids, the number of materials of each mesh, and which of the
    optional fields of a material are there. *)
Definition matShape (m : material) :=
  (isSome (mat_color m), isSome (mat_roughness m), isSome (mat_metalness m),
   isSome (mat_emissive m), isSome (mat_emissiveIntensity m),
   isSome (mat_opacity m)).

Definition objShape (o : obj) :=
  (isMesh o, uuid o,
   option_map (fun slot => List.map matShape (materialsOf slot)) (materialOf o)).

Definition colored (m : material) : Prop := mat_color m <> None.

Definition hexText (c : color) : string := ("#" ++ getHexString c)%string.

(** The data saved for a material, for an object. *)
Definition savedMaterial (index : nat) (m : material) : materialData :=
  MaterialData index (mat_name m) (mat_uuid m)
    (option_map hexText (mat_color m))
    (mat_roughness m) (mat_metalness m)
    (option_map hexText (mat_emissive m))
    (mat_emissiveIntensity m) (mat_opacity m) (mat_transparent m)
    (Some (serializeTextures m)).

Fixpoint savedMaterials (index : nat) (ms : list material) : list materialData :=
  match ms with
  | [] => []
  | m :: rest => savedMaterial index m :: savedMaterials (S index) rest
  end.

Definition savedObject (o : obj) (slot : materialSlot) : objectData :=
  ObjectData (uuid o) (name o) (Some (position o)) (Some (rotation o))
    (Some (scale o)) (Some (visible o)) (savedMaterials 0 (materialsOf slot)).

Definition saved (o : obj) : list objectData :=
  match isMesh o, materialOf o with
  | true, Some slot => [savedObject o slot]
  | _, _ => []
  end.

Lemma serializeMaterial_ok index m :
  colored m -> serializeMaterial index m = Normal (savedMaterial index m).
Proof.
  unfold colored, serializeMaterial, savedMaterial.
  destruct (mat_color m); [reflexivity|congruence].
Qed.

Lemma collect_ok ms : forall index,
  Forall colored ms ->
  collect serializeMaterial index ms = Normal (savedMaterials index ms).
Proof.
  induction ms as [|m ms IH]; intros index H; simpl; [reflexivity|].
  inversion H as [|? ? Hm Hms]; subst.
  now rewrite serializeMaterial_ok, IH.
Qed.

Lemma serializeObjects_ok l :
  Forall (fun o => Forall colored (meshMaterials o)) l ->
  serializeObjects l = Normal (flat_map saved l).
Proof.
  induction l as [|o l IH]; intros H; simpl; [reflexivity|].
  inversion H as [|? ? Ho Hl]; subst. rewrite IH by exact Hl.
  unfold serializeObject, saved, meshMaterials in *.
  destruct (isMesh o); [|reflexivity].
  destruct (materialOf o) as [slot|]; [|reflexivity].
  now rewrite collect_ok.
Qed.

Lemma orElse_shape {A} (savedValue current : option A) :
  isSome current = isSome savedValue -> orElse savedValue current = savedValue.
Proof. now destruct savedValue, current. Qed.

Section Restore.
Variable floorNumber : string -> Z.

Local Abbreviation restoreMaterial := (restoreMaterial floorNumber).
Local Abbreviation restoreMaterials := (restoreMaterials floorNumber).
Local Abbreviation restoreObject := (restoreObject floorNumber).

(** Restoring a material from its own data gives back what was saved. *)
Lemma restoreMaterial_saved index ms mt :
  matShape mt = matShape ms -> colored ms ->
  exists m' es,
    restoreMaterial (savedMaterial index ms) mt = (m', es, true)
    /\ matView m' = matView ms.
Proof.
  unfold matShape, colored. intros Hshape Hcol.
  injection Hshape as Hc Hr Hm He Hi Ho.
  unfold SceneData.restoreMaterial, savedMaterial, matView. cbn [md_color md_emissive
    md_roughness md_metalness md_emissiveIntensity md_opacity md_transparent
    md_textures].
  destruct (mat_color ms) as [c|] eqn:Ec; [|congruence].
  destruct (mat_color mt) as [c'|] eqn:Ec'; [|discriminate].
  cbn [option_map truthy nonEmpty hexText]. simpl String.eqb.
  cbn [mat_color mat_emissive withColors withSurface].
  destruct (mat_emissive ms) as [e|] eqn:Ee;
    destruct (mat_emissive mt) as [e'|] eqn:Ee'; try discriminate;
    cbn [option_map truthy nonEmpty hexText]; simpl String.eqb;
    cbn [orElse option_map];
    eexists; eexists; (split; [reflexivity|]);
    cbn [mat_color mat_roughness mat_metalness mat_emissive
         mat_emissiveIntensity mat_opacity withColors withSurface withGlow];
    fold (hexText c); unfold hexText; rewrite ?setHex_getHexString;
    rewrite !orElse_shape by assumption; reflexivity.
Qed.

Lemma alterNth_at {A B} (f : A -> A * list B * ran) pre a rest a' es ok :
  f a = (a', es, ok) ->
  alterNth f (length pre) (pre ++ a :: rest) = (pre ++ a' :: rest, es, ok).
Proof.
  intros Hf. induction pre as [|p pre IH]; simpl.
  - now rewrite Hf.
  - now rewrite IH.
Qed.

Lemma setMaterial_twice x y o : setMaterial x (setMaterial y o) = setMaterial x o.
Proof. reflexivity. Qed.

(** The loop over the saved materials, for an array of materials. *)
Lemma restoreMaterials_many saved_ : forall pre current o,
  materialOf o = Some (Many (pre ++ current)) ->
  Forall2 (fun ms mt => matShape mt = matShape ms /\ colored ms) saved_ current ->
  exists restored es,
    restoreMaterials (savedMaterials (length pre) saved_) o
    = (setMaterial (Some (Many (pre ++ restored))) o, es, true)
    /\ List.map matView restored = List.map matView saved_.
Proof.
  induction saved_ as [|ms saved_ IH]; intros pre current o Ho H.
  - inversion H; subst. exists [], []. split; [|reflexivity].
    simpl. destruct o; simpl in *. now rewrite Ho.
  - inversion H as [|? mt ? current' [Hshape Hcol] Hrest]; subst.
    destruct (restoreMaterial_saved (length pre) ms mt Hshape Hcol)
      as (m' & es & Hm & Hview).
    cbn [savedMaterials SceneData.restoreMaterials]. rewrite Ho.
    cbn [onMaterialAt md_index savedMaterial].
    rewrite (alterNth_at _ pre mt current' m' es true) by exact Hm.
    destruct (IH (pre ++ [m']) current'
                (setMaterial (Some (Many (pre ++ m' :: current'))) o))
      as (restored & es' & Hrec & Hviews).
    + simpl. now rewrite <- app_assoc.
    + exact Hrest.
    + rewrite length_app, Nat.add_1_r in Hrec. rewrite Hrec.
      exists (m' :: restored), (es ++ es'). split.
      * rewrite setMaterial_twice, <- app_assoc. reflexivity.
      * simpl. now rewrite Hview, Hviews.
Qed.

(** Restoring an object from the data of an object of the same shape. *)
Lemma restoreObject_saved so slot to :
  isMesh so = true -> materialOf so = Some slot ->
  objShape to = objShape so ->
  Forall colored (materialsOf slot) ->
  exists o' es,
    restoreObject (savedObject so slot) to = (o', es, true)
    /\ meshView o' = meshView so
    /\ uuid o' = uuid to /\ isMesh o' = isMesh to.
Proof.
  intros Hmesh Hslot Hshape Hcol.
  unfold objShape in Hshape. injection Hshape as Hm Hu Hmats.
  rewrite Hslot in Hmats. simpl in Hmats.
  destruct (materialOf to) as [slot'|] eqn:Hslot'; [|discriminate].
  simpl in Hmats. injection Hmats as Hmats.
  assert (Hpairs : Forall2 (fun ms mt => matShape mt = matShape ms /\ colored ms)
                     (materialsOf slot) (materialsOf slot')).
  { revert Hmats Hcol. generalize (materialsOf slot) (materialsOf slot').
    induction l as [|a l IH]; intros [|b l'] Heq Hc; try discriminate;
      constructor.
    - inversion Hc; subst. simpl in Heq.
      assert (matShape b = matShape a) by congruence. now split.
    - inversion Hc; subst. simpl in Heq.
      assert (List.map matShape l' = List.map matShape l) by congruence.
      now apply IH. }
  unfold SceneData.restoreObject, savedObject.
  cbn [od_position od_rotation od_scale od_visible od_materials].
  rewrite Hslot'.
  set (t1 := setVisible _ _).
  assert (Ht1 : materialOf t1 = Some slot') by (subst t1; exact Hslot').
  destruct slot' as [mt|mts].
  - (* a single material *)
    simpl in Hpairs. inversion Hpairs as [|ms ? rest ? [Hs Hc] Hnil Hl]; subst.
    inversion Hnil; subst.
    destruct (restoreMaterial_saved 0 ms mt Hs Hc) as (m' & es & Hr & Hv).
    exists (setMaterial (Some (One m')) t1), (es ++ []).
    cbn [savedMaterials SceneData.restoreMaterials].
    rewrite Ht1. cbn [onMaterialAt md_index savedMaterial]. rewrite Hr.
    split; [reflexivity|].
    subst t1. unfold meshView. simpl. rewrite Hm, Hmesh, Hslot. simpl.
    rewrite <- Hl. simpl. rewrite Hv. repeat split; reflexivity.
  - (* an array of materials *)
    destruct (restoreMaterials_many (materialsOf slot) [] mts t1 Ht1 Hpairs)
      as (restored & es & Hr & Hv).
    exists (setMaterial (Some (Many ([] ++ restored))) t1), es.
    split; [exact Hr|].
    subst t1. unfold meshView. simpl. rewrite Hm, Hmesh, Hslot. simpl.
    rewrite Hv. repeat split; reflexivity.
Qed.

End Restore.

Section Run.
Variable floorNumber : string -> Z.

Local Abbreviation restoreObject := (restoreObject floorNumber).
Local Abbreviation restoreAll := (restoreAll floorNumber).

Definition node (r : obj * list event * ran) : obj := fst (fst r).

(** The loop over the saved objects, on the traversal of the model. *)
Definition stepL (om : gmap string nat) (od : objectData) (l : list obj)
  : list obj * ran :=
  match om !! od_uuid od with
  | Some i =>
      match l !! i with
      | Some o =>
          let '(o', _, ok) := restoreObject od o in
          (alter (fun _ => o') i l, ok)
      | None => (l, true)
      end
  | None => (l, true)
  end.

Fixpoint runL (om : gmap string nat) (ods : list objectData) (l : list obj)
  : list obj * ran :=
  match ods with
  | [] => (l, true)
  | od :: rest =>
      let (l', ok) := stepL om od l in
      if ok then runL om rest l' else (l', false)
  end.

Lemma restoreAll_traverse om ods : forall v t,
  satellite v = Some t ->
  exists t',
    satellite (fst (restoreAll om ods v)) = Some t'
    /\ runL om ods (traverse t) = (traverse t', snd (restoreAll om ods v)).
Proof.
  induction ods as [|od ods IH]; intros v t Hs; simpl.
  - now exists t.
  - unfold restoreOne, stepL. rewrite Hs.
    destruct (om !! od_uuid od) as [i|]; [|now apply IH].
    destruct (traverse t !! i) as [o|]; [|now apply IH].
    destruct (restoreObject od o) as [[o' es] ok].
    destruct ok.
    + destruct (IH (withSatellite (Some (updateNth (fun _ => o') t i))
                      (emits es v))
                   (updateNth (fun _ => o') t i) eq_refl) as (t' & H1 & H2).
      exists t'. split; [exact H1|].
      now rewrite <- traverse_updateNth.
    + exists (updateNth (fun _ => o') t i). split; [reflexivity|].
      simpl. now rewrite traverse_updateNth.
Qed.

Lemma runL_spec om : forall ods l,
  NoDup (List.map od_uuid ods) ->
  (forall u j, om !! u = Some j -> exists o, l !! j = Some o /\ uuid o = u) ->
  (forall od j o,
      In od ods -> om !! od_uuid od = Some j -> l !! j = Some o ->
      exists o' es, restoreObject od o = (o', es, true) /\ uuid o' = uuid o) ->
  exists l',
    runL om ods l = (l', true)
    /\ forall j o,
         l !! j = Some o ->
         (forall od, In od ods -> om !! od_uuid od = Some j ->
                     l' !! j = Some (node (restoreObject od o)))
         /\ ((forall od, In od ods -> om !! od_uuid od <> Some j) ->
             l' !! j = Some o).
Proof.
  induction ods as [|od ods IH]; intros l Hnd Hsound Hok.
  - exists l. split; [reflexivity|]. intros j o Hj. split; [intros od []|auto].
  - simpl in Hnd. apply NoDup_cons in Hnd as [Hfresh Hnd].
    cbn [runL]. unfold stepL.
    destruct (om !! od_uuid od) as [i|] eqn:Hi.
    + destruct (Hsound _ _ Hi) as (oi & Hoi & Hui).
      destruct (Hok od i oi (or_introl eq_refl) Hi Hoi) as (o' & es & Hr & Hu').
      rewrite Hoi, Hr.
      assert (Hother : forall od', In od' ods -> om !! od_uuid od' <> Some i).
      { intros od' Hin Ht. destruct (Hsound _ _ Ht) as (o2 & Ho2 & Hu2).
        rewrite Hoi in Ho2. injection Ho2 as <-.
        apply Hfresh. apply list_elem_of_In. apply in_map_iff.
        exists od'. split; [congruence|exact Hin]. }
      destruct (IH (alter (fun _ => o') i l) Hnd) as (l' & Hrun & Hl').
      * intros u j Hj. destruct (decide (j = i)) as [->|Hne].
        -- exists o'. rewrite list_lookup_alter_eq, Hoi. split; [reflexivity|].
           destruct (Hsound _ _ Hj) as (o2 & Ho2 & Hu2).
           rewrite Hoi in Ho2. injection Ho2 as <-. congruence.
        -- rewrite list_lookup_alter_ne by congruence. now apply Hsound.
      * intros od' j o Hin Hj Ho.
        destruct (decide (j = i)) as [->|Hne];
          [now apply Hother in Hj|].
        rewrite list_lookup_alter_ne in Ho by congruence.
        apply (Hok od' j o); [now right|exact Hj|exact Ho].
      * exists l'. split; [exact Hrun|].
        intros j o Hj. destruct (decide (j = i)) as [->|Hne].
        -- rewrite Hoi in Hj. injection Hj as <-.
           destruct (Hl' i o') as [_ Hkeep];
             [now rewrite list_lookup_alter_eq, Hoi|].
           split.
           ++ intros od' [<-|Hin] Ht; [|now apply Hother in Ht].
              rewrite (Hkeep Hother). unfold node. now rewrite Hr.
           ++ intros Hnone. exfalso. apply (Hnone od); [now left|exact Hi].
        -- destruct (Hl' j o) as [Hset Hkeep];
             [now rewrite list_lookup_alter_ne by congruence|].
           split.
           ++ intros od' [<-|Hin] Ht; [congruence|]. now apply Hset.
           ++ intros Hnone. apply Hkeep. intros od' Hin. apply Hnone. now right.
    + destruct (IH l Hnd Hsound) as (l' & Hrun & Hl').
      * intros od' j o Hin. apply Hok. now right.
      * exists l'. split; [exact Hrun|].
        intros j o Hj. destruct (Hl' j o Hj) as [Hset Hkeep]. split.
        -- intros od' [<-|Hin] Ht; [congruence|]. now apply Hset.
        -- intros Hnone. apply Hkeep. intros od' Hin. apply Hnone. now right.
Qed.

End Run.

End SceneDataFacts.

(* ------------------------------------------------------------------ *)
(** ** The round trip of the scene data *)

Module RoundTrip.
Import Scene State Hex SceneData Loading StateFacts HexFacts TraverseFacts
       SceneDataFacts.

Local Open Scope R_scope.

Lemma objectMapFrom_sound l : forall i m u j,
  objectMapFrom i l m !! u = Some j ->
  (exists k o, l !! k = Some o /\ j = (i + k)%nat /\ uuid o = u
               /\ isMesh o = true)
  \/ m !! u = Some j.
Proof.
  induction l as [|a l IH]; intros i m u j H; simpl in H; [now right|].
  apply IH in H as [(k & o & Hk & -> & Hu & Hm)|H].
  - left. exists (S k), o. repeat split; try assumption. lia.
  - destruct (isMesh a) eqn:Ea; [|now right].
    destruct (decide (uuid a = u)) as [<-|Hne].
    + rewrite lookup_insert_eq in H. injection H as <-.
      left. exists 0%nat, a. repeat split; try assumption. lia.
    + rewrite lookup_insert_ne in H by exact Hne. now right.
Qed.

Lemma objectMapFrom_keep l : forall i m u,
  (forall k o, l !! k = Some o -> isMesh o = true -> uuid o <> u) ->
  objectMapFrom i l m !! u = m !! u.
Proof.
  induction l as [|a l IH]; intros i m u H; simpl; [reflexivity|].
  rewrite IH by (intros k o Hk; apply (H (S k) o Hk)).
  destruct (isMesh a) eqn:Ea; [|reflexivity].
  apply lookup_insert_ne. now apply (H 0%nat a).
Qed.

Lemma objectMapFrom_complete l : forall i m k o,
  l !! k = Some o -> isMesh o = true ->
  (forall k' o', l !! k' = Some o' -> isMesh o' = true ->
                 uuid o' = uuid o -> k' = k) ->
  objectMapFrom i l m !! uuid o = Some (i + k)%nat.
Proof.
  induction l as [|a l IH]; intros i m k o Hk Hm Huniq; [discriminate|].
  destruct k as [|k]; simpl in Hk.
  - injection Hk as ->. simpl. rewrite Hm.
    rewrite objectMapFrom_keep.
    + rewrite lookup_insert_eq. f_equal. lia.
    + intros k' o' Hk' Hm' Heq.
      specialize (Huniq (S k') o' Hk' Hm' Heq). discriminate.
  - simpl. rewrite (IH (S i) _ k o Hk Hm).
    + f_equal. lia.
    + intros k' o' Hk' Hm' Heq.
      specialize (Huniq (S k') o' Hk' Hm' Heq). now injection Huniq.
Qed.

(** Unique uuids among the meshes, place by place. *)
Lemma mesh_uuid_unique (l : list obj) :
  NoDup (List.map uuid (List.filter isMesh l)) ->
  forall k k' o o',
    l !! k = Some o -> l !! k' = Some o' ->
    isMesh o = true -> isMesh o' = true -> uuid o' = uuid o -> k' = k.
Proof.
  induction l as [|a l IH]; intros Hnd k k' o o' Hk Hk' Hm Hm' Heq;
    [discriminate|].
  assert (Hin : forall j x, l !! j = Some x -> isMesh x = true ->
                            uuid x ∈ List.map uuid (List.filter isMesh l)).
  { intros j x Hj Hx. apply list_elem_of_In, in_map, filter_In.
    split; [|exact Hx]. apply list_elem_of_In. eapply list_elem_of_lookup_2.
    exact Hj. }
  destruct k as [|k], k' as [|k']; simpl in Hk, Hk'.
  - reflexivity.
  - injection Hk as ->. simpl in Hnd. rewrite Hm in Hnd. simpl in Hnd.
    apply NoDup_cons in Hnd as [Hnot _]. exfalso. apply Hnot.
    rewrite <- Heq. now apply (Hin k' o').
  - injection Hk' as ->. simpl in Hnd. rewrite Hm' in Hnd. simpl in Hnd.
    apply NoDup_cons in Hnd as [Hnot _]. exfalso. apply Hnot.
    rewrite Heq. now apply (Hin k o).
  - f_equal. apply (IH ltac:(simpl in Hnd; destruct (isMesh a);
                             [now apply NoDup_cons in Hnd as [_ ?]|exact Hnd])
                       k k' o o'); assumption.
Qed.

Lemma saved_lookup l od :
  In od (flat_map saved l) ->
  exists k so slot,
    l !! k = Some so /\ isMesh so = true /\ materialOf so = Some slot
    /\ od = savedObject so slot.
Proof.
  intros H. apply in_flat_map in H as (so & Hin & Hod).
  apply list_elem_of_In, list_elem_of_lookup_1 in Hin as [k Hk].
  unfold saved in Hod. destruct (isMesh so) eqn:Em; [|destruct Hod].
  destruct (materialOf so) as [slot|] eqn:Es; [|destruct Hod].
  destruct Hod as [<-|[]]. now exists k, so, slot.
Qed.

Lemma saved_uuids l :
  NoDup (List.map uuid (List.filter isMesh l)) ->
  NoDup (List.map od_uuid (flat_map saved l)).
Proof.
  induction l as [|a l IH]; intros H; simpl; [constructor|].
  assert (Hl : NoDup (List.map uuid (List.filter isMesh l))).
  { simpl in H. destruct (isMesh a); [|exact H].
    now apply NoDup_cons in H as [_ ?]. }
  rewrite List.map_app. unfold saved at 1.
  destruct (isMesh a) eqn:Em; [|now apply IH].
  destruct (materialOf a) as [slot|]; [|now apply IH].
  simpl. apply NoDup_cons. split; [|now apply IH].
  simpl in H. rewrite Em in H. simpl in H. apply NoDup_cons in H as [Hnot _].
  intros Hin. apply Hnot. apply list_elem_of_In in Hin.
  apply in_map_iff in Hin as (od & Hu & Hod).
  apply saved_lookup in Hod as (k & so & slot' & Hk & Hm & _ & ->).
  simpl in Hu. rewrite <- Hu. apply list_elem_of_In, in_map, filter_In.
  split; [|exact Hm]. apply list_elem_of_In. eapply list_elem_of_lookup_2.
  exact Hk.
Qed.

Lemma runL_length floorNumber om ods : forall l,
  length (fst (runL floorNumber om ods l)) = length l.
Proof.
  induction ods as [|od ods IH]; intros l; simpl; [reflexivity|].
  unfold stepL. destruct (om !! od_uuid od) as [i|]; [|apply IH].
  destruct (l !! i) as [o|]; [|apply IH].
  destruct (restoreObject floorNumber od o) as [[o' es] ok].
  destruct ok; [rewrite IH|simpl]; apply length_alter.
Qed.

Lemma lookup_map {A B} (f : A -> B) (l : list A) k :
  List.map f l !! k = f <$> (l !! k).
Proof.
  revert k. induction l as [|a l IH]; intros [|k]; simpl; auto.
Qed.

(** C1. The scene data round trip.  Take a loaded model whose materials
    all have a colour (as every model has once its materials are
    converted) and whose meshes have distinct uuids, and the data that
    [serializeSceneData] saves of it.  Applied to the same model, left as
    it was or edited in the meantime in the values of its fields only,
    [deserializeSceneData] returns and leaves every mesh that has a
    material in its saved state: position, rotation, scale and visibility
    are those of the time of the save, and so are the colour, roughness,
    metalness, emissive colour, emissive intensity and opacity of each of
    its materials.  The other objects are not written to. *)
Theorem sceneData_round_trip
        (floorNumber : string -> Z) (v0 v : viewer) (s t : object3d) :
  satellite v0 = Some s ->
  satellite v = Some t ->
  List.map objShape (traverse t) = List.map objShape (traverse s) ->
  NoDup (List.map uuid (List.filter isMesh (traverse s))) ->
  Forall (fun o => Forall colored (meshMaterials o)) (traverse s) ->
  exists sd v' t',
    serializeSceneData v0 = Normal (Some sd)
    /\ deserializeSceneData floorNumber (Some sd) v = (v', true)
    /\ satellite v' = Some t'
    /\ List.map meshView (traverse t') = List.map meshView (traverse s)
    /\ (forall k to,
          traverse t !! k = Some to -> meshView to = None ->
          traverse t' !! k = Some to).
Proof.
  intros Hs Ht Hshape Hnd Hcol.
  assert (Hpair : forall k so, traverse s !! k = Some so ->
            exists to, traverse t !! k = Some to /\ objShape to = objShape so).
  { intros k so Hk.
    assert (H : List.map objShape (traverse t) !! k
                = List.map objShape (traverse s) !! k) by now rewrite Hshape.
    rewrite !lookup_map, Hk in H.
    destruct (traverse t !! k) as [to|]; [|discriminate].
    exists to. split; [reflexivity|]. simpl in H. congruence. }
  assert (Hpair' : forall k to, traverse t !! k = Some to ->
            exists so, traverse s !! k = Some so /\ objShape to = objShape so).
  { intros k to Hk.
    assert (H : List.map objShape (traverse t) !! k
                = List.map objShape (traverse s) !! k) by now rewrite Hshape.
    rewrite !lookup_map, Hk in H.
    destruct (traverse s !! k) as [so|]; [|discriminate].
    exists so. split; [reflexivity|]. simpl in H. congruence. }
  assert (Huniq : forall k k' o o',
            traverse t !! k = Some o -> traverse t !! k' = Some o' ->
            isMesh o = true -> isMesh o' = true -> uuid o' = uuid o -> k' = k).
  { intros k k' o o' Hk Hk' Hm Hm' Heq.
    destruct (Hpair' k o Hk) as (so & Hso & Hsh).
    destruct (Hpair' k' o' Hk') as (so' & Hso' & Hsh').
    unfold objShape in Hsh, Hsh'.
    apply (mesh_uuid_unique (traverse s) Hnd k k' so so' Hso Hso');
      congruence. }
  set (om := objectMap t).
  assert (Hsound : forall u j, om !! u = Some j ->
            exists o, traverse t !! j = Some o /\ uuid o = u).
  { intros u j H. apply objectMapFrom_sound in H as [(k & o & Hk & -> & Hu & _)|H].
    - now exists o.
    - rewrite lookup_empty in H. discriminate. }
  assert (Hcomplete : forall k o, traverse t !! k = Some o -> isMesh o = true ->
            om !! uuid o = Some k).
  { intros k o Hk Hm. unfold om, objectMap.
    rewrite (objectMapFrom_complete (traverse t) 0 ∅ k o Hk Hm); [reflexivity|].
    intros k' o' Hk' Hm' Heq. now apply (Huniq k k' o o'). }
  set (ods := flat_map saved (traverse s)).
  (* every saved object finds the object at its own place *)
  assert (Htarget : forall od, In od ods ->
            exists k so slot to,
              traverse s !! k = Some so /\ isMesh so = true
              /\ materialOf so = Some slot /\ od = savedObject so slot
              /\ traverse t !! k = Some to /\ objShape to = objShape so
              /\ om !! od_uuid od = Some k).
  { intros od Hin. apply saved_lookup in Hin as (k & so & slot & Hk & Hm & Hsl & ->).
    destruct (Hpair k so Hk) as (to & Hto & Hsh).
    exists k, so, slot, to. repeat split; try assumption.
    simpl. unfold objShape in Hsh.
    replace (uuid so) with (uuid to) by congruence.
    apply Hcomplete; [exact Hto|congruence]. }
  destruct (runL_spec floorNumber om ods (traverse t)) as (l' & Hrun & Hl').
  { now apply saved_uuids. }
  { exact Hsound. }
  { intros od j o Hin Hj Ho.
    destruct (Htarget od Hin)
      as (k & so & slot & to & Hk & Hm & Hsl & -> & Hto & Hsh & Hom).
    rewrite Hom in Hj. injection Hj as <-. rewrite Hto in Ho. injection Ho as <-.
    destruct (restoreObject_saved floorNumber so slot to Hm Hsl Hsh)
      as (o' & es & Hr & _ & Hu & _).
    - apply List.Forall_forall with (x := so) in Hcol.
      + unfold meshMaterials in Hcol. now rewrite Hm, Hsl in Hcol.
      + apply list_elem_of_In. eapply list_elem_of_lookup_2. exact Hk.
    - now exists o', es. }
  (* the viewer *)
  exists (SceneDataOf (Some ods) (Some (map_to_list (partData v0)))).
  unfold serializeSceneData, deserializeSceneData. rewrite Hs, Ht.
  rewrite serializeObjects_ok by exact Hcol. fold ods.
  cbn [sd_partData sd_objects].
  set (v1 := withPartData _ v).
  destruct (restoreAll_traverse floorNumber om ods v1 t Ht) as (t' & Hsat & Hlist).
  fold om.
  destruct (restoreAll floorNumber om ods v1) as [v2 ok] eqn:Hres.
  simpl in Hsat, Hlist. rewrite Hrun in Hlist. injection Hlist as Hl Hok.
  subst ok. eexists. exists t'. split; [reflexivity|].
  split; [reflexivity|]. split; [exact Hsat|].
  split; cycle 1.
  { (* what is no mesh with a material is not written to *)
    intros k to Hto Hnone. rewrite <- Hl.
    destruct (Hl' k to Hto) as [_ Hkeep]. apply Hkeep.
    intros od Hin Hod.
    destruct (Htarget od Hin)
      as (k2 & so2 & slot2 & to2 & Hk2 & Hm2 & Hsl2 & _ & Hto2 & Hsh2 & Hom).
    rewrite Hom in Hod. injection Hod as ->.
    rewrite Hto in Hto2. injection Hto2 as <-.
    unfold objShape in Hsh2. injection Hsh2 as Hm' _ Hmat.
    unfold meshView in Hnone. rewrite Hm', Hm2 in Hnone.
    rewrite Hsl2 in Hmat. destruct (materialOf to); discriminate. }
  (* place by place *)
  rewrite <- Hl. apply list_eq. intros k. rewrite !lookup_map.
  destruct (traverse s !! k) as [so|] eqn:Hk.
  - destruct (Hpair k so Hk) as (to & Hto & Hsh).
    destruct (Hl' k to Hto) as [Hset Hkeep].
    destruct (isMesh so) eqn:Hm.
    + destruct (materialOf so) as [slot|] eqn:Hsl.
      * assert (Hin : In (savedObject so slot) ods).
        { apply in_flat_map. exists so. split.
          - apply list_elem_of_In. eapply list_elem_of_lookup_2. exact Hk.
          - unfold saved. rewrite Hm, Hsl. now left. }
        destruct (Htarget _ Hin)
          as (k2 & so2 & slot2 & to2 & Hk2 & _ & _ & _ & _ & _ & Hom).
        assert (Hom' : om !! od_uuid (savedObject so slot) = Some k).
        { simpl. unfold objShape in Hsh.
          replace (uuid so) with (uuid to) by congruence.
          apply Hcomplete; [exact Hto|congruence]. }
        rewrite (Hset _ Hin Hom'). simpl. f_equal.
        destruct (restoreObject_saved floorNumber so slot to Hm Hsl Hsh)
          as (o' & es & Hr & Hview & _).
        { apply List.Forall_forall with (x := so) in Hcol.
          - unfold meshMaterials in Hcol. now rewrite Hm, Hsl in Hcol.
          - apply list_elem_of_In. eapply list_elem_of_lookup_2. exact Hk. }
        unfold node. rewrite Hr. exact Hview.
      * rewrite Hkeep.
        { simpl. f_equal. unfold meshView. rewrite Hsl.
          unfold objShape in Hsh. injection Hsh as Hm' _ Hmat.
          rewrite Hsl in Hmat. destruct (materialOf to); [discriminate|].
          now destruct (isMesh to), (isMesh so). }
        intros od Hin Hod.
        destruct (Htarget od Hin)
          as (k2 & so2 & slot2 & to2 & Hk2 & _ & Hsl2 & _ & _ & _ & Hom).
        rewrite Hom in Hod. injection Hod as ->. congruence.
    + rewrite Hkeep.
      { simpl. f_equal. unfold meshView. rewrite Hm.
        unfold objShape in Hsh. injection Hsh as Hm' _ _.
        now rewrite Hm', Hm. }
      intros od Hin Hod.
      destruct (Htarget od Hin)
        as (k2 & so2 & slot2 & to2 & Hk2 & Hm2 & _ & _ & _ & _ & Hom).
      rewrite Hom in Hod. injection Hod as ->. congruence.
  - pose proof (runL_length floorNumber om ods (traverse t)) as Hlen.
    rewrite Hrun in Hlen. simpl in Hlen.
    assert (Hlens : length (traverse t) = length (traverse s)).
    { rewrite <- (List.length_map objShape (traverse t)), Hshape.
      apply List.length_map. }
    apply lookup_ge_None in Hk.
    rewrite (proj2 (lookup_ge_None l' k)) by lia. reflexivity.
Qed.

End RoundTrip.

Module RoundTripExamples.
Import Scene State Viewer SceneData Loading SceneDataFacts RoundTrip Samples.

(** The sample model is saved, edited, and restored from the saved data. *)
Lemma sceneData_round_trip_witness :
  let v0 := withSatellite (Some orion) (initialViewer 0) in
  let v := withSatellite (Some edited) (initialViewer 0) in
  exists sd v' t',
    serializeSceneData v0 = Normal (Some sd)
    /\ deserializeSceneData (fun _ => 0%Z) (Some sd) v = (v', true)
    /\ satellite v' = Some t'
    /\ List.map meshView (traverse t') = List.map meshView (traverse orion)
    /\ (forall k to,
          traverse edited !! k = Some to -> meshView to = None ->
          traverse t' !! k = Some to).
Proof.
  intros v0 v.
  apply (sceneData_round_trip (fun _ => 0%Z) v0 v orion edited).
  - reflexivity.
  - reflexivity.
  - reflexivity.
  - change (NoDup ["uuid-panel"; "uuid-shield"]).
    repeat constructor; set_solver.
  - repeat constructor; discriminate.
Defined.

End RoundTripExamples.

(* ------------------------------------------------------------------ *)
(** ** The life of the part indicator *)

Module IndicatorLife.
Import Scene State Viewer PageFacts StateFacts LoadFacts.

Local Open Scope R_scope.

(** X1. [closeIndicator] is idempotent: a second call right after the
    first changes nothing, and in particular removes and disposes
    nothing. *)
Theorem closeIndicator_idempotent (v : viewer) :
  closeIndicator (closeIndicator v) = closeIndicator v.
Proof.
  rewrite !closeIndicator_eq. unfold closeEvents. simpl.
  rewrite app_nil_r. f_equal.
  unfold addClass. simpl. f_equal. set_solver.
Qed.

Section WithLibrary.
Variable raycast : R * R -> object3d -> list hit.
Variable worldToLocal localToWorld : string -> vec3 -> vec3.
Variable placePopup : option object3d -> string -> vec3 -> string * string * vec3.

Local Abbreviation onMouseDoubleClick :=
  (onMouseDoubleClick raycast worldToLocal localToWorld placePopup).
Local Abbreviation showIndicator :=
  (showIndicator worldToLocal localToWorld placePopup).
Local Abbreviation updateIndicatorPosition :=
  (updateIndicatorPosition localToWorld placePopup).

Lemma updateIndicatorPosition_keeps v :
  let v' := updateIndicatorPosition v in
  selectedPart (sel v') = selectedPart (sel v)
  /\ satellite v' = satellite v /\ mouse v' = mouse v
  /\ isRotationPaused v' = isRotationPaused v
  /\ partData v' = partData v
  /\ classes (dom v') = classes (dom v).
Proof.
  unfold Viewer.updateIndicatorPosition.
  destruct (selectedObject (sel v)) as [o|]; [|now repeat split].
  destruct (selectedIntersectionPoint (sel v)) as [p|]; [|now repeat split].
  destruct (placePopup _ _ _) as [[x y] q].
  unfold updateConnectionMarker, updateConnectionLine, createConnectionLine,
    createConnectionMarker; simpl.
  destruct (connectionLine (sel v)); simpl;
    destruct (connectionMarker (sel v)); simpl; now repeat split.
Qed.

Lemma showIndicator_keeps object point v :
  let v' := showIndicator object point v in
  selectedPart (sel v') = Some (uuid object)
  /\ satellite v' = satellite v /\ mouse v' = mouse v
  /\ isRotationPaused v' = true.
Proof.
  unfold Viewer.showIndicator.
  generalize updateIndicatorPosition_keeps.
  generalize updateIndicatorPosition. intros update Hupdate. simpl.
  destruct (match userData_partInfo object with
            | Some i => Some i
            | None => partData v !! uuid object
            end) as [info|]; simpl; [|now repeat split].
  match goal with
  | |- context [update ?w] =>
      destruct (Hupdate w) as (H1 & H2 & H3 & H4 & _)
  end.
  simpl in *. now rewrite H1, H2, H3, H4.
Qed.

(** X2. Double-clicking the same part twice: the first double click on a
    part that is not the selected one selects it, the second one, with
    the pointer at the same place, closes the indicator again: nothing is
    selected, the overlay is hidden and the rotation runs. *)
Theorem doubleClick_twice_closes
        (containerRect : rect) (clientX clientY : R) (v : viewer)
        (model : object3d) (first : hit) (others : list hit) :
  satellite v = Some model ->
  raycast (toNDC containerRect clientX clientY) model = first :: others ->
  selectedPart (sel v) <> Some (uuid (hit_object first)) ->
  let v1 := onMouseDoubleClick (Some containerRect) clientX clientY v in
  let v2 := onMouseDoubleClick (Some containerRect) clientX clientY v1 in
  selectedPart (sel v1) = Some (uuid (hit_object first))
  /\ isRotationPaused v1 = true
  /\ sel v2 = Selection None None None None None None
  /\ isRotationPaused v2 = false
  /\ hasClass overlayId "hidden" (dom v2) = true.
Proof.
  intros Hsat Hray Hother v1 v2.
  assert (H1 : selectedPart (sel v1) = Some (uuid (hit_object first))
               /\ satellite v1 = satellite v
               /\ isRotationPaused v1 = true).
  { subst v1. unfold Viewer.onMouseDoubleClick, intersectObjects.
    cbn [mouse withMouse satellite]. rewrite Hsat. cbn [flat_map].
    rewrite Hray. cbn [app].
    rewrite bool_decide_eq_false_2 by exact Hother.
    match goal with
    | |- context [Viewer.showIndicator _ _ _ ?o ?p ?w] =>
        destruct (showIndicator_keeps o p w) as (Hs & Hm & _ & Hp)
    end.
    cbv zeta in Hs, Hm, Hp. rewrite Hs, Hm, Hp. now repeat split. }
  destruct H1 as (Hsel1 & Hsat1 & Hp1).
  split; [exact Hsel1|]. split; [exact Hp1|].
  assert (E : exists w, v2 = closeIndicator w).
  { subst v2. unfold Viewer.onMouseDoubleClick, intersectObjects.
    fold v1. cbn [mouse withMouse satellite]. rewrite Hsat1, Hsat.
    cbn [flat_map]. rewrite Hray. cbn [app].
    match goal with
    | |- context [bool_decide ?P] => rewrite (bool_decide_eq_true_2 P)
    end; [eexists; reflexivity|exact Hsel1]. }
  destruct E as [w ->]. rewrite closeIndicator_eq.
  cbn [sel isRotationPaused dom].
  split; [reflexivity|]. split; [reflexivity|].
  rewrite hasClass_addClass. now rewrite bool_decide_eq_true_2.
Qed.

(** X3. A double click on an object for which there is no part
    information (neither on the object nor in the part data) selects the
    object and pauses the rotation, but shows nothing: the page is what
    it was, and the overlay stays as it is. *)
Theorem doubleClick_without_part_info
        (containerRect : rect) (clientX clientY : R) (v : viewer)
        (model : object3d) (first : hit) (others : list hit) :
  satellite v = Some model ->
  raycast (toNDC containerRect clientX clientY) model = first :: others ->
  selectedPart (sel v) <> Some (uuid (hit_object first)) ->
  userData_partInfo (hit_object first) = None ->
  partData v !! uuid (hit_object first) = None ->
  let v' := onMouseDoubleClick (Some containerRect) clientX clientY v in
  selectedPart (sel v') = Some (uuid (hit_object first))
  /\ selectedObject (sel v') = Some (uuid (hit_object first))
  /\ isRotationPaused v' = true
  /\ dom v' = dom v
  /\ connectionLine (sel v') = connectionLine (sel v)
  /\ exists es, trace v' = trace v ++ es
                           ++ [ConsoleWarn "No part info found for object:"].
Proof.
  intros Hsat Hray Hother Hdata Hpart v'. subst v'.
  unfold Viewer.onMouseDoubleClick, intersectObjects.
  cbn [mouse withMouse satellite]. rewrite Hsat. cbn [flat_map].
  rewrite Hray. cbn [app].
  rewrite bool_decide_eq_false_2 by exact Hother.
  unfold Viewer.showIndicator. rewrite Hdata. simpl. rewrite Hpart. simpl.
  repeat split.
  exists [ConsoleLog "Double-click detected on object:";
          ConsoleLog "Showing indicator for new part";
          ConsoleLog "showIndicator called:"].
  rewrite <- !app_assoc. reflexivity.
Qed.

End WithLibrary.

End IndicatorLife.

Module IndicatorLifeExamples.
Import Scene State Viewer IndicatorLife Samples.

Local Open Scope R_scope.

(** The ray through every point of the canvas meets the panel of the
    sample model. *)
Definition hitsPanel : R * R -> object3d -> list hit :=
  fun _ _ => [Hit panel (Vec3 2 0 0)].

Lemma doubleClick_twice_closes_witness :
  let v := withSatellite (Some orion) (initialViewer 0) in
  let click := onMouseDoubleClick hitsPanel (fun _ p => p) (fun _ p => p)
                 (fun _ _ p => ("0px", "0px", p))
                 (Some (Rect 0 0 800 600)) 10 10 in
  selectedPart (sel (click v)) = Some "uuid-panel"
  /\ isRotationPaused (click v) = true
  /\ sel (click (click v)) = Selection None None None None None None
  /\ isRotationPaused (click (click v)) = false
  /\ hasClass overlayId "hidden" (dom (click (click v))) = true.
Proof.
  intros v click.
  apply (doubleClick_twice_closes hitsPanel (fun _ p => p) (fun _ p => p)
           (fun _ _ p => ("0px", "0px", p))
           (Rect 0 0 800 600) 10 10 v orion (Hit panel (Vec3 2 0 0)) []).
  - reflexivity.
  - reflexivity.
  - discriminate.
Defined.

Lemma doubleClick_without_part_info_witness :
  let v := withSatellite (Some orion) (initialViewer 0) in
  let v' := onMouseDoubleClick hitsPanel (fun _ p => p) (fun _ p => p)
              (fun _ _ p => ("0px", "0px", p))
              (Some (Rect 0 0 800 600)) 10 10 v in
  isRotationPaused v' = true /\ dom v' = dom v.
Proof.
  intros v v'.
  destruct (doubleClick_without_part_info hitsPanel (fun _ p => p)
              (fun _ p => p) (fun _ _ p => ("0px", "0px", p))
              (Rect 0 0 800 600) 10 10 v orion (Hit panel (Vec3 2 0 0)) [])
    as (_ & _ & Hp & Hd & _).
  - reflexivity.
  - reflexivity.
  - discriminate.
  - reflexivity.
  - reflexivity.
  - split; [exact Hp|exact Hd].
Defined.

End IndicatorLifeExamples.

(* ------------------------------------------------------------------ *)
(** ** The connection line and its marker *)

Module ConnectionFacts.
Import Scene State Viewer Loading PageFacts StateFacts LoadFacts LoadClaims.

Local Open Scope R_scope.

(** How often a kind of call occurs in a trace. *)
Definition count (p : event -> bool) (tr : list event) : nat :=
  length (List.filter p tr).

Definition isLineAdd (e : event) : bool :=
  match e with LineAdd => true | _ => false end.
Definition isLineRemove (e : event) : bool :=
  match e with LineRemove => true | _ => false end.
Definition isLineDispose (e : event) : bool :=
  match e with LineDispose => true | _ => false end.
Definition isMarkerAdd (e : event) : bool :=
  match e with MarkerAdd => true | _ => false end.
Definition isMarkerRemove (e : event) : bool :=
  match e with MarkerRemove => true | _ => false end.
Definition isMarkerDispose (e : event) : bool :=
  match e with MarkerDispose => true | _ => false end.

Definition held {A} (x : option A) : nat :=
  match x with Some _ => 1 | None => 0 end.

(** The scene holds the line and the marker that the viewer holds, and
    nothing that was removed is left undisposed. *)
Definition balancedAt (line : option (vec3 * vec3)) (marker : option vec3)
           (tr : list event) : Prop :=
  count isLineAdd tr = (count isLineRemove tr + held line)%nat
  /\ count isLineDispose tr = count isLineRemove tr
  /\ count isMarkerAdd tr = (count isMarkerRemove tr + held marker)%nat
  /\ count isMarkerDispose tr = count isMarkerRemove tr.

Definition balanced (v : viewer) : Prop :=
  balancedAt (connectionLine (sel v)) (connectionMarker (sel v)) (trace v).

(** A call that is about neither the line nor the marker. *)
Definition quiet (e : event) : bool :=
  match e with
  | LineAdd | LineRemove | LineDispose
  | MarkerAdd | MarkerRemove | MarkerDispose => false
  | _ => true
  end.

Lemma count_app p l l' : count p (l ++ l') = (count p l + count p l')%nat.
Proof. unfold count. now rewrite List.filter_app, length_app. Qed.

Lemma count_quiet p es :
  (forall e, quiet e = true -> p e = false) ->
  forallb quiet es = true -> count p es = 0%nat.
Proof.
  intros Hp. induction es as [|e es IH]; intros H; [reflexivity|].
  simpl in H. apply andb_prop in H as [He Hes].
  unfold count in *. simpl. rewrite (Hp e He). now apply IH.
Qed.

Lemma quiet_flat_map {A} (f : A -> list event) (l : list A) :
  (forall x, forallb quiet (f x) = true) ->
  forallb quiet (flat_map f l) = true.
Proof.
  intros H. induction l as [|x l IH]; [reflexivity|].
  simpl. now rewrite forallb_app, H, IH.
Qed.

Lemma balancedAt_quiet line marker tr es :
  forallb quiet es = true ->
  balancedAt line marker tr -> balancedAt line marker (tr ++ es).
Proof.
  intros Hq (H1 & H2 & H3 & H4). unfold balancedAt.
  rewrite !count_app.
  rewrite !(count_quiet _ es) by (exact Hq || now intros []).
  repeat split; lia.
Qed.

Lemma balanced_emit e v : quiet e = true -> balanced v -> balanced (emit e v).
Proof.
  intros He H. unfold balanced. simpl.
  apply balancedAt_quiet; [simpl; now rewrite He|exact H].
Qed.

Lemma balanced_emits es v :
  forallb quiet es = true -> balanced v -> balanced (emits es v).
Proof.
  intros He H. rewrite emits_eq. unfold balanced. simpl.
  now apply balancedAt_quiet.
Qed.

Lemma balanced_closeIndicator v : balanced v -> balanced (closeIndicator v).
Proof.
  rewrite closeIndicator_eq. unfold balanced, balancedAt, closeEvents. simpl.
  intros (H1 & H2 & H3 & H4). rewrite !count_app.
  destruct (connectionLine (sel v)), (connectionMarker (sel v));
    unfold count in *; simpl in *; repeat split; lia.
Qed.

Section WithLibrary.
Variable raycast : R * R -> object3d -> list hit.
Variable worldToLocal localToWorld : string -> vec3 -> vec3.
Variable placePopup : option object3d -> string -> vec3 -> string * string * vec3.
Variable boxCenter boxSize : object3d -> vec3.
Variable newMaterial : material -> nat * string.
Variable toFixed : nat -> R -> string.
Variable numberToString : R -> string.

Lemma balanced_updateIndicatorPosition v :
  balanced v -> balanced (updateIndicatorPosition localToWorld placePopup v).
Proof.
  unfold updateIndicatorPosition.
  destruct (selectedObject (sel v)) as [o|]; [|easy].
  destruct (selectedIntersectionPoint (sel v)) as [p|]; [|easy].
  destruct (placePopup _ _ _) as [[x y] q].
  unfold balanced, balancedAt, updateConnectionMarker, updateConnectionLine,
    createConnectionLine, createConnectionMarker; simpl.
  intros (H1 & H2 & H3 & H4).
  destruct (connectionLine (sel v)); simpl;
    destruct (connectionMarker (sel v)); simpl;
    rewrite ?count_app; unfold count in *; simpl in *; repeat split; lia.
Qed.

Lemma balanced_showIndicator object point v :
  balanced v ->
  balanced (showIndicator worldToLocal localToWorld placePopup object point v).
Proof.
  intros H. unfold showIndicator.
  generalize balanced_updateIndicatorPosition.
  generalize (updateIndicatorPosition localToWorld placePopup).
  intros update Hupdate. cbv zeta.
  match goal with
  | |- context [match ?x with Some _ => _ | None => _ end] =>
      destruct x as [info|]
  end.
  - apply balanced_emit; [reflexivity|].
    match goal with
    | |- balanced (onDom ?f (update ?w)) =>
        change (balanced (update w)); apply Hupdate
    end.
    apply (balanced_emit (ConsoleLog "showIndicator called:")); [reflexivity|].
    exact H.
  - apply balanced_emit; [reflexivity|].
    apply (balanced_emit (ConsoleLog "showIndicator called:")); [reflexivity|].
    exact H.
Qed.

Lemma balanced_onMouseDoubleClick container clientX clientY v :
  balanced v ->
  balanced (onMouseDoubleClick raycast worldToLocal localToWorld placePopup
              container clientX clientY v).
Proof.
  intros H. unfold onMouseDoubleClick.
  destruct container as [containerRect|]; [|exact H]. cbv zeta.
  destruct (intersectObjects _ _ _) as [|first others].
  - apply balanced_emit; [reflexivity|exact H].
  - destruct (bool_decide _).
    + apply balanced_closeIndicator.
      do 2 (apply balanced_emit; [reflexivity|]). exact H.
    + apply balanced_showIndicator.
      do 2 (apply balanced_emit; [reflexivity|]). exact H.
Qed.

Lemma balanced_animate currentTime v :
  balanced v -> balanced (animate localToWorld placePopup currentTime v).
Proof.
  intros H. unfold animate. cbv zeta.
  apply balanced_emit; [reflexivity|].
  assert (Hrun : forall w, balanced w ->
            balanced (refreshIndicator localToWorld placePopup w)).
  { intros w Hw. unfold refreshIndicator.
    destruct (selectedObject (sel w)); [|exact Hw].
    destruct (negb _); [|exact Hw].
    now apply balanced_updateIndicatorPosition. }
  apply Hrun.
  assert (H2 : balanced (emit ControlsUpdate
                 (withLastFrameTime currentTime (emit RequestAnimationFrame v)))).
  { do 2 (apply balanced_emit; [reflexivity|]). exact H. }
  destruct (negb _); exact H2.
Qed.

Lemma balanced_toggleRightPanel presetButtons presetButtonElements v :
  balanced v ->
  balanced (toggleRightPanel presetButtons presetButtonElements v).
Proof.
  intros H. unfold toggleRightPanel, toggleClass.
  assert (Hfold : forall btns w, balanced w ->
            balanced (fold_left
                        (fun v btn => onDom (removeClass btn "active") v)
                        btns w)).
  { induction btns as [|b btns IH]; intros w Hw; [exact Hw|].
    simpl. apply IH. exact Hw. }
  destruct (hasClass rightPanelId "collapsed" (dom v)); cbv zeta.
  - apply Hfold. destruct presetButtons; exact H.
  - destruct presetButtons; exact H.
Qed.

Lemma quiet_disposeObject child : forallb quiet (disposeObject child) = true.
Proof.
  unfold disposeObject. destruct (isMesh child); [|reflexivity].
  rewrite forallb_app. apply andb_true_intro. split.
  - now destruct (geometry child).
  - destruct (materialOf child) as [slot|]; [|reflexivity].
    induction (materialsOf slot) as [|m ms IH]; [reflexivity|].
    simpl. rewrite forallb_app, IH, andb_true_r.
    unfold disposeMaterial. rewrite forallb_app. simpl.
    destruct (mat_maps m map_), (mat_maps m normalMap),
      (mat_maps m roughnessMap), (mat_maps m metalnessMap),
      (mat_maps m aoMap), (mat_maps m emissiveMap); reflexivity.
Qed.

Lemma balanced_startLoad src v : balanced v -> balanced (startLoad src v).
Proof.
  intros H. unfold startLoad. cbv zeta.
  apply balanced_emit; [reflexivity|].
  change (balanced (match src with
                    | Startup => v
                    | _ => emit (BuildOutliner
                                   (bool_decide
                                      (is_Some (satellite (closeIndicator
                                         (withPartData ∅ (removeExisting v)))))))
                             (closeIndicator (withPartData ∅ (removeExisting v)))
                    end)).
  assert (Hrm : balanced (removeExisting v)).
  { unfold removeExisting. destruct (satellite v) as [old|]; [|exact H].
    change (balanced (emits (flat_map disposeObject (traverse old))
                        (emit (SceneRemove (uuid (root old))) v))).
    apply balanced_emits.
    - apply quiet_flat_map. apply quiet_disposeObject.
    - apply balanced_emit; [reflexivity|exact H]. }
  destruct src; [exact H| |];
    (apply balanced_emit; [reflexivity|];
     apply balanced_closeIndicator; exact Hrm).
Qed.

Lemma modelLoaded_quiet src gltf v :
  let v' := modelLoaded boxCenter boxSize newMaterial toFixed numberToString
              src gltf v in
  sel v' = sel v
  /\ exists es, trace v' = trace v ++ es /\ forallb quiet es = true.
Proof.
  unfold modelLoaded.
  generalize (prepare boxCenter newMaterial gltf). intros model.
  unfold applySolarPanelTexture, tagParts, setEnvironmentIntensity,
    updateLoadingProgress. simpl.
  rewrite emits_eq. simpl.
  set (loads := flat_map _ (traverse model)).
  assert (Hloads : forallb quiet loads = true).
  { subst loads. apply quiet_flat_map. intros c.
    apply quiet_flat_map. intros m. now destruct (_ && _). }
  destruct src; simpl; rewrite <- !app_assoc; simpl;
    (split; [reflexivity|]; eexists; split; [reflexivity|];
     rewrite forallb_app, Hloads; reflexivity).
Qed.

Lemma balanced_modelLoaded src gltf v :
  balanced v ->
  balanced (modelLoaded boxCenter boxSize newMaterial toFixed numberToString
              src gltf v).
Proof.
  intros H.
  destruct (modelLoaded_quiet src gltf v) as (Hsel & es & Htrace & Hq).
  unfold balanced. rewrite Hsel, Htrace. now apply balancedAt_quiet.
Qed.

Lemma balanced_loadFailed src v : balanced v -> balanced (loadFailed src v).
Proof.
  intros H.
  assert (H1 : balanced (emit (Alert "Failed to load 3D model. Please check the console for details.")
                 (hideLoadingIndicator
                    (emit (ConsoleError "Error loading GLTF model:") v)))).
  { apply balanced_emit; [reflexivity|].
    apply (balanced_emit (ConsoleError "Error loading GLTF model:"));
      [reflexivity|exact H]. }
  unfold loadFailed. cbv zeta.
  destruct src; [exact H1|exact H1|].
  apply balanced_emit; [reflexivity|exact H1].
Qed.

(** What can happen to a viewer: the handlers of the page and the
    callbacks of the loader. *)
Inductive handler : Type :=
| DoubleClick (container : option rect) (clientX clientY : R)
| Show (object : obj) (intersectionPoint : vec3)
| Frame (currentTime : R)
| Close
| TogglePanel (presetButtons : option string)
              (presetButtonElements : list string)
| Load (src : source)
| Loaded (src : source) (gltf : object3d)
| Failed (src : source).

Definition handle (h : handler) (v : viewer) : viewer :=
  match h with
  | DoubleClick container clientX clientY =>
      onMouseDoubleClick raycast worldToLocal localToWorld placePopup
        container clientX clientY v
  | Show object intersectionPoint =>
      showIndicator worldToLocal localToWorld placePopup
        object intersectionPoint v
  | Frame currentTime => animate localToWorld placePopup currentTime v
  | Close => closeIndicator v
  | TogglePanel presetButtons presetButtonElements =>
      toggleRightPanel presetButtons presetButtonElements v
  | Load src => startLoad src v
  | Loaded src gltf =>
      modelLoaded boxCenter boxSize newMaterial toFixed numberToString
        src gltf v
  | Failed src => loadFailed src v
  end.

Definition run (hs : list handler) (v : viewer) : viewer :=
  fold_left (fun v h => handle h v) hs v.

Lemma balanced_handle h v : balanced v -> balanced (handle h v).
Proof.
  destruct h; simpl.
  - apply balanced_onMouseDoubleClick.
  - apply balanced_showIndicator.
  - apply balanced_animate.
  - apply balanced_closeIndicator.
  - apply balanced_toggleRightPanel.
  - apply balanced_startLoad.
  - apply balanced_modelLoaded.
  - apply balanced_loadFailed.
Qed.

(** X4. The connection line and its marker do not leak.  Whatever
    sequence of double clicks, indicator openings and closings, frames,
    panel toggles, model loads and load callbacks a fresh viewer goes
    through, the scene holds exactly the line and the marker that the
    viewer still refers to: the line was added once more than removed if
    [connectionLine] is set and as often as removed otherwise, likewise
    for the marker, and each removal came with its dispose.  So there is
    never more than one line and one marker in the scene. *)
Theorem connection_line_never_leaks (hs : list handler) (now : R) :
  let v := run hs (initialViewer now) in
  count isLineAdd (trace v)
  = (count isLineRemove (trace v) + held (connectionLine (sel v)))%nat
  /\ count isLineDispose (trace v) = count isLineRemove (trace v)
  /\ count isMarkerAdd (trace v)
     = (count isMarkerRemove (trace v) + held (connectionMarker (sel v)))%nat
  /\ count isMarkerDispose (trace v) = count isMarkerRemove (trace v)
  /\ (count isLineAdd (trace v) <= count isLineRemove (trace v) + 1)%nat
  /\ (count isMarkerAdd (trace v) <= count isMarkerRemove (trace v) + 1)%nat.
Proof.
  intros v.
  assert (H : balanced v).
  { subst v. unfold run.
    assert (H0 : balanced (initialViewer now)) by (repeat split).
    revert H0. generalize (initialViewer now).
    induction hs as [|h hs IH]; intros w Hw; [exact Hw|].
    simpl. apply IH. now apply balanced_handle. }
  destruct H as (H1 & H2 & H3 & H4).
  repeat split; try assumption.
  - rewrite H1. destruct (connectionLine (sel v)); simpl; lia.
  - rewrite H3. destruct (connectionMarker (sel v)); simpl; lia.
Qed.

End WithLibrary.

End ConnectionFacts.

(* ------------------------------------------------------------------ *)
(** ** The oscillation: lights, period and pauses *)

Module SwingFacts.
Import Scene State Viewer StateFacts LoadFacts AnimateFacts.

Local Open Scope R_scope.

(** A light that swings stays at the height and at the distance from the
    vertical axis of its initial position. *)
Definition onCircle (initial position : vec3) : Prop :=
  vy position = vy initial
  /\ vx position ^ 2 + vz position ^ 2 = vx initial ^ 2 + vz initial ^ 2.

(** What a running frame does to one light, given its initial position. *)
Definition swung (before after : option light) (initial : option vec3) : Prop :=
  match before, initial with
  | Some l, Some p =>
      exists l', after = Some l'
                 /\ intensity l' = intensity l
                 /\ lightColor l' = lightColor l
                 /\ onCircle p (lightPosition l')
  | _, _ => after = before
  end.

Lemma swing_onCircle initial rotationAngle :
  onCircle initial (swing initial rotationAngle).
Proof.
  unfold onCircle, swing. cbn [vx vy vz]. split; [reflexivity|].
  set (a := atan2 (vz initial) (vx initial) + rotationAngle).
  set (q := vx initial ^ 2 + vz initial ^ 2).
  assert (Hq : 0 <= q) by (subst q; nra).
  pose proof (sqrt_sqrt q Hq) as Hs.
  pose proof (sin2_cos2 a) as Hc. unfold Rsqr in Hc.
  replace ((cos a * sqrt q) ^ 2 + (sin a * sqrt q) ^ 2)
    with ((sin a * sin a + cos a * cos a) * (sqrt q * sqrt q)) by ring.
  rewrite Hc, Hs. ring.
Qed.

Lemma swingLight_swung l initial rotationAngle :
  swung l (swingLight l initial rotationAngle) initial.
Proof.
  unfold swung, swingLight. destruct l as [li|]; [|reflexivity].
  destruct initial as [p|]; [|reflexivity].
  eexists. split; [reflexivity|]. cbn [intensity lightColor lightPosition].
  split; [reflexivity|]. split; [reflexivity|]. apply swing_onCircle.
Qed.

Section WithLibrary.
Variable localToWorld : string -> vec3 -> vec3.
Variable placePopup : option object3d -> string -> vec3 -> string * string * vec3.

Local Abbreviation animate := (animate localToWorld placePopup).
Local Abbreviation refreshIndicator := (refreshIndicator localToWorld placePopup).

(** Moving the popup leaves the model, the lights and the clocks alone. *)
Lemma refreshIndicator_frame v :
  let v' := refreshIndicator v in
  satellite v' = satellite v /\ lamps v' = lamps v
  /\ rotationTime v' = rotationTime v /\ lastFrameTime v' = lastFrameTime v
  /\ isRotationPaused v' = isRotationPaused v.
Proof.
  unfold Viewer.refreshIndicator.
  destruct (selectedObject (sel v)) as [o|] eqn:Ho; [|now repeat split].
  destruct (negb _); [|now repeat split].
  unfold updateIndicatorPosition. rewrite Ho.
  destruct (selectedIntersectionPoint (sel v)) as [p|]; [|now repeat split].
  destruct (placePopup _ _ _) as [[x y] q].
  unfold updateConnectionMarker, updateConnectionLine, createConnectionLine,
    createConnectionMarker; simpl.
  destruct (connectionLine (sel v)); simpl;
    destruct (connectionMarker (sel v)); simpl; now repeat split.
Qed.

(** The clocks after a frame. *)
Lemma animate_clocks currentTime v :
  lastFrameTime (animate currentTime v) = currentTime
  /\ rotationTime (animate currentTime v)
     = (if isRotationPaused v then rotationTime v
        else rotationTime v + (currentTime - lastFrameTime v) / 1000)
  /\ isRotationPaused (animate currentTime v) = isRotationPaused v.
Proof.
  unfold Viewer.animate. cbv zeta.
  cbn [lastFrameTime rotationTime isRotationPaused emit].
  match goal with
  | |- context [Viewer.refreshIndicator _ _ ?w] =>
      destruct (refreshIndicator_frame w) as (_ & _ & Hr & Hl & Hp)
  end.
  cbv zeta in Hr, Hl, Hp. rewrite Hr, Hl, Hp. simpl.
  destruct (isRotationPaused v) eqn:E; simpl; rewrite ?E; now repeat split.
Qed.

(** The model and the lights after a frame. *)
Lemma animate_pose currentTime v :
  let angle := rotationAngleAt
                 (rotationTime v + (currentTime - lastFrameTime v) / 1000) in
  satellite (animate currentTime v)
  = (if isRotationPaused v then satellite v
     else option_map (setRoot (setRotationY angle)) (satellite v))
  /\ lamps (animate currentTime v)
     = (if isRotationPaused v then lamps v
        else Lights (ambientLight (lamps v))
               (swingLight (directionalLight (lamps v))
                  (initialDirectional (lamps v)) angle)
               (swingLight (fillLight (lamps v)) (initialFill (lamps v)) angle)
               (swingLight (pointLight (lamps v)) (initialPoint (lamps v)) angle)
               (initialDirectional (lamps v)) (initialFill (lamps v))
               (initialPoint (lamps v))).
Proof.
  unfold Viewer.animate. cbv zeta. cbn [satellite lamps emit].
  match goal with
  | |- context [Viewer.refreshIndicator _ _ ?w] =>
      destruct (refreshIndicator_frame w) as (Hs & Hl & _)
  end.
  cbv zeta in Hs, Hl. rewrite Hs, Hl. simpl.
  destruct (isRotationPaused v); simpl; now split.
Qed.

(** X5. While the rotation runs, a frame moves the directional, the fill
    and the point light on horizontal circles around the vertical axis:
    each keeps the height and the distance from the axis of its initial
    position, and its intensity and colour; the ambient light and the
    recorded initial positions are not touched. *)
Theorem lights_swing_on_circles (currentTime : R) (v : viewer) :
  isRotationPaused v = false ->
  let before := lamps v in
  let after := lamps (animate currentTime v) in
  swung (directionalLight before) (directionalLight after)
    (initialDirectional before)
  /\ swung (fillLight before) (fillLight after) (initialFill before)
  /\ swung (pointLight before) (pointLight after) (initialPoint before)
  /\ ambientLight after = ambientLight before
  /\ initialDirectional after = initialDirectional before
  /\ initialFill after = initialFill before
  /\ initialPoint after = initialPoint before.
Proof.
  intros Hrun before after. subst before after.
  destruct (animate_pose currentTime v) as [_ Hl]. cbv zeta in Hl.
  rewrite Hl, Hrun. cbn [directionalLight fillLight pointLight ambientLight
    initialDirectional initialFill initialPoint].
  repeat split; apply swingLight_swung.
Qed.

Lemma rotationAngleAt_period (k : nat) (t : R) :
  rotationAngleAt (t + INR k * cycleDuration) = rotationAngleAt t.
Proof.
  unfold rotationAngleAt, cycleDuration.
  replace ((t + INR k * 80) / 80 * PI * 2)
    with (t / 80 * PI * 2 + 2 * INR k * PI) by (field; lra).
  now rewrite sin_period.
Qed.

(** X6. The oscillation has a period of 80 seconds: the pose that a frame
    gives to the model and to the lights is the same when the rotation
    time is later by any number of whole cycles. *)
Theorem oscillation_repeats_every_cycle (k : nat) (currentTime : R) (v : viewer) :
  let later := withRotationTime (rotationTime v + INR k * cycleDuration) v in
  satellite (animate currentTime later) = satellite (animate currentTime v)
  /\ lamps (animate currentTime later) = lamps (animate currentTime v)
  /\ cycleDuration = 80.
Proof.
  intros later. subst later.
  destruct (animate_pose currentTime v) as [Hs Hl].
  destruct (animate_pose currentTime
              (withRotationTime (rotationTime v + INR k * cycleDuration) v))
    as [Hs' Hl'].
  cbv zeta in *. rewrite Hs, Hl, Hs', Hl'.
  cbn [satellite lamps isRotationPaused rotationTime lastFrameTime
       withRotationTime].
  replace (rotationTime v + INR k * cycleDuration
           + (currentTime - lastFrameTime v) / 1000)
    with (rotationTime v + (currentTime - lastFrameTime v) / 1000
          + INR k * cycleDuration) by ring.
  rewrite rotationAngleAt_period. now repeat split.
Qed.

(** X7. The time spent paused does not count.  If a frame at [t1] finds
    the rotation paused, the indicator is then closed (which resumes the
    rotation) and the next frame comes at [t2], the rotation time has
    advanced by the time between the two frames only, however long the
    pause had lasted before [t1]. *)
Theorem paused_time_is_skipped (t1 t2 : R) (v : viewer) :
  isRotationPaused v = true ->
  let v1 := animate t1 v in
  let v2 := animate t2 (closeIndicator v1) in
  rotationTime v1 = rotationTime v
  /\ rotationTime v2 = rotationTime v + (t2 - t1) / 1000.
Proof.
  intros Hp v1 v2.
  destruct (animate_clocks t1 v) as (Hl1 & Hr1 & _). fold v1 in Hl1, Hr1.
  rewrite Hp in Hr1. split; [exact Hr1|].
  destruct (animate_clocks t2 (closeIndicator v1)) as (_ & Hr2 & _).
  fold v2 in Hr2. rewrite closeIndicator_eq in Hr2.
  cbn [isRotationPaused rotationTime lastFrameTime] in Hr2.
  now rewrite Hr2, Hr1, Hl1.
Qed.

End WithLibrary.

End SwingFacts.

Module SwingExamples.
Import Scene State Viewer SwingFacts Samples.

Local Open Scope R_scope.

(** The first frame of a fresh viewer, 16 milliseconds after its start. *)
Lemma lights_swing_on_circles_witness :
  let before := initialLights in
  let after := lamps (animate (fun _ p => p) (fun _ _ p => ("0px", "0px", p))
                        16 (initialViewer 0)) in
  swung (directionalLight before) (directionalLight after)
    (Some (Vec3 (-5) 5 (-5)))
  /\ ambientLight after = ambientLight before.
Proof.
  intros before after.
  destruct (lights_swing_on_circles (fun _ p => p)
              (fun _ _ p => ("0px", "0px", p)) 16 (initialViewer 0))
    as (Hd & _ & _ & Ha & _).
  - reflexivity.
  - split; [exact Hd|exact Ha].
Defined.

(** A viewer paused since its start sees a frame after ten seconds, is
    resumed, and sees the next frame 16 milliseconds later. *)
Lemma paused_time_is_skipped_witness :
  let v := withPaused true (initialViewer 0) in
  let frame := animate (fun _ p => p) (fun _ _ p => ("0px", "0px", p)) in
  rotationTime (frame 10016 (closeIndicator (frame 10000 v)))
  = 0 + (10016 - 10000) / 1000.
Proof.
  intros v frame.
  destruct (paused_time_is_skipped (fun _ p => p)
              (fun _ _ p => ("0px", "0px", p)) 10000 10016 v) as [_ H].
  - reflexivity.
  - exact H.
Defined.

End SwingExamples.

(* ------------------------------------------------------------------ *)
(** ** The side panel and the preset buttons *)

Module PresetFacts.
Import Scene State Viewer PageFacts.

Definition actives (btns : list string) : gset (string * string) :=
  list_to_set (List.map (fun btn => (btn, "active")) btns).

Lemma buttons_deactivated btns : forall v,
  let v' := fold_left (fun v btn => onDom (removeClass btn "active") v) btns v in
  classes (dom v') = classes (dom v) ∖ actives btns
  /\ currentPreset v' = currentPreset v.
Proof.
  induction btns as [|b btns IH]; intros v; simpl.
  - split; [|reflexivity]. unfold actives. simpl. set_solver.
  - destruct (IH (onDom (removeClass b "active") v)) as [Hc Hp].
    cbv zeta in Hc, Hp. rewrite Hc, Hp. split; [|reflexivity].
    unfold actives. simpl. set_solver.
Qed.

(** The classes and the preset after one toggle. *)
Lemma toggleRightPanel_classes pb btns v :
  let v' := toggleRightPanel (Some pb) btns v in
  if hasClass rightPanelId "collapsed" (dom v)
  then classes (dom v')
       = (classes (dom v) ∖ {[ (rightPanelId, "collapsed") ]}
            ∖ {[ (rightPanelToggleId, "panel-collapsed") ]}
            ∪ {[ (pb, "hidden") ]}) ∖ actives btns
       /\ currentPreset v' = None
  else classes (dom v')
       = (classes (dom v) ∪ {[ (rightPanelId, "collapsed") ]}
            ∪ {[ (rightPanelToggleId, "panel-collapsed") ]})
           ∖ {[ (pb, "hidden") ]}
       /\ currentPreset v' = currentPreset v.
Proof.
  unfold toggleRightPanel, toggleClass.
  destruct (hasClass rightPanelId "collapsed" (dom v)); cbv zeta.
  - match goal with
    | |- context [fold_left ?f btns ?w] =>
        destruct (buttons_deactivated btns w) as [Hc Hp]
    end.
    cbv zeta in Hc, Hp. rewrite Hc, Hp. split; reflexivity.
  - split; reflexivity.
Qed.

(** X8. After any toggle of the right side panel, with the panel in
    whatever state before: the toggle button carries [panel-collapsed]
    exactly if the panel is collapsed, the preset buttons are hidden
    exactly if the panel is open, and opening the panel resets the
    current preset and leaves no preset button active, while collapsing
    it keeps the preset. *)
Theorem toggleRightPanel_presets
        (presetButtons : string) (presetButtonElements : list string)
        (v : viewer) :
  let v' := toggleRightPanel (Some presetButtons) presetButtonElements v in
  let collapsed := hasClass rightPanelId "collapsed" (dom v') in
  hasClass rightPanelToggleId "panel-collapsed" (dom v') = collapsed
  /\ hasClass presetButtons "hidden" (dom v') = negb collapsed
  /\ (if collapsed then currentPreset v' = currentPreset v
      else currentPreset v' = None
           /\ forall btn, In btn presetButtonElements ->
                          hasClass btn "active" (dom v') = false).
Proof.
  intros v' collapsed. subst collapsed.
  pose proof (toggleRightPanel_classes presetButtons presetButtonElements v) as H.
  cbv zeta in H. fold v' in H. unfold hasClass in *.
  assert (Hact : forall x, x ∈ actives presetButtonElements -> x.2 = "active").
  { intros x Hx. unfold actives in Hx. apply elem_of_list_to_set in Hx.
    apply list_elem_of_In, in_map_iff in Hx as (b & <- & _). reflexivity. }
  assert (Hin : forall btn, In btn presetButtonElements ->
                  (btn, "active") ∈ actives presetButtonElements).
  { intros btn Hb. unfold actives. apply elem_of_list_to_set.
    apply list_elem_of_In, in_map_iff. now exists btn. }
  destruct (bool_decide ((rightPanelId, "collapsed") ∈ classes (dom v))) eqn:E.
  - (* the panel was collapsed and is open now *)
    destruct H as [Hc Hp]. rewrite Hc.
    assert (Hno : bool_decide
              ((rightPanelId, "collapsed")
               ∈ (classes (dom v) ∖ {[ (rightPanelId, "collapsed") ]}
                    ∖ {[ (rightPanelToggleId, "panel-collapsed") ]}
                    ∪ {[ (presetButtons, "hidden") ]})
                 ∖ actives presetButtonElements) = false).
    { apply bool_decide_eq_false. intros Hx.
      apply elem_of_difference in Hx as [Hx _].
      apply elem_of_union in Hx as [Hx|Hx]; [set_solver|].
      apply elem_of_singleton in Hx. discriminate. }
    rewrite Hno. split; [|split; [|split]].
    + apply bool_decide_eq_false. set_solver.
    + apply bool_decide_eq_true. apply elem_of_difference. split.
      * set_solver.
      * intros Hx. apply Hact in Hx. discriminate.
    + exact Hp.
    + intros btn Hb. apply bool_decide_eq_false. intros Hx.
      apply elem_of_difference in Hx as [_ Hx]. apply Hx. now apply Hin.
  - (* the panel was open and is collapsed now *)
    destruct H as [Hc Hp]. rewrite Hc.
    assert (Hyes : bool_decide
              ((rightPanelId, "collapsed")
               ∈ (classes (dom v) ∪ {[ (rightPanelId, "collapsed") ]}
                    ∪ {[ (rightPanelToggleId, "panel-collapsed") ]})
                 ∖ {[ (presetButtons, "hidden") ]}) = true).
    { apply bool_decide_eq_true. apply elem_of_difference. split.
      - set_solver.
      - intros Hx. apply elem_of_singleton in Hx. discriminate. }
    rewrite Hyes. split; [|split].
    + apply bool_decide_eq_true. apply elem_of_difference. split.
      * set_solver.
      * intros Hx. apply elem_of_singleton in Hx. discriminate.
    + apply bool_decide_eq_false. set_solver.
    + exact Hp.
Qed.

End PresetFacts.

Module PresetExamples.
Import Scene State Viewer PresetFacts.

(** The collapsed panel of a viewer whose solar preset is active is
    opened. *)
Lemma toggleRightPanel_presets_witness :
  let v := onDom (fun d => addClass "preset-solar" "active"
                             (addClass rightPanelId "collapsed" d))
             (initialViewer 0) in
  let v' := toggleRightPanel (Some "preset-buttons")
              ["preset-solar"; "preset-exhaust"] v in
  hasClass rightPanelId "collapsed" (dom v') = false
  /\ hasClass "preset-solar" "active" (dom v') = false.
Proof.
  intros v v'.
  assert (Hopen : hasClass rightPanelId "collapsed" (dom v') = false)
    by (vm_compute; reflexivity).
  split; [exact Hopen|].
  destruct (toggleRightPanel_presets "preset-buttons"
              ["preset-solar"; "preset-exhaust"] v) as (_ & _ & H).
  cbv zeta in H. fold v' in H. rewrite Hopen in H.
  apply H. left. reflexivity.
Defined.

End PresetExamples.

(* ------------------------------------------------------------------ *)
(** ** What a finished load leaves behind *)

Module LoadedFacts.
Import Scene State Viewer PartName Text Loading SceneData StateFacts LoadFacts
       LoadClaims LoaderFacts LoaderClaims SceneDataFacts.

Local Open Scope R_scope.

(** The solar panel texture loads that [applySolarPanelTexture] starts
    for a model. *)
Definition textureLoads (model : object3d) : list event :=
  flat_map
    (fun child =>
       flat_map
         (fun m =>
            if negb (String.eqb (mat_name m) "")
               && existsb (String.eqb (mat_name m)) panelMaterialNames
            then [TextureLoad texturePath (mat_id m)] else [])
         (meshMaterials child))
    (traverse model).

Definition revoke (src : source) : list event :=
  match src with
  | FromFile _ fileURL => [RevokeObjectURL fileURL]
  | _ => []
  end.

(** Writes that keep the identity of the object they are made to. *)
Definition keepsId (ws : list write) : Prop :=
  Forall (fun w => forall t, tex_id (snd w t) = tex_id t) ws.

(** The texture object [id] sits in the slot [k] of a material of a mesh
    of the scene. *)
Definition holds (gltf : object3d) (k : mapName) (id : nat) : Prop :=
  exists o m t,
    In o (traverse gltf) /\ In m (meshMaterials o)
    /\ mat_maps m k = Some t /\ tex_id t = id.

Definition spaceOf (k : mapName) : colorSpace :=
  if isColorMap k then SRGBColorSpace else NoColorSpace.

(** The texture object [id] of the scene is configured: filters,
    wrapping and the flag for the upload are set, and its colour space
    and its mark are those of a slot that holds it. *)
Definition configured (gltf : object3d) (id : nat) (t : texture) : Prop :=
  tex_minFilter t = LinearMipmapLinearFilter
  /\ tex_magFilter t = LinearFilter
  /\ tex_repeat t = true
  /\ tex_needsUpdate t = true
  /\ (exists k, holds gltf k id /\ tex_colorSpace t = spaceOf k)
  /\ (exists k, holds gltf k id /\ tex_isColorTexture t = Some (isColorMap k)).

Lemma written_id ws : forall t, keepsId ws -> tex_id (written ws t) = tex_id t.
Proof.
  induction ws as [|w ws IH]; intros t Hk; [reflexivity|].
  apply List.Forall_cons_iff in Hk as [Hw Hk]. unfold written in *. simpl.
  rewrite IH by exact Hk.
  destruct (Nat.eqb (fst w) (tex_id t)); [apply Hw|reflexivity].
Qed.

(** A property of a texture object holds after a sequence of writes if
    every write to the object establishes or keeps it, and it holds
    before or one of the writes establishes it. *)
Lemma written_inv (Q : texture -> Prop) ws : forall t,
  keepsId ws ->
  (forall w, In w ws -> fst w = tex_id t ->
             (forall x, Q (snd w x)) \/ (forall x, Q x -> Q (snd w x))) ->
  Q t \/ (exists w, In w ws /\ fst w = tex_id t /\ forall x, Q (snd w x)) ->
  Q (written ws t).
Proof.
  induction ws as [|w ws IH]; intros t Hk Hstep Hstart.
  - destruct Hstart as [H|(w & [] & _)]. exact H.
  - apply List.Forall_cons_iff in Hk as [Hw Hk].
    change (written (w :: ws) t)
      with (written ws (if Nat.eqb (fst w) (tex_id t) then snd w t else t)).
    destruct (Nat.eqb (fst w) (tex_id t)) eqn:E.
    + apply Nat.eqb_eq in E. apply IH; [exact Hk| |].
      * intros w' Hw' Hid. rewrite Hw in Hid. apply Hstep; [now right|exact Hid].
      * rewrite Hw.
        destruct (Hstep w (or_introl eq_refl) E) as [Hest|Hkeep];
          [left; apply Hest|].
        destruct Hstart as [H|(w0 & [<-|Hin] & Hid & Hest)].
        -- left. now apply Hkeep.
        -- left. apply Hest.
        -- right. now exists w0.
    + apply Nat.eqb_neq in E. apply IH; [exact Hk| |].
      * intros w' Hw' Hid. apply Hstep; [now right|exact Hid].
      * destruct Hstart as [H|(w0 & [<-|Hin] & Hid & Hest)].
        -- now left.
        -- congruence.
        -- right. now exists w0.
Qed.

Lemma in_slotWrites f m w :
  In w (slotWrites f m)
  <-> exists k t, mat_maps m k = Some t /\ w = (tex_id t, f k).
Proof.
  unfold slotWrites. rewrite in_flat_map. split.
  - intros (k & _ & H). destruct (mat_maps m k) as [t|] eqn:E; [|destruct H].
    destruct H as [<-|[]]. now exists k, t.
  - intros (k & t & E & ->). exists k. split; [destruct k; simpl; tauto|].
    rewrite E. now left.
Qed.

(** No event of a kind that takes something out of the scene or frees
    it. *)
Definition keeps (e : event) : bool :=
  match e with
  | SceneRemove _ | GeometryDispose _ | MaterialDispose _ | TextureDispose _ =>
      false
  | _ => true
  end.

Section WithLibrary.
Variable boxCenter boxSize : object3d -> vec3.
Variable newMaterial : material -> nat * string.
Variable toFixed : nat -> R -> string.
Variable numberToString : R -> string.

Local Abbreviation prepare := (prepare boxCenter newMaterial).
Local Abbreviation modelLoaded :=
  (modelLoaded boxCenter boxSize newMaterial toFixed numberToString).
Local Abbreviation convertMaterial := (convertMaterial newMaterial).
Local Abbreviation convNode := (convNode newMaterial).
Local Abbreviation placed := (placed boxCenter).
Local Abbreviation convertedWrites := (convertedWrites newMaterial).

(** A material of the file [gltf], as the loader leaves it. *)
Definition loadedMaterial (gltf : object3d) (m : material) : material :=
  converted newMaterial (convertedWrites (placed gltf))
    (onTextures (loadedWrites gltf) m).

(** The events of a finished load. *)
Lemma modelLoaded_events src gltf v :
  exists z,
    trace (modelLoaded src gltf v)
    = trace v ++ textureLoads (prepare gltf)
        ++ [SceneAdd (uuid (root gltf)); BuildOutliner true; CameraSet z;
            ControlsUpdate; SetTimeout 300 "hideLoadingIndicator"]
        ++ revoke src ++ [ConsoleLog "Model loaded successfully"].
Proof.
  unfold Loading.modelLoaded.
  pose proof (prepare_uuid boxCenter newMaterial gltf) as Hu. revert Hu.
  unfold textureLoads.
  generalize (prepare gltf). intros model Hu.
  unfold applySolarPanelTexture, tagParts, setEnvironmentIntensity,
    updateLoadingProgress. simpl.
  rewrite emits_eq. simpl. rewrite Hu.
  destruct src; simpl; rewrite <- !app_assoc; simpl;
    eexists; reflexivity.
Qed.

(** The materials of the scene once its textures are processed and it
    is centred and scaled, object by object. *)
Lemma placed_materials gltf :
  List.map meshMaterials (traverse (placed gltf))
  = List.map (fun o => List.map (onTextures (loadedWrites gltf)) (meshMaterials o))
      (traverse gltf).
Proof.
  unfold LoaderFacts.placed.
  rewrite !(map_traverse_setRoot meshMaterials) by reflexivity.
  rewrite traverse_traverseMap, List.map_map.
  apply List.map_ext. intros o. apply meshMaterials_procNode.
Qed.

(** The materials of the model on display, object by object, from those
    of the file. *)
Lemma prepare_materials gltf :
  List.map meshMaterials (traverse (prepare gltf))
  = List.map (fun o => List.map (loadedMaterial gltf) (meshMaterials o))
      (traverse gltf).
Proof.
  rewrite prepare_eq, traverse_traverseMap, List.map_map.
  rewrite (List.map_ext
             (fun o => meshMaterials (convNode (convertedWrites (placed gltf)) o))
             (fun o => List.map (converted newMaterial
                                   (convertedWrites (placed gltf)))
                         (meshMaterials o)))
    by (intros o; apply meshMaterials_convNode).
  rewrite <- (List.map_map meshMaterials
                (List.map (converted newMaterial (convertedWrites (placed gltf))))).
  rewrite placed_materials, List.map_map.
  apply List.map_ext. intros o. now rewrite List.map_map.
Qed.

Lemma loaded_materials src gltf v :
  exists model,
    satellite (modelLoaded src gltf v) = Some model
    /\ List.map meshMaterials (traverse model)
       = List.map (fun o => List.map (loadedMaterial gltf) (meshMaterials o))
           (traverse gltf).
Proof.
  exists (traverseMap tagPart (prepare gltf)).
  split; [apply modelLoaded_satellite|].
  rewrite traverse_traverseMap, List.map_map.
  rewrite (List.map_ext (fun o => meshMaterials (tagPart o)) meshMaterials)
    by apply meshMaterials_tagPart.
  apply prepare_materials.
Qed.

(** A material of a traversal that is the image of another one. *)
Lemma in_mapped_materials {A} (f : A -> list material)
      (l : list obj) (l' : list A) child m :
  List.map meshMaterials l = List.map f l' ->
  In child l -> In m (meshMaterials child) ->
  exists o, In o l' /\ In m (f o).
Proof.
  revert l'. induction l as [|a l IH]; intros [|a' l'] H Hc Hm;
    try discriminate; [destruct Hc|].
  simpl in H. injection H as Ha Hl. destruct Hc as [->|Hc].
  - exists a'. split; [now left|]. now rewrite <- Ha.
  - destruct (IH l' Hl Hc Hm) as (o & Ho & Hmo). exists o. split; [now right|].
    exact Hmo.
Qed.

Lemma loadedMaterial_name gltf m :
  mat_name (loadedMaterial gltf m) = (if isCanonical m then mat_name m else "")
  /\ (isCanonical m = true -> mat_id (loadedMaterial gltf m) = mat_id m).
Proof.
  unfold loadedMaterial, converted, Loading.convertMaterial.
  change (isCanonical (onTextures (loadedWrites gltf) m))
    with (isCanonical m).
  destruct (isCanonical m); split; try reflexivity; discriminate.
Qed.

(** X9. The solar panel texture is only ever requested for a material
    that the file already had in a canonical type (and under one of the
    four panel names).  A material that the loader had to replace by a
    [MeshStandardMaterial] has lost its name in the conversion, so no
    texture load is started for it, whatever it was called. *)
Theorem solar_texture_only_for_kept_materials
        (src : source) (gltf : object3d) (v : viewer)
        (url : string) (id : nat) :
  let v' := modelLoaded src gltf v in
  (exists es, trace v' = trace v ++ es /\ In (TextureLoad url id) es) ->
  url = texturePath
  /\ exists o m,
       In o (traverse gltf) /\ In m (meshMaterials o)
       /\ isCanonical m = true /\ mat_id m = id
       /\ In (mat_name m) panelMaterialNames.
Proof.
  intros v' (es & Htrace & Hin). subst v'.
  destruct (modelLoaded_events src gltf v) as (z & E).
  rewrite E in Htrace. apply app_inv_head in Htrace. subst es.
  apply in_app_or in Hin as [Hin|Hin]; cycle 1.
  { exfalso. apply in_app_or in Hin as [Hin|Hin].
    - simpl in Hin. intuition discriminate.
    - apply in_app_or in Hin as [Hin|Hin].
      + destruct src; simpl in Hin; intuition discriminate.
      + simpl in Hin. intuition discriminate. }
  unfold textureLoads in Hin.
  apply in_flat_map in Hin as (child & Hchild & Hin).
  apply in_flat_map in Hin as (m' & Hm' & Hin).
  destruct (negb (String.eqb (mat_name m') "")) eqn:Hname; [|destruct Hin].
  destruct (existsb _ _) eqn:Hpanel; [|destruct Hin].
  destruct Hin as [Hin|[]]. injection Hin as <- <-.
  split; [reflexivity|].
  destruct (in_mapped_materials _ _ _ child m' (prepare_materials gltf)
              Hchild Hm') as (o & Ho & Hmo).
  apply in_map_iff in Hmo as (m & <- & Hm).
  destruct (loadedMaterial_name gltf m) as [Hn Hid].
  exists o, m. split; [exact Ho|]. split; [exact Hm|].
  rewrite Hn in Hname, Hpanel.
  destruct (isCanonical m); [|discriminate].
  split; [reflexivity|]. split; [symmetry; now apply Hid|].
  apply existsb_exists in Hpanel as (x & Hx & Heq).
  apply String.eqb_eq in Heq. now subst x.
Qed.

(** The texture in a slot of a loaded material: the object that the file
    has there, after the writes of the two passes. *)
Lemma loadedMaterial_maps gltf m k :
  mat_maps (loadedMaterial gltf m) k
  = option_map (fun t => written (convertedWrites (placed gltf))
                           (written (loadedWrites gltf) t))
      (mat_maps m k).
Proof.
  unfold loadedMaterial, converted, Loading.convertMaterial.
  change (isCanonical (onTextures (loadedWrites gltf) m))
    with (isCanonical m).
  destruct (isCanonical m); simpl; now destruct (mat_maps m k).
Qed.

Lemma keepsId_slotWrites f m :
  (forall k t, tex_id (f k t) = tex_id t) -> keepsId (slotWrites f m).
Proof.
  intros H. apply List.Forall_forall. intros w Hw.
  apply in_slotWrites in Hw as (k & t & _ & ->). apply H.
Qed.

Lemma keepsId_flat_map {A} (f : A -> list write) (l : list A) :
  (forall x, keepsId (f x)) -> keepsId (flat_map f l).
Proof.
  intros H. unfold keepsId. rewrite List.Forall_flat_map.
  apply List.Forall_forall. intros x _. apply H.
Qed.

Lemma keepsId_processMaterial m : keepsId (processMaterial m).
Proof.
  unfold processMaterial. apply List.Forall_app. split.
  - now apply keepsId_slotWrites.
  - destruct (mat_maps m roughnessMap) as [r|]; [|constructor].
    destruct (mat_maps m metalnessMap) as [t|]; [|constructor].
    destruct (Nat.eqb _ _); repeat constructor.
Qed.

Lemma keepsId_loadedWrites gltf : keepsId (loadedWrites gltf).
Proof.
  unfold loadedWrites. apply keepsId_flat_map. intros o.
  apply keepsId_flat_map. apply keepsId_processMaterial.
Qed.

Lemma convertMaterial_writes m :
  snd (convertMaterial m) = slotWrites (fun k => configureTexture (isColorMap k)) m.
Proof. unfold Loading.convertMaterial. now destruct (isCanonical m). Qed.

Lemma convertChild_writes o :
  snd (convertChild newMaterial o)
  = flat_map (slotWrites (fun k => configureTexture (isColorMap k)))
      (meshMaterials o).
Proof.
  unfold convertChild, meshMaterials.
  destruct (isMesh o); [|reflexivity].
  destruct (materialOf o) as [slot|]; [|reflexivity].
  cbn [snd]. induction (materialsOf slot) as [|m ms IH]; [reflexivity|].
  simpl. now rewrite convertMaterial_writes, IH.
Qed.

Lemma keepsId_convertedWrites object : keepsId (convertedWrites object).
Proof.
  unfold LoaderFacts.convertedWrites. apply keepsId_flat_map. intros o.
  rewrite convertChild_writes. apply keepsId_flat_map. intros m.
  now apply keepsId_slotWrites.
Qed.

(** The first pass configures every texture of a material of a mesh. *)
Lemma processed_configured gltf o m k t :
  In o (traverse gltf) -> In m (meshMaterials o) -> mat_maps m k = Some t ->
  configured gltf (tex_id t) (written (loadedWrites gltf) t).
Proof.
  intros Ho Hm Ht.
  apply (written_inv (configured gltf (tex_id t))).
  - apply keepsId_loadedWrites.
  - intros w Hw Hfst. unfold loadedWrites in Hw.
    apply in_flat_map in Hw as (o' & Ho' & Hw).
    apply in_flat_map in Hw as (m' & Hm' & Hw).
    unfold processMaterial in Hw. apply in_app_or in Hw as [Hw|Hw].
    + left. apply in_slotWrites in Hw as (k' & t' & Ht' & ->).
      cbn [fst snd] in *. intros x.
      assert (Hh : holds gltf k' (tex_id t)) by (now exists o', m', t').
      unfold configured, spaceOf. cbn.
      repeat split; try (exists k'; split; [exact Hh|]);
        now destruct (isColorMap k').
    + right. destruct (mat_maps m' roughnessMap) as [r|] eqn:Er; [|destruct Hw].
      destruct (mat_maps m' metalnessMap) as [t'|]; [|destruct Hw].
      destruct (Nat.eqb _ _); [|destruct Hw]. destruct Hw as [<-|[]].
      cbn [fst snd] in *. intros x (H1 & H2 & H3 & H4 & H5 & _).
      unfold configured. cbn. repeat split; try assumption.
      exists roughnessMap. split; [now exists o', m', r|reflexivity].
  - right. exists (tex_id t,
                   fun x => configureLoadedTexture (markTexture (isColorMap k) x)).
    split; [|split; [reflexivity|]].
    + unfold loadedWrites. apply in_flat_map. exists o. split; [exact Ho|].
      apply in_flat_map. exists m. split; [exact Hm|].
      unfold processMaterial. apply in_or_app. left.
      apply in_slotWrites. now exists k, t.
    + intros x. cbn [snd].
      assert (Hh : holds gltf k (tex_id t)) by (now exists o, m, t).
      unfold configured, spaceOf. cbn.
      repeat split; try (exists k; split; [exact Hh|]);
        now destruct (isColorMap k).
Qed.

(** The second pass keeps a texture configured. *)
Lemma converted_configured gltf t :
  configured gltf (tex_id t) t ->
  configured gltf (tex_id t) (written (convertedWrites (placed gltf)) t).
Proof.
  intros Hc.
  apply (written_inv (configured gltf (tex_id t)));
    [apply keepsId_convertedWrites| |now left].
  intros w Hw Hfst. right. unfold LoaderFacts.convertedWrites in Hw.
  apply in_flat_map in Hw as (child & Hchild & Hw).
  rewrite convertChild_writes in Hw.
  apply in_flat_map in Hw as (m' & Hm' & Hw).
  apply in_slotWrites in Hw as (k' & t' & Ht' & ->). cbn [fst snd] in *.
  destruct (in_mapped_materials _ _ _ child m' (placed_materials gltf)
              Hchild Hm') as (o & Ho & Hmo).
  apply in_map_iff in Hmo as (m0 & <- & Hm0).
  unfold onTextures, onMaps in Ht'. cbn [mat_maps] in Ht'.
  destruct (mat_maps m0 k') as [t0|] eqn:E; [|discriminate].
  injection Ht' as <-.
  rewrite written_id in Hfst by apply keepsId_loadedWrites.
  assert (Hh : holds gltf k' (tex_id t)) by (now exists o, m0, t0).
  intros x (H1 & H2 & H3 & H4 & H5 & H6).
  unfold configured. cbn. repeat split; try assumption.
  now exists k'.
Qed.

(** X10. In the state that the callback of a finished load leaves
    (before the callback of any texture load that it has started runs),
    every texture of the model on display is configured, whatever the
    file said: the linear mipmap filters, repeat wrapping, flagged for
    upload, and it is the texture object that the file had in the same
    slot.  A texture is one object even where several slots hold it,
    and the loader writes to it for each of them in turn: its colour
    space (sRGB for the colour slots [map] and [emissiveMap], none for
    the data slots) and its mark as colour or data texture are those of
    one of the slots that hold it; they are those of the slot at hand
    where the slots that hold the object are all of its kind. *)
Theorem loaded_textures_are_configured
        (src : source) (gltf : object3d) (v : viewer) :
  exists model,
    satellite (modelLoaded src gltf v) = Some model
    /\ forall child m k t,
         In child (traverse model) -> In m (meshMaterials child) ->
         mat_maps m k = Some t ->
         tex_minFilter t = LinearMipmapLinearFilter
         /\ tex_magFilter t = LinearFilter
         /\ tex_repeat t = true
         /\ tex_needsUpdate t = true
         /\ holds gltf k (tex_id t)
         /\ (exists k', holds gltf k' (tex_id t) /\ tex_colorSpace t = spaceOf k')
         /\ (exists k', holds gltf k' (tex_id t)
                        /\ tex_isColorTexture t = Some (isColorMap k'))
         /\ ((forall k', holds gltf k' (tex_id t) -> isColorMap k' = isColorMap k) ->
             tex_colorSpace t = spaceOf k
             /\ tex_isColorTexture t = Some (isColorMap k)).
Proof.
  destruct (loaded_materials src gltf v) as (model & Hsat & Hmats).
  exists model. split; [exact Hsat|].
  intros child m k t Hchild Hm Ht.
  destruct (in_mapped_materials _ _ _ child m Hmats Hchild Hm)
    as (o & Ho & Hmo).
  apply in_map_iff in Hmo as (m0 & <- & Hm0).
  rewrite loadedMaterial_maps in Ht.
  destruct (mat_maps m0 k) as [t0|] eqn:E; [|discriminate].
  injection Ht as <-.
  pose proof (processed_configured gltf o m0 k t0 Ho Hm0 E) as Hp.
  assert (Hid1 : tex_id (written (loadedWrites gltf) t0) = tex_id t0)
    by apply written_id, keepsId_loadedWrites.
  rewrite <- Hid1 in Hp. apply converted_configured in Hp.
  assert (Hid : tex_id (written (convertedWrites (placed gltf))
                          (written (loadedWrites gltf) t0)) = tex_id t0)
    by (rewrite written_id by apply keepsId_convertedWrites; exact Hid1).
  rewrite Hid1 in Hp. rewrite Hid.
  destruct Hp as (H1 & H2 & H3 & H4 & (k1 & Hh1 & Hs) & (k2 & Hh2 & Hf)).
  split; [exact H1|]. split; [exact H2|]. split; [exact H3|].
  split; [exact H4|]. split; [now exists o, m0, t0|].
  split; [now exists k1|]. split; [now exists k2|].
  intros Hsame. rewrite Hs, Hf. unfold spaceOf.
  now rewrite (Hsame k1 Hh1), (Hsame k2 Hh2).
Qed.

Lemma loadedMaterial_colored gltf m :
  (isCanonical m = true -> colored m) -> colored (loadedMaterial gltf m).
Proof.
  unfold colored, loadedMaterial, converted, Loading.convertMaterial.
  change (isCanonical (onTextures (loadedWrites gltf) m))
    with (isCanonical m).
  destruct (isCanonical m); intros H.
  - exact (H eq_refl).
  - discriminate.
Qed.

(** X11. A loaded model can be saved.  If every material that the file
    has in a canonical type has a colour (the materials of the other
    types get one in the conversion), then [serializeSceneData] on the
    viewer that [modelLoaded] leaves does not throw and returns data,
    with the part data of that viewer. *)
Theorem loaded_model_can_be_saved
        (src : source) (gltf : object3d) (v : viewer) :
  (forall o m, In o (traverse gltf) -> In m (meshMaterials o) ->
               isCanonical m = true -> mat_color m <> None) ->
  let v' := modelLoaded src gltf v in
  exists objects,
    serializeSceneData v'
    = Normal (Some (SceneDataOf (Some objects)
                      (Some (map_to_list (partData v'))))).
Proof.
  intros Hcol v'.
  destruct (loaded_materials src gltf v) as (model & Hsat & Hmats).
  fold v' in Hsat. unfold serializeSceneData. rewrite Hsat.
  rewrite serializeObjects_ok; [eexists; reflexivity|].
  apply List.Forall_forall. intros child Hchild.
  apply List.Forall_forall. intros m Hm.
  destruct (in_mapped_materials _ _ _ child m Hmats Hchild Hm)
    as (o & Ho & Hmo).
  apply in_map_iff in Hmo as (m0 & <- & Hm0).
  apply loadedMaterial_colored. intros Hc. now apply (Hcol o m0).
Qed.

Lemma tagFace_keys fs : forall pd u,
  is_Some (fold_left tagFace fs pd !! u)
  <-> is_Some (pd !! u)
      \/ exists f, In f fs /\ named f = true /\ fst (fst f) = u.
Proof.
  induction fs as [|f fs IH]; intros pd u; simpl.
  - split; [now left|]. intros [H|(f & [] & _)]. exact H.
  - rewrite IH. unfold tagFace at 1. split.
    + intros [H|(g & Hg & Hn & Hu)].
      * destruct (named f) eqn:E; [|now left].
        destruct (decide (fst (fst f) = u)) as [Heq|Hne].
        -- right. exists f. now repeat split; [left|..].
        -- rewrite lookup_insert_ne in H by exact Hne. now left.
      * right. exists g. split; [now right|now split].
    + intros [H|(g & [<-|Hg] & Hn & Hu)].
      * left. destruct (named f); [|exact H].
        destruct (decide (fst (fst f) = u)) as [<-|Hne].
        -- rewrite lookup_insert_eq. eauto.
        -- now rewrite lookup_insert_ne by exact Hne.
      * left. rewrite Hn, <- Hu, lookup_insert_eq. eauto.
      * right. now exists g.
Qed.

(** X12. After one model has replaced another, the part data is that of
    the new model only: [loadModelByPath] and [loadModelFromFile] clear
    it, so what the callback of the load leaves has an entry for a uuid
    exactly if the new model has a mesh of that uuid with a name that is
    not blank.  Nothing of the old model is left. *)
Theorem part_data_is_of_the_new_model
        (src : source) (gltf : object3d) (v : viewer) (u : string) :
  src <> Startup ->
  let v' := modelLoaded src gltf (startLoad src v) in
  is_Some (partData v' !! u)
  <-> exists child, In child (traverse gltf)
                    /\ hasPartName child = true /\ uuid child = u.
Proof.
  intros Hsrc v'. subst v'.
  rewrite modelLoaded_partData.
  destruct (startLoad_replace src v Hsrc) as (_ & _ & Hpd). rewrite Hpd.
  rewrite tagFace_keys. split.
  - intros [H|(f & Hf & Hn & Hu)].
    + rewrite lookup_empty in H. now destruct H.
    + apply in_map_iff in Hf as (child & <- & Hc). exists child.
      split; [exact Hc|]. split; [exact Hn|exact Hu].
  - intros (child & Hc & Hn & Hu). right. exists (face child).
    split; [now apply in_map|]. now split.
Qed.

Lemma forallb_flat_map {A B} (p : B -> bool) (f : A -> list B) (l : list A) :
  (forall x, forallb p (f x) = true) -> forallb p (flat_map f l) = true.
Proof.
  intros H. induction l as [|x l IH]; [reflexivity|].
  simpl. now rewrite forallb_app, H, IH.
Qed.

Lemma keeps_textureLoads model : forallb keeps (textureLoads model) = true.
Proof.
  unfold textureLoads. apply forallb_flat_map. intros c.
  apply forallb_flat_map. intros m. now destruct (_ && _).
Qed.

Lemma keeps_closeEvents v : forallb keeps (closeEvents v) = true.
Proof.
  unfold closeEvents.
  now destruct (connectionLine (sel v)), (connectionMarker (sel v)).
Qed.

(** X13. Two loads that overlap.  When a second model is chosen before
    the first one has arrived, nothing is on display to remove; each of
    the two callbacks then adds its model to the scene and none removes
    or disposes anything, so both models are in the scene while the
    viewer refers to the one whose callback ran last. *)
Theorem overlapping_loads_add_both_models
        (first second : source) (gltf1 gltf2 : object3d) (v : viewer) :
  first <> Startup -> second <> Startup ->
  let v1 := startLoad first v in
  let v2 := modelLoaded second gltf2
              (modelLoaded first gltf1 (startLoad second v1)) in
  exists es,
    trace v2 = trace v1 ++ es
    /\ In (SceneAdd (uuid (root gltf1))) es
    /\ In (SceneAdd (uuid (root gltf2))) es
    /\ forallb keeps es = true
    /\ option_map (fun model => uuid (root model)) (satellite v2)
       = Some (uuid (root gltf2)).
Proof.
  intros H1 H2 v1 v2.
  destruct (startLoad_replace first v H1) as (Hsat1 & _ & _).
  fold v1 in Hsat1.
  destruct (startLoad_replace second v1 H2) as (_ & Htr & _).
  unfold replaceEvents in Htr. rewrite Hsat1 in Htr. cbn [app] in Htr.
  set (w := startLoad second v1) in *.
  destruct (modelLoaded_events first gltf1 w) as (z1 & E1).
  set (w1 := modelLoaded first gltf1 w) in *.
  destruct (modelLoaded_events second gltf2 w1) as (z2 & E2).
  fold v2 in E2. rewrite E1, Htr in E2. rewrite <- !app_assoc in E2.
  eexists. split; [exact E2|]. split; [|split; [|split]].
  - apply in_or_app. right. apply in_or_app. right.
    apply in_or_app. right. now left.
  - do 6 (apply in_or_app; right). apply in_or_app. right. now left.
  - rewrite !forallb_app, !keeps_textureLoads, keeps_closeEvents.
    now destruct first, second.
  - subst v2. rewrite modelLoaded_satellite. simpl.
    rewrite root_traverseMap. unfold tagPart.
    destruct (hasPartName _); simpl; f_equal; apply prepare_uuid.
Qed.

End WithLibrary.

End LoadedFacts.

Module LoadedExamples.
Import Scene State Viewer Loading SceneData LoadedFacts LoaderExamples Samples.

Local Open Scope R_scope.

Definition box : object3d -> vec3 := fun _ => Vec3 1 1 1.

(** The sample model arrives from a path of the menu: the texture load
    that is in the trace afterwards is the one for its panel material. *)
Lemma solar_texture_only_for_kept_materials_witness :
  let v := initialViewer 0 in
  let v' := modelLoaded box box fresh (fun _ _ => "100") (fun _ => "100")
              (ByPath "models/orion.gltf") orion v in
  exists o m,
    In o (traverse orion) /\ In m (meshMaterials o)
    /\ isCanonical m = true /\ mat_id m = 11%nat
    /\ In (mat_name m) panelMaterialNames.
Proof.
  intros v v'.
  destruct (solar_texture_only_for_kept_materials box box fresh
              (fun _ _ => "100") (fun _ => "100")
              (ByPath "models/orion.gltf") orion v texturePath 11)
    as [_ H].
  - destruct (modelLoaded_events box box fresh (fun _ _ => "100")
                (fun _ => "100") (ByPath "models/orion.gltf") orion v)
      as (z & E).
    eexists. split; [exact E|].
    apply in_or_app. left. unfold textureLoads.
    apply in_flat_map. eexists. split; [right; left; reflexivity|].
    left. reflexivity.
  - exact H.
Defined.

Lemma loaded_model_can_be_saved_witness :
  let v' := modelLoaded box box fresh (fun _ _ => "100") (fun _ => "100")
              Startup orion (initialViewer 0) in
  exists objects,
    serializeSceneData v'
    = Normal (Some (SceneDataOf (Some objects)
                      (Some (map_to_list (partData v'))))).
Proof.
  intros v'.
  apply (loaded_model_can_be_saved box box fresh (fun _ _ => "100")
           (fun _ => "100") Startup orion (initialViewer 0)).
  intros o m Ho Hm _.
  simpl in Ho. destruct Ho as [<-|[<-|[<-|[]]]]; simpl in Hm.
  - destruct Hm.
  - destruct Hm as [<-|[]]. discriminate.
  - destruct Hm as [<-|[]]. discriminate.
Defined.

Lemma part_data_is_of_the_new_model_witness :
  let v := withPartData (<["uuid-old" := PartInfo "Old" "Old part"]> ∅)
             (withSatellite (Some other) (initialViewer 0)) in
  let v' := modelLoaded box box fresh (fun _ _ => "100") (fun _ => "100")
              (ByPath "models/orion.gltf") orion
              (startLoad (ByPath "models/orion.gltf") v) in
  partData v' !! "uuid-old" = None /\ is_Some (partData v' !! "uuid-panel").
Proof.
  intros v v'. split.
  - apply eq_None_not_Some. intros H.
    apply (part_data_is_of_the_new_model box box fresh (fun _ _ => "100")
             (fun _ => "100") (ByPath "models/orion.gltf") orion v "uuid-old")
      in H as (child & Hc & _ & Hu); [|discriminate].
    simpl in Hc. destruct Hc as [<-|[<-|[<-|[]]]]; discriminate.
  - apply (part_data_is_of_the_new_model box box fresh (fun _ _ => "100")
             (fun _ => "100") (ByPath "models/orion.gltf") orion v "uuid-panel");
      [discriminate|].
    exists panel. split; [simpl; tauto|]. split; reflexivity.
Defined.

Lemma overlapping_loads_add_both_models_witness :
  let v1 := startLoad (ByPath "models/orion.gltf") (initialViewer 0) in
  let v2 := modelLoaded box box fresh (fun _ _ => "100") (fun _ => "100")
              (ByPath "models/other.gltf") other
              (modelLoaded box box fresh (fun _ _ => "100") (fun _ => "100")
                 (ByPath "models/orion.gltf") orion
                 (startLoad (ByPath "models/other.gltf") v1)) in
  exists es,
    trace v2 = trace v1 ++ es
    /\ In (SceneAdd "uuid-orion") es /\ In (SceneAdd "uuid-other") es
    /\ forallb keeps es = true.
Proof.
  intros v1 v2.
  destruct (overlapping_loads_add_both_models box box fresh
              (fun _ _ => "100") (fun _ => "100")
              (ByPath "models/orion.gltf") (ByPath "models/other.gltf")
              orion other (initialViewer 0))
    as (es & Htr & Ha & Hb & Hk & _); [discriminate|discriminate|].
  exists es. repeat split; assumption.
Defined.

(** The colour texture of the panel of the sample model, which no other
    slot holds, is configured for its slot.  The texture of the hull is
    written to for the colour map first and for the normal map last: the
    colour map shows it without a colour space and marked as a data
    texture. *)
Lemma loaded_textures_are_configured_witness :
  (exists model child m t,
     satellite (modelLoaded box box fresh (fun _ _ => "100") (fun _ => "100")
                  Startup orion (initialViewer 0)) = Some model
     /\ In child (traverse model) /\ In m (meshMaterials child)
     /\ mat_maps m map_ = Some t
     /\ tex_id t = 7%nat
     /\ tex_colorSpace t = SRGBColorSpace
     /\ tex_isColorTexture t = Some true)
  /\ (exists model child m t,
        satellite (modelLoaded box box fresh (fun _ _ => "100")
                     (fun _ => "100") Startup hull (initialViewer 0))
        = Some model
        /\ In child (traverse model) /\ In m (meshMaterials child)
        /\ mat_maps m map_ = Some t
        /\ tex_id t = 7%nat
        /\ tex_colorSpace t = NoColorSpace
        /\ tex_isColorTexture t = Some false
        /\ tex_repeat t = true).
Proof.
  split.
  - destruct (loaded_textures_are_configured box box fresh (fun _ _ => "100")
                (fun _ => "100") Startup orion (initialViewer 0))
      as (model & Hs & H).
    assert (Hp : exists child m t,
               In child (traverse model) /\ In m (meshMaterials child)
               /\ mat_maps m map_ = Some t /\ tex_id t = 7%nat).
    { vm_compute in Hs. injection Hs as <-.
      eexists. eexists. eexists.
      split; [right; left; reflexivity|].
      split; [left; reflexivity|]. split; reflexivity. }
    destruct Hp as (child & m & t & Hc & Hm & Ht & Hid).
    exists model, child, m, t.
    destruct (H child m map_ t Hc Hm Ht) as (_ & _ & _ & _ & _ & _ & _ & Hk).
    destruct Hk as [Hcs Hfl].
    + intros k' (o & m0 & t0 & Ho & Hm0 & Ht0 & Hid0). rewrite Hid in Hid0.
      simpl in Ho. destruct Ho as [<-|[<-|[<-|[]]]]; simpl in Hm0.
      * destruct Hm0.
      * destruct Hm0 as [<-|[]]. destruct k'; try discriminate; reflexivity.
      * destruct Hm0 as [<-|[]]. destruct k'; discriminate.
    + repeat split; assumption.
  - destruct (loaded_textures_are_configured box box fresh (fun _ _ => "100")
                (fun _ => "100") Startup hull (initialViewer 0))
      as (model & Hs & H).
    assert (Hp : exists child m t,
               In child (traverse model) /\ In m (meshMaterials child)
               /\ mat_maps m map_ = Some t /\ tex_id t = 7%nat
               /\ tex_colorSpace t = NoColorSpace
               /\ tex_isColorTexture t = Some false).
    { vm_compute in Hs. injection Hs as <-.
      eexists. eexists. eexists.
      split; [left; reflexivity|].
      split; [left; reflexivity|]. repeat split. }
    destruct Hp as (child & m & t & Hc & Hm & Ht & Hid & Hcs & Hfl).
    exists model, child, m, t.
    destruct (H child m map_ t Hc Hm Ht) as (_ & _ & Hr & _).
    repeat split; assumption.
Defined.

End LoadedExamples.

(* ------------------------------------------------------------------ *)
(** ** Scene data: errors, foreign data and what is never written *)

Module SceneDataEdges.
Import Scene State Hex SceneData Loading StateFacts HexFacts TraverseFacts
       SceneDataFacts RoundTrip.

Local Open Scope R_scope.

Definition colorError : string := "TypeError: material.color is undefined".

Lemma collect_cases ms : forall index,
  (Forall colored ms
   /\ collect serializeMaterial index ms = Normal (savedMaterials index ms))
  \/ ((exists m, In m ms /\ mat_color m = None)
      /\ collect serializeMaterial index ms = Throw colorError).
Proof.
  induction ms as [|m ms IH]; intros index; simpl.
  - left. split; [constructor|reflexivity].
  - unfold serializeMaterial at 1 3.
    destruct (mat_color m) as [c|] eqn:Ec.
    + destruct (IH (S index)) as [[Hall E]|[(m' & Hin & Hc) E]]; rewrite E.
      * left. split.
        -- constructor; [unfold colored; congruence|exact Hall].
        -- unfold savedMaterial. now rewrite Ec.
      * right. split; [|reflexivity]. exists m'. split; [now right|exact Hc].
    + right. split; [|reflexivity]. exists m. split; [now left|exact Ec].
Qed.

Lemma serializeObjects_cases l :
  (Forall (fun o => Forall colored (meshMaterials o)) l
   /\ serializeObjects l = Normal (flat_map saved l))
  \/ ((exists o m, In o l /\ In m (meshMaterials o) /\ mat_color m = None)
      /\ serializeObjects l = Throw colorError).
Proof.
  induction l as [|o l IH]; simpl.
  - left. split; [constructor|reflexivity].
  - assert (Ho : (Forall colored (meshMaterials o)
                  /\ serializeObject o = Normal (saved o))
                 \/ ((exists m, In m (meshMaterials o) /\ mat_color m = None)
                     /\ serializeObject o = Throw colorError)).
    { unfold serializeObject, meshMaterials, saved.
      destruct (isMesh o); [|left; split; [constructor|reflexivity]].
      destruct (materialOf o) as [slot|];
        [|left; split; [constructor|reflexivity]].
      destruct (collect_cases (materialsOf slot) 0) as [[Hall E]|[Hex E]];
        rewrite E; [left|right]; split; (assumption || reflexivity). }
    destruct Ho as [[Hall E]|[(m & Hm & Hc) E]]; rewrite E.
    + destruct IH as [[Hall' E']|[(o' & m & Hin & Hm & Hc) E']]; rewrite E'.
      * left. split; [now constructor|reflexivity].
      * right. split; [|reflexivity]. exists o', m. split; [now right|now split].
    + right. split; [|reflexivity]. exists o, m. split; [now left|now split].
Qed.

(** X14. [serializeSceneData] throws exactly when some material of a mesh
    of the model has no colour; the error is then the [TypeError] of the
    call [material.color.getHexString()].  Otherwise it returns data. *)
Theorem serializeSceneData_throws_iff (v : viewer) (model : object3d) :
  satellite v = Some model ->
  (serializeSceneData v = Throw colorError
   <-> exists o m, In o (traverse model) /\ In m (meshMaterials o)
                   /\ mat_color m = None)
  /\ ((exists sd, serializeSceneData v = Normal (Some sd))
      \/ serializeSceneData v = Throw colorError).
Proof.
  intros Hs. unfold serializeSceneData. rewrite Hs.
  destruct (serializeObjects_cases (traverse model))
    as [[Hall E]|[Hex E]]; rewrite E.
  - split; [|left; eauto]. split; [discriminate|].
    intros (o & m & Ho & Hm & Hc). exfalso.
    apply (proj1 (List.Forall_forall _ _)) with (x := o) in Hall; [|exact Ho].
    apply (proj1 (List.Forall_forall _ _)) with (x := m) in Hall; [|exact Hm].
    now apply Hall.
  - split; [|now right]. split; [intros _; exact Hex|reflexivity].
Qed.

Section Restore.
Variable floorNumber : string -> Z.

Local Abbreviation restoreMaterial := (restoreMaterial floorNumber).
Local Abbreviation restoreMaterials := (restoreMaterials floorNumber).
Local Abbreviation restoreObject := (restoreObject floorNumber).
Local Abbreviation restoreAll := (restoreAll floorNumber).
Local Abbreviation deserializeSceneData := (deserializeSceneData floorNumber).



(** What identifies a material and an object, and what restoring never
    writes. *)
Definition matFrame (m : material) :=
  (mat_id m, mat_uuid m, mat_name m, mat_type m, mat_depthWrite m,
   mat_envMapIntensity m, List.map (mat_maps m) textureMaps).

Definition slotFrame (slot : materialSlot) :=
  (match slot with One _ => true | Many _ => false end,
   List.map matFrame (materialsOf slot)).

Definition objFrame (o : obj) :=
  (uuid o, name o, isMesh o, castShadow o, geometry o, userData_partInfo o,
   option_map slotFrame (materialOf o)).

Lemma restoreMaterial_frame md m :
  matFrame (fst (fst (restoreMaterial md m))) = matFrame m.
Proof.
  unfold SceneData.restoreMaterial.
  destruct (truthy (md_color md)), (mat_color m); try reflexivity;
    cbn [withColors withSurface mat_emissive];
    destruct (truthy (md_emissive md)), (mat_emissive m); reflexivity.
Qed.

Lemma alterNth_frame md i ms :
  List.map matFrame (fst (fst (alterNth (restoreMaterial md) i ms)))
  = List.map matFrame ms.
Proof.
  revert i. induction ms as [|m ms IH]; intros [|i]; simpl; try reflexivity.
  - pose proof (restoreMaterial_frame md m) as H.
    destruct (restoreMaterial md m) as [[m' es] ok]. simpl in *. now rewrite H.
  - specialize (IH i).
    destruct (alterNth (restoreMaterial md) i ms) as [[ms' es] ok].
    simpl in *. now rewrite IH.
Qed.

Lemma onMaterialAt_frame md slot :
  slotFrame (fst (fst (onMaterialAt (md_index md) (restoreMaterial md) slot)))
  = slotFrame slot.
Proof.
  unfold onMaterialAt, slotFrame. destruct slot as [m|ms].
  - destruct (md_index md); [|reflexivity].
    pose proof (restoreMaterial_frame md m) as H.
    destruct (restoreMaterial md m) as [[m' es] ok]. simpl in *. now rewrite H.
  - pose proof (alterNth_frame md (md_index md) ms) as H.
    destruct (alterNth (restoreMaterial md) (md_index md) ms) as [[ms' es] ok].
    simpl in *. now rewrite H.
Qed.

Lemma restoreMaterials_frame mds : forall o,
  objFrame (fst (fst (restoreMaterials mds o))) = objFrame o.
Proof.
  induction mds as [|md mds IH]; intros o; simpl; [reflexivity|].
  destruct (materialOf o) as [slot|] eqn:Hslot; [|reflexivity].
  pose proof (onMaterialAt_frame md slot) as H.
  destruct (onMaterialAt (md_index md) (restoreMaterial md) slot)
    as [[slot' es] ok].
  simpl in H.
  assert (Hset : objFrame (setMaterial (Some slot') o) = objFrame o).
  { unfold objFrame. cbn [setMaterial uuid name isMesh castShadow geometry
      userData_partInfo materialOf option_map]. now rewrite Hslot, H. }
  destruct ok; [|exact Hset].
  specialize (IH (setMaterial (Some slot') o)).
  destruct (restoreMaterials mds (setMaterial (Some slot') o))
    as [[o' es'] ok'].
  simpl in *. now rewrite IH.
Qed.

Lemma restoreObject_frame od o :
  objFrame (fst (fst (restoreObject od o))) = objFrame o.
Proof.
  unfold SceneData.restoreObject.
  destruct (materialOf o) as [slot|] eqn:Hslot; [|reflexivity].
  rewrite restoreMaterials_frame.
  destruct (od_position od), (od_rotation od), (od_scale od), (od_visible od);
    reflexivity.
Qed.

Lemma map_alter_same {A B} (f : A -> B) (l : list A) i a a' :
  l !! i = Some a -> f a' = f a ->
  List.map f (alter (fun _ => a') i l) = List.map f l.
Proof.
  revert i. induction l as [|x l IH]; intros [|i] Hi Hf; simpl in *;
    try discriminate.
  - injection Hi as ->. now rewrite Hf.
  - f_equal. now apply IH.
Qed.

Lemma runL_frame om ods : forall l,
  List.map objFrame (fst (runL floorNumber om ods l)) = List.map objFrame l.
Proof.
  induction ods as [|od ods IH]; intros l; simpl; [reflexivity|].
  unfold stepL. destruct (om !! od_uuid od) as [i|]; [|apply IH].
  destruct (l !! i) as [o|] eqn:Hi; [|apply IH].
  pose proof (restoreObject_frame od o) as H.
  destruct (restoreObject od o) as [[o' es] ok]. simpl in H.
  destruct ok; [rewrite IH|simpl]; now apply (map_alter_same objFrame l i o).
Qed.

Lemma restoreAll_partData om ods : forall v,
  partData (fst (restoreAll om ods v)) = partData v.
Proof.
  induction ods as [|od ods IH]; intros v; simpl; [reflexivity|].
  unfold restoreOne.
  destruct (satellite v) as [model|]; [|apply IH].
  destruct (om !! od_uuid od) as [i|]; [|apply IH].
  destruct (traverse model !! i) as [o|]; [|apply IH].
  destruct (restoreObject od o) as [[o' es] ok].
  destruct ok; [rewrite IH|]; simpl; now rewrite emits_eq.
Qed.

(** X16. Whatever data it is given, [deserializeSceneData] leaves the
    structure of the model alone, also when it stops on an error: the
    objects of the traversal, their uuids, names, geometries and shadow
    flags, the number of materials of each mesh and whether they come as
    an array, and of every material its identity, uuid, name, type and
    the textures in its six slots are what they were. *)
Theorem deserializeSceneData_keeps_structure
        (sceneData : option sceneData) (v : viewer) (model : object3d) :
  satellite v = Some model ->
  exists model',
    satellite (fst (deserializeSceneData sceneData v)) = Some model'
    /\ List.map objFrame (traverse model') = List.map objFrame (traverse model).
Proof.
  intros Hs. unfold SceneData.deserializeSceneData.
  destruct sceneData as [sd|]; [|now exists model].
  rewrite Hs.
  set (v1 := match sd_partData sd with Some _ => _ | None => v end).
  assert (Hs1 : satellite v1 = Some model)
    by (subst v1; now destruct (sd_partData sd)).
  destruct (sd_objects sd) as [objects|]; [|now exists model].
  destruct (restoreAll_traverse floorNumber (objectMap model) objects v1 model Hs1)
    as (model' & Hsat & Hrun).
  pose proof (runL_frame (objectMap model) objects (traverse model)) as Hf.
  rewrite Hrun in Hf. simpl in Hf.
  destruct (restoreAll (objectMap model) objects v1) as [v2 ok].
  simpl in Hsat. exists model'. split; [|exact Hf].
  now destruct ok.
Qed.

Lemma fold_insert_union (entries : list (string * partInfo)) :
  forall pd : gmap string partInfo,
    NoDup (List.map fst entries) ->
    fold_left (fun pd e => <[fst e := snd e]> pd) entries pd
    = list_to_map entries ∪ pd.
Proof.
  induction entries as [|[k x] entries IH]; intros pd Hnd; simpl.
  - now rewrite (left_id_L ∅ (∪)).
  - simpl in Hnd. apply NoDup_cons in Hnd as [Hk Hnd].
    rewrite IH by exact Hnd.
    assert (Hnone : (list_to_map entries : gmap string partInfo) !! k = None).
    { apply not_elem_of_list_to_map_1. exact Hk. }
    apply map_eq. intros j. rewrite !lookup_union.
    destruct (decide (j = k)) as [->|Hne].
    + rewrite Hnone, !lookup_insert_eq. simpl.
      now destruct (pd !! k).
    + now rewrite !lookup_insert_ne by congruence.
Qed.

(** X17. The part data comes back.  Reading the data that
    [serializeSceneData] has saved of a viewer puts every saved entry of
    the part data into the part data of the reading viewer, where it
    replaces an entry under the same uuid; the other entries of the
    reading viewer stay. *)
Theorem partData_is_restored (v0 v : viewer) (model : object3d) (sd : sceneData) :
  serializeSceneData v0 = Normal (Some sd) ->
  satellite v = Some model ->
  partData (fst (deserializeSceneData (Some sd) v)) = partData v0 ∪ partData v.
Proof.
  intros Hsaved Hs. unfold serializeSceneData in Hsaved.
  destruct (satellite v0) as [s|]; [|discriminate].
  destruct (serializeObjects (traverse s)) as [ods|e]; [|discriminate].
  injection Hsaved as <-.
  unfold SceneData.deserializeSceneData. rewrite Hs.
  cbn [sd_partData sd_objects].
  set (v1 := withPartData _ v).
  pose proof (restoreAll_partData (objectMap model) ods v1) as Hpd.
  destruct (restoreAll (objectMap model) ods v1) as [v2 ok].
  simpl in Hpd.
  assert (H1 : partData v1 = partData v0 ∪ partData v).
  { subst v1. cbn [partData withPartData].
    rewrite fold_insert_union.
    - now rewrite list_to_map_to_list.
    - exact (NoDup_fst_map_to_list (partData v0)). }
  destruct ok; simpl; now rewrite Hpd.
Qed.

End Restore.

End SceneDataEdges.

Module SceneDataEdgeExamples.
Import Scene State Viewer SceneData Loading SceneDataFacts SceneDataEdges Samples.

Local Open Scope R_scope.

Lemma serializeSceneData_throws_iff_witness :
  let v := withSatellite (Some orion) (initialViewer 0) in
  exists sd, serializeSceneData v = Normal (Some sd).
Proof.
  intros v.
  destruct (serializeSceneData_throws_iff v orion eq_refl) as [Hiff [H|H]].
  - exact H.
  - exfalso. apply Hiff in H as (o & m & Ho & Hm & Hc).
    simpl in Ho. destruct Ho as [<-|[<-|[<-|[]]]]; simpl in Hm.
    + destruct Hm.
    + destruct Hm as [<-|[]]. discriminate.
    + destruct Hm as [<-|[]]. discriminate.
Defined.


(** The sample model is on display and the data moves and hides its
    panel. *)
Lemma deserializeSceneData_keeps_structure_witness :
  let v := withSatellite (Some orion) (initialViewer 0) in
  let od := ObjectData "uuid-panel" "Panel_01" (Some (Vec3 9 9 9)) None None
              (Some false) [] in
  exists model',
    satellite (fst (deserializeSceneData (fun _ => 0%Z)
                      (Some (SceneDataOf (Some [od]) None)) v)) = Some model'
    /\ List.map objFrame (traverse model') = List.map objFrame (traverse orion).
Proof.
  intros v od.
  exact (deserializeSceneData_keeps_structure (fun _ => 0%Z)
           (Some (SceneDataOf (Some [od]) None)) v orion eq_refl).
Defined.

(** The sample model with an entry for its panel is saved; the data is
    read by a viewer that has an entry for the shield. *)
Lemma partData_is_restored_witness :
  let v0 := withPartData (<["uuid-panel" := PartInfo "Solar Arrays" "Saved"]> ∅)
              (withSatellite (Some orion) (initialViewer 0)) in
  let v := withPartData (<["uuid-shield" := PartInfo "Crew Module" "Kept"]> ∅)
             (withSatellite (Some orion) (initialViewer 0)) in
  exists sd,
    serializeSceneData v0 = Normal (Some sd)
    /\ partData (fst (deserializeSceneData (fun _ => 0%Z) (Some sd) v))
       = partData v0 ∪ partData v.
Proof.
  intros v0 v.
  assert (Hsd : serializeSceneData v0
                = Normal (Some (SceneDataOf
                                  (Some (flat_map saved (traverse orion)))
                                  (Some (map_to_list (partData v0)))))).
  { unfold serializeSceneData. cbn [satellite v0 withSatellite withPartData].
    rewrite serializeObjects_ok; [reflexivity|].
    repeat constructor; discriminate. }
  eexists. split; [exact Hsd|].
  exact (partData_is_restored (fun _ => 0%Z) v0 v orion _ Hsd eq_refl).
Defined.

End SceneDataEdgeExamples.

(* ------------------------------------------------------------------ *)
(** ** Settings: what the listeners leave alone, and the round trip of
       the controls and the panels *)

Module SettingsRoundTrip.
Import Scene State Viewer Loading SceneData Settings Saving StateFacts
       PageFacts SwingFacts.

Local Open Scope R_scope.

(** The values of the controls and the class lists of the page. *)
Definition forms (v : viewer) : gmap string string * gset (string * string) :=
  (values (dom v), classes (dom v)).

(** The class list after [if (x !== undefined) { if (x) add else remove }]. *)
Definition collapse (x : option jsval) (id : string)
           (cs : gset (string * string)) : gset (string * string) :=
  match x with
  | None => cs
  | Some _ => if truthyVal x then cs ∪ {[ (id, "collapsed") ]}
              else cs ∖ {[ (id, "collapsed") ]}
  end.

Definition collapseToggle (x : option jsval)
           (cs : gset (string * string)) : gset (string * string) :=
  match x with
  | None => cs
  | Some _ =>
      if truthyVal x
      then cs ∪ {[ (rightPanelId, "collapsed") ]}
              ∪ {[ (rightPanelToggleId, "panel-collapsed") ]}
      else cs ∖ {[ (rightPanelId, "collapsed") ]}
              ∖ {[ (rightPanelToggleId, "panel-collapsed") ]}
  end.

Lemma has_collapse b id p cs :
  bool_decide (p ∈ collapse (Some (JBool b)) id cs)
  = if bool_decide (p = (id, "collapsed")) then b else bool_decide (p ∈ cs).
Proof.
  unfold collapse. cbn [truthyVal].
  destruct b; repeat case_bool_decide; set_solver.
Qed.

Lemma has_collapseToggle b p cs :
  bool_decide (p ∈ collapseToggle (Some (JBool b)) cs)
  = if bool_decide (p = (rightPanelId, "collapsed"))
    then b
    else if bool_decide (p = (rightPanelToggleId, "panel-collapsed"))
         then b else bool_decide (p ∈ cs).
Proof.
  unfold collapseToggle. cbn [truthyVal].
  destruct b; repeat case_bool_decide; set_solver.
Qed.

Section WithPage.
Variable numberToString : R -> string.
Variable toFixed : nat -> R -> string.
Variable parseFloat : string -> R.
Variable floorNumber : string -> Z.
Variable controlValue : string -> string -> string.
Variable localToWorld : string -> vec3 -> vec3.
Variable placePopup : option object3d -> string -> vec3 -> string * string * vec3.

Local Abbreviation listeners := (listeners toFixed parseFloat floorNumber).
Local Abbreviation dispatchEvent := (dispatchEvent toFixed parseFloat floorNumber).
Local Abbreviation assign :=
  (assign numberToString toFixed parseFloat floorNumber controlValue).
Local Abbreviation whenTruthy :=
  (whenTruthy numberToString toFixed parseFloat floorNumber controlValue).
Local Abbreviation whenDefined :=
  (whenDefined numberToString toFixed parseFloat floorNumber controlValue).
Local Abbreviation applySettings :=
  (applySettings numberToString toFixed parseFloat floorNumber controlValue).
Local Abbreviation animate := (animate localToWorld placePopup).

(** The values after [if (x) { control.value = x; ... }] (with
    [truthyOnly]) and [if (x !== undefined) { control.value = x; ... }]. *)
Definition put (truthyOnly : bool) (x : option jsval) (id : string)
           (m : gmap string string) : gmap string string :=
  match x with
  | Some y =>
      if truthyOnly && negb (truthyVal x) then m
      else <[id := controlValue id (toText numberToString y)]> m
  | None => m
  end.

Definition putEnvironment (x : option jsval) (m : gmap string string)
  : gmap string string :=
  if truthyVal x then put true x "environment-type" m
  else <["environment-type" := controlValue "environment-type" "hdri"]> m.

(** No listener writes the value of a control or a class list. *)
Lemma listeners_keep_forms :
  Forall (fun l => forall v, forms (snd l v) = forms v) listeners.
Proof.
  unfold Settings.listeners.
  repeat (constructor; [simpl; intros v|]); try (now constructor);
    unfold forms, applyBackgroundType, applyEnvironmentType,
      slider, onAmbient, onDirectional, onFill, onPoint,
      setEnvironmentIntensity;
    repeat match goal with
           | |- context [if ?b then _ else _] => destruct b
           end;
    simpl; rewrite ?emits_eq; reflexivity.
Qed.

Lemma dispatchEvent_keeps_forms id type v :
  forms (dispatchEvent id type v) = forms v.
Proof.
  unfold Settings.dispatchEvent.
  generalize listeners_keep_forms. generalize listeners. intros ls Hls.
  revert v. induction Hls as [|l ls Hl _ IH]; intros v; simpl; [reflexivity|].
  rewrite IH. destruct (_ && _); [apply Hl|reflexivity].
Qed.

Lemma assign_forms id type x v :
  forms (assign id type x v)
  = (<[id := controlValue id (toText numberToString x)]> (fst (forms v)),
     snd (forms v)).
Proof. unfold Settings.assign. now rewrite dispatchEvent_keeps_forms. Qed.

Lemma whenTruthy_forms x id type v :
  forms (whenTruthy x id type v) = (put true x id (fst (forms v)), snd (forms v)).
Proof.
  unfold Settings.whenTruthy, put. destruct x as [y|]; [|reflexivity].
  destruct (truthyVal (Some y)); [apply assign_forms|reflexivity].
Qed.

Lemma whenDefined_forms x id type v :
  forms (whenDefined x id type v) = (put false x id (fst (forms v)), snd (forms v)).
Proof.
  unfold Settings.whenDefined, put. destruct x as [y|]; [|reflexivity].
  apply assign_forms.
Qed.

Lemma panelState_forms x id v :
  forms (panelState x id v) = (fst (forms v), collapse x id (snd (forms v))).
Proof.
  unfold panelState, collapse. destruct x as [y|]; [|reflexivity].
  now destruct (truthyVal (Some y)).
Qed.

(** The values and the class lists after [applySettings]. *)
Lemma applySettings_forms st v :
  forms (applySettings (Some st) v)
  = (put false (envIntensity st) "env-intensity"
       (putEnvironment (environmentType st)
          (put true (pointColor st) "point-color"
             (put false (pointIntensity st) "point-intensity"
                (put true (fillColor st) "fill-color"
                   (put false (fillIntensity st) "fill-intensity"
                      (put false (directionalZ st) "directional-z"
                         (put false (directionalY st) "directional-y"
                            (put false (directionalX st) "directional-x"
                               (put true (directionalColor st) "directional-color"
                                  (put false (directionalIntensity st)
                                     "directional-intensity"
                                     (put true (ambientColor st) "ambient-color"
                                        (put false (ambientIntensity st)
                                           "ambient-intensity"
                                           (put false (backgroundIntensity_ st)
                                              "background-intensity"
                                              (put true (backgroundColor st)
                                                 "background-color"
                                                 (put true (backgroundType st)
                                                    "background-type"
                                                    (values (dom v))))))))))))))))),
     collapseToggle (rightPanelCollapsed st)
       (collapse (outlinerPanelCollapsed st) "outliner-panel"
          (collapse (lightingPanelCollapsed st) "lighting-panel"
             (collapse (loadPanelCollapsed st) "load-panel"
                (classes (dom v)))))).
Proof.
  unfold Settings.applySettings. cbv zeta.
  change (forms (emit ?e ?w)) with (forms w).
  assert (Hright : forall w,
    forms match rightPanelCollapsed st with
          | Some _ =>
              if truthyVal (rightPanelCollapsed st)
              then onDom (fun d => addClass rightPanelToggleId "panel-collapsed"
                            (setText rightPanelToggleId "◄"
                               (addClass rightPanelId "collapsed" d))) w
              else onDom (fun d => removeClass rightPanelToggleId "panel-collapsed"
                            (setText rightPanelToggleId "►"
                               (removeClass rightPanelId "collapsed" d))) w
          | None => w
          end
    = (fst (forms w), collapseToggle (rightPanelCollapsed st) (snd (forms w)))).
  { intros w. unfold collapseToggle.
    destruct (rightPanelCollapsed st) as [y|]; [|reflexivity].
    now destruct (truthyVal (Some y)). }
  rewrite Hright, !panelState_forms. cbn [fst snd].
  assert (Hscene : forall w,
    forms match sceneData_ st with
          | Some _ => emit (SetTimeout 500 "deserializeSceneData") w
          | None => w
          end = forms w).
  { intros w. now destruct (sceneData_ st). }
  rewrite Hscene, whenDefined_forms. cbn [fst snd].
  assert (Henv : forall w,
    forms (if truthyVal (environmentType st)
           then whenTruthy (environmentType st) "environment-type" change w
           else assign "environment-type" change (JStr "hdri") w)
    = (putEnvironment (environmentType st) (fst (forms w)), snd (forms w))).
  { intros w. unfold putEnvironment.
    destruct (truthyVal (environmentType st)).
    - apply whenTruthy_forms.
    - apply assign_forms. }
  rewrite Henv. cbn [fst snd].
  repeat first [ rewrite whenTruthy_forms; cbn [fst snd]
               | rewrite whenDefined_forms; cbn [fst snd] ].
  reflexivity.
Qed.

(** The arrow on the toggle of the right panel after [applySettings]. *)
Lemma applySettings_toggle_text st v (b : bool) :
  rightPanelCollapsed st = Some (JBool b) ->
  getText rightPanelToggleId (dom (applySettings (Some st) v))
  = (if b then "◄" else "►").
Proof.
  intros Hb. unfold Settings.applySettings. cbv zeta.
  match goal with
  | |- context [panelState (outlinerPanelCollapsed st) "outliner-panel" ?w] =>
      generalize (panelState (outlinerPanelCollapsed st) "outliner-panel" w)
  end.
  intros w. rewrite Hb. cbn [truthyVal].
  destruct b; cbn [emit onDom withDom dom];
    rewrite ?getText_addClass, ?getText_removeClass; apply getText_setText.
Qed.

Lemma lookup_put_ne b x id id' m : id <> id' -> put b x id' m !! id = m !! id.
Proof.
  intros Hne. unfold put. destruct x as [y|]; [|reflexivity].
  destruct (_ && _); [reflexivity|]. now rewrite lookup_insert_ne by congruence.
Qed.

Lemma lookup_put_eq b s id m :
  s <> "" -> put b (Some (JStr s)) id m !! id = Some (controlValue id s).
Proof.
  intros Hs. unfold put. cbn [truthyVal toText].
  apply String.eqb_neq in Hs. rewrite Hs, andb_false_r.
  apply lookup_insert_eq.
Qed.

Lemma lookup_putEnvironment_ne x id m :
  id <> "environment-type" -> putEnvironment x m !! id = m !! id.
Proof.
  intros Hne. unfold putEnvironment. destruct (truthyVal x).
  - now apply lookup_put_ne.
  - now rewrite lookup_insert_ne by congruence.
Qed.

Lemma lookup_putEnvironment_eq s m :
  s <> "" ->
  putEnvironment (Some (JStr s)) m !! "environment-type"
  = Some (controlValue "environment-type" s).
Proof.
  intros Hs. unfold putEnvironment. cbn [truthyVal].
  pose proof Hs as Hs'. apply String.eqb_neq in Hs'. rewrite Hs'. cbn [negb].
  now apply lookup_put_eq.
Qed.

(** The controls whose values a settings file holds. *)
Definition controls : list string :=
  [ "background-type"; "background-color"; "background-intensity";
    "ambient-intensity"; "ambient-color";
    "directional-intensity"; "directional-color";
    "directional-x"; "directional-y"; "directional-z";
    "fill-intensity"; "fill-color"; "point-intensity"; "point-color";
    "environment-type"; "env-intensity" ].

Definition panels : list string :=
  [ "load-panel"; "lighting-panel"; "outliner-panel"; rightPanelId ].

(** X18. The round trip of the form controls.  Let the settings object
    that [saveSettings] builds of one viewer be applied to another one.
    Then every control of the lighting panel whose saved value is not
    the empty text reports what it reports once that saved value has been
    assigned to it; where the control reports the text that it was given,
    this is the value it had when the settings were saved. *)
Theorem saved_control_values_are_restored
        (v0 v : viewer) (st : settings) (id : string) :
  settingsToSave v0 = Normal st ->
  In id controls ->
  getValue id (dom v0) <> "" ->
  getValue id (dom (applySettings (Some st) v))
  = controlValue id (getValue id (dom v0)).
Proof.
  intros Hsaved Hid Hvalue.
  unfold settingsToSave in Hsaved.
  destruct (serializeSceneData v0) as [sd|e]; [|discriminate].
  injection Hsaved as <-.
  unfold getValue at 1.
  change (values (dom ?w)) with (fst (forms w)).
  rewrite applySettings_forms. cbn [fst].
  cbn [backgroundType backgroundColor backgroundIntensity_ ambientIntensity
       ambientColor directionalIntensity directionalColor directionalX
       directionalY directionalZ fillIntensity fillColor pointIntensity
       pointColor environmentType envIntensity].
  unfold valueOf.
  unfold controls in Hid. simpl in Hid.
  repeat (destruct Hid as [<-|Hid]);
    try (destruct Hid);
    rewrite ?lookup_put_ne by discriminate;
    rewrite ?lookup_putEnvironment_ne by discriminate;
    rewrite ?lookup_put_ne by discriminate;
    rewrite ?lookup_putEnvironment_eq by exact Hvalue;
    rewrite ?lookup_put_eq by exact Hvalue;
    reflexivity.
Qed.

(** X19. The round trip of the panel states.  With the settings object
    that [saveSettings] builds of one viewer applied to another one, each
    of the four panels is collapsed exactly if it was when the settings
    were saved, and the toggle of the right panel shows that state: it
    carries [panel-collapsed] and the left arrow when the panel is
    collapsed, and the right arrow when it is open. *)
Theorem saved_panel_states_are_restored (v0 v : viewer) (st : settings) :
  settingsToSave v0 = Normal st ->
  let v' := applySettings (Some st) v in
  (forall id, In id panels ->
     hasClass id "collapsed" (dom v') = hasClass id "collapsed" (dom v0))
  /\ hasClass rightPanelToggleId "panel-collapsed" (dom v')
     = hasClass rightPanelId "collapsed" (dom v0)
  /\ getText rightPanelToggleId (dom v')
     = (if hasClass rightPanelId "collapsed" (dom v0) then "◄" else "►").
Proof.
  intros Hsaved v'.
  unfold settingsToSave in Hsaved.
  destruct (serializeSceneData v0) as [sd|e]; [|discriminate].
  injection Hsaved as <-.
  assert (Hc : classes (dom v')
    = collapseToggle (collapsedOf rightPanelId v0)
        (collapse (collapsedOf "outliner-panel" v0) "outliner-panel"
           (collapse (collapsedOf "lighting-panel" v0) "lighting-panel"
              (collapse (collapsedOf "load-panel" v0) "load-panel"
                 (classes (dom v)))))).
  { change (classes (dom v')) with (snd (forms v')). subst v'.
    now rewrite applySettings_forms. }
  assert (Ht : getText rightPanelToggleId (dom v')
               = (if hasClass rightPanelId "collapsed" (dom v0)
                  then "◄" else "►")).
  { subst v'. apply applySettings_toggle_text. reflexivity. }
  split; [|split; [|exact Ht]].
  - intros id Hid. unfold hasClass at 1. rewrite Hc. unfold collapsedOf.
    rewrite has_collapseToggle, !has_collapse.
    unfold panels in Hid. simpl in Hid.
    destruct Hid as [<-|[<-|[<-|[<-|[]]]]];
      repeat case_bool_decide; simplify_eq; reflexivity.
  - unfold hasClass at 1. rewrite Hc. unfold collapsedOf.
    rewrite has_collapseToggle.
    repeat case_bool_decide; simplify_eq; reflexivity.
Qed.

(** The listener of a position slider of the directional light. *)
Lemma dispatch_position v :
  dispatchEvent "directional-x" input v
  = slider toFixed parseFloat "directional-x"
      (fun value => onDirectional (setX value)) v
  /\ dispatchEvent "directional-y" input v
     = slider toFixed parseFloat "directional-y"
         (fun value => onDirectional (setY value)) v
  /\ dispatchEvent "directional-z" input v
     = slider toFixed parseFloat "directional-z"
         (fun value => onDirectional (setZ value)) v.
Proof. repeat split. Qed.

Lemma swingLight_moved (f : vec3 -> vec3) l p angle :
  swingLight (option_map (fun li => setLightPosition (f (lightPosition li)) li) l)
    (Some p) angle
  = swingLight l (Some p) angle.
Proof. now destruct l. Qed.

(** X20. The position sliders of the directional light do not last while
    the rotation runs.  Whatever position the listener of
    [directional-x], [directional-y] or [directional-z] has just given to
    the light, the next frame puts the light where the oscillation wants
    it, from its initial position: the lights and the model after that
    frame are the same as if the slider had not been touched. *)
Theorem position_sliders_are_overridden
        (id : string) (currentTime : R) (v : viewer) (p : vec3) :
  In id ["directional-x"; "directional-y"; "directional-z"] ->
  isRotationPaused v = false ->
  initialDirectional (lamps v) = Some p ->
  let moved := dispatchEvent id input v in
  lamps (animate currentTime moved) = lamps (animate currentTime v)
  /\ satellite (animate currentTime moved) = satellite (animate currentTime v).
Proof.
  intros Hid Hrun Hinit moved.
  destruct (dispatch_position v) as (Hx & Hy & Hz).
  destruct (animate_pose localToWorld placePopup currentTime v) as [Hs Hl].
  destruct (animate_pose localToWorld placePopup currentTime moved)
    as [Hs' Hl'].
  cbv zeta in Hs, Hl, Hs', Hl'. rewrite Hs, Hl, Hs', Hl', Hrun.
  assert (Hmoved : exists f,
    moved = onDirectional (fun li => setLightPosition (f (lightPosition li)) li)
              (onDom (setText (id ++ "-value")%string
                        (toFixed 1%nat (parseFloat (getValue id (dom v))))) v)).
  { subst moved. simpl in Hid.
    destruct Hid as [<-|[<-|[<-|[]]]]; [rewrite Hx|rewrite Hy|rewrite Hz];
      unfold slider.
    - now exists (fun q => Vec3 (parseFloat (getValue "directional-x" (dom v)))
                             (vy q) (vz q)).
    - now exists (fun q => Vec3 (vx q)
                             (parseFloat (getValue "directional-y" (dom v)))
                             (vz q)).
    - now exists (fun q => Vec3 (vx q) (vy q)
                             (parseFloat (getValue "directional-z" (dom v)))). }
  destruct Hmoved as [f ->].
  cbn [isRotationPaused rotationTime lastFrameTime satellite lamps
       onDirectional onDom withLamps withDom
       ambientLight directionalLight fillLight pointLight
       initialDirectional initialFill initialPoint].
  rewrite Hrun, Hinit, swingLight_moved. split; reflexivity.
Qed.

End WithPage.

End SettingsRoundTrip.

Module SettingsRoundTripExamples.
Import Scene State Viewer SceneData Settings Saving SettingsRoundTrip Samples.

Local Open Scope R_scope.

(** A viewer whose ambient intensity control reads 0.7 and whose right
    panel is open. *)
Definition tuned : viewer :=
  onDom (fun d => removeClass rightPanelId "collapsed"
                    (setValue "ambient-intensity" "0.7" d))
    (initialViewer 0).

Lemma tuned_saved : exists st, settingsToSave tuned = Normal st.
Proof. eexists. reflexivity. Qed.

Lemma saved_control_values_are_restored_witness :
  exists st,
    settingsToSave tuned = Normal st
    /\ getValue "ambient-intensity"
         (dom (applySettings (fun _ => "0.7") (fun _ _ => "0.7") parseDecimal
                 (fun _ => 0%Z) (fun _ text => text) (Some st)
                 (initialViewer 0)))
       = "0.7".
Proof.
  destruct tuned_saved as [st Hst]. exists st. split; [exact Hst|].
  apply (saved_control_values_are_restored (fun _ => "0.7") (fun _ _ => "0.7")
           parseDecimal (fun _ => 0%Z) (fun _ text => text)
           tuned (initialViewer 0) st "ambient-intensity" Hst).
  - simpl. tauto.
  - discriminate.
Defined.

Lemma saved_panel_states_are_restored_witness :
  exists st,
    settingsToSave tuned = Normal st
    /\ getText rightPanelToggleId
         (dom (applySettings (fun _ => "0.7") (fun _ _ => "0.7") parseDecimal
                 (fun _ => 0%Z) (fun _ text => text) (Some st)
                 (initialViewer 0)))
       = (if hasClass rightPanelId "collapsed" (dom tuned) then "◄" else "►").
Proof.
  destruct tuned_saved as [st Hst]. exists st. split; [exact Hst|].
  destruct (saved_panel_states_are_restored (fun _ => "0.7") (fun _ _ => "0.7")
              parseDecimal (fun _ => 0%Z) (fun _ text => text)
              tuned (initialViewer 0) st Hst) as (_ & _ & H).
  exact H.
Defined.

Lemma position_sliders_are_overridden_witness :
  let frame := animate (fun _ p => p) (fun _ _ p => ("0px", "0px", p)) 16 in
  let moved := dispatchEvent (fun _ _ => "3.0") parseDecimal (fun _ => 0%Z)
                 "directional-x" input (initialViewer 0) in
  lamps (frame moved) = lamps (frame (initialViewer 0)).
Proof.
  intros frame moved.
  destruct (position_sliders_are_overridden (fun _ _ => "3.0") parseDecimal
              (fun _ => 0%Z) (fun _ p => p) (fun _ _ p => ("0px", "0px", p))
              "directional-x" 16 (initialViewer 0) (Vec3 (-5) 5 (-5)))
    as [H _].
  - simpl. tauto.
  - reflexivity.
  - reflexivity.
  - exact H.
Defined.

End SettingsRoundTripExamples.

(* ------------------------------------------------------------------ *)
(** ** The model viewer: shadows, the drop area and a successful drop *)

Module MonstersFacts.
Import Scene Monsters DropArea StateFacts.

Lemma castShadow_traverse gltf :
  traverse (traverseMap (fun object =>
              if isMesh object then setCastShadow true object else object) gltf)
  = List.map (fun object =>
                if isMesh object then setCastShadow true object else object)
      (traverse gltf).
Proof. apply traverse_traverseMap. Qed.

(** X21. What the callback of [load3dModel] does.  It adds the model to
    the scene first, and the objects of the model and their uuids stay.
    In a Rings project that is all: the model is as it came.  In a
    Monsters project [createModelActionsGUI] is called next, with the
    first clip of the file.  If the file has a clip, every mesh of the
    model casts a shadow afterwards, every other object is what it was,
    and the floor and the grid are added.  If the file has no clip, the
    call throws and the callback ends there: the model is in the scene as
    it came, no shadow is set and there is no floor. *)
Theorem load3dModel_shadows
        (projectType : projectType) (gltf : object3d) (animations : list nat) :
  let l := load3dModel_loaded projectType gltf animations in
  List.map uuid (traverse (loadedModel l)) = List.map uuid (traverse gltf)
  /\ match projectType, animations with
     | Rings, _ =>
         loadedModel l = gltf
         /\ loadedCalls l = [SceneAdd (uuid (root gltf))]
         /\ thrown l = None
     | Monsters, clip :: _ =>
         Forall (fun object => isMesh object = true -> castShadow object = true)
           (traverse (loadedModel l))
         /\ (forall k object,
               traverse gltf !! k = Some object -> isMesh object = false ->
               traverse (loadedModel l) !! k = Some object)
         /\ loadedCalls l = [SceneAdd (uuid (root gltf));
                             CreateModelActionsGUI (uuid (root gltf)) (Some clip);
                             SceneAddFloor; SceneAddGrid]
         /\ thrown l = None
     | Monsters, [] =>
         loadedModel l = gltf
         /\ loadedCalls l = [SceneAdd (uuid (root gltf));
                             CreateModelActionsGUI (uuid (root gltf)) None]
         /\ thrown l = Some clipError
     end.
Proof.
  destruct projectType; [destruct animations as [|clip animations]|];
    cbv zeta; unfold load3dModel_loaded, createModelActionsGUI;
    cbn [fst snd settingByProjectType isAnimate needShadow needFloor app
         createFloor head loadedModel loadedCalls thrown].
  - repeat split.
  - rewrite castShadow_traverse. split; [|split; [|split; [|split]]].
    + rewrite List.map_map. apply List.map_ext. intros o.
      now destruct (isMesh o).
    + apply List.Forall_forall. intros o Ho.
      apply in_map_iff in Ho as (o0 & <- & _).
      destruct (isMesh o0) eqn:E; [reflexivity|]. intros H. congruence.
    + intros k o Hk Hm.
      rewrite RoundTrip.lookup_map, Hk. simpl. now rewrite Hm.
    + reflexivity.
    + reflexivity.
  - repeat split.
Qed.

(** The entry of a form that an object built from it holds under a key:
    the last one with that key. *)
Definition lastEntry (key : string) (result : list (string * formValue))
  : option formValue :=
  fold_left (fun found kv => if String.eqb (fst kv) key then Some (snd kv)
                             else found) result None.

Lemma lookup_entries key (result : list (string * formValue)) :
  forall (o : gmap string formValue) found,
    o !! key = found ->
    fold_left (fun o kv => <[fst kv := snd kv]> o) result o !! key
    = fold_left (fun found kv => if String.eqb (fst kv) key then Some (snd kv)
                                 else found) result found.
Proof.
  induction result as [|[k x] result IH]; intros o found Ho; simpl; [exact Ho|].
  apply IH. destruct (String.eqb k key) eqn:E.
  - apply String.eqb_eq in E. subst k. apply lookup_insert_eq.
  - apply String.eqb_neq in E. now rewrite lookup_insert_ne.
Qed.

Definition isInitProject (c : call) : bool :=
  match c with InitProject _ _ _ => true | _ => false end.

(** The drop for which all succeeds: the request is answered, the answer
    is a form, the last entry of the form under [mesh] is a file, and the
    reader makes the data URL [model] of that file. *)
Definition succeeds (a : answers) (model : string) : Prop :=
  exists response result blob,
    fetched a = Fulfilled response
    /\ formData a response = Fulfilled result
    /\ lastEntry "mesh" result = Some (FormFile blob)
    /\ dataURL a blob = Some model.

(** The calls of a drop: for the one that succeeds the callback of the
    reader is reached, in which [canvas] is evaluated; for any other none
    of the calls is that of [initProject] or an error left uncaught. *)
Lemma handleDrop_cases a :
  (exists blob model,
     succeeds a model
     /\ handleDrop a
        = [Fetch "POST" endpoint; ReadAsDataURL blob;
           match canvas a with
           | Some c => InitProject c model Rings
           | None => Uncaught canvasError
           end])
  \/ ((forall model, ~ succeeds a model)
      /\ forall c, In c (handleDrop a) ->
                   match c with
                   | InitProject _ _ _ | Uncaught _ => False
                   | _ => True
                   end).
Proof.
  unfold handleDrop, succeeds.
  destruct (fetched a) as [response|e] eqn:Er.
  2:{ right. split.
      - intros model (r & res & b & H & _). discriminate.
      - intros c [<-|[<-|[]]]; exact I. }
  destruct (formData a response) as [result|e] eqn:Ef.
  2:{ right. split.
      - intros model (r & res & b & Hr & H & _). injection Hr as <-. congruence.
      - intros c [<-|[<-|[]]]; exact I. }
  rewrite (lookup_entries "mesh" result ∅ None) by apply lookup_empty.
  change (fold_left _ result None) with (lastEntry "mesh" result).
  assert (Hchain : forall (r : nat) res,
             Fulfilled response = Fulfilled r -> formData a r = Fulfilled res ->
             res = result).
  { intros r res Hr Hres. injection Hr as <-. congruence. }
  destruct (lastEntry "mesh" result) as [[text|blob]|] eqn:E.
  - right. split.
    + intros model (r & res & b & Hr & Hres & Hl & _).
      rewrite (Hchain r res Hr Hres) in Hl. congruence.
    + intros c [<-|[<-|[]]]; exact I.
  - destruct (dataURL a blob) as [url|] eqn:Eu.
    + left. exists blob, url. split.
      * now exists response, result, blob.
      * now destruct (canvas a).
    + right. split.
      * intros model (r & res & b & Hr & Hres & Hl & Hu).
        rewrite (Hchain r res Hr Hres) in Hl.
        assert (b = blob) by congruence. subst b. congruence.
      * intros c [<-|[<-|[]]]; exact I.
  - right. split.
    + intros model (r & res & b & Hr & Hres & Hl & _).
      rewrite (Hchain r res Hr Hres) in Hl. congruence.
    + intros c [<-|[<-|[]]]; exact I.
Qed.

Lemma succeeds_unique a model model' :
  succeeds a model -> succeeds a model' -> model = model'.
Proof.
  intros (r & res & b & Hr & Hres & Hl & Hu) (r' & res' & b' & Hr' & Hres' & Hl' & Hu').
  assert (r' = r) by congruence. subst r'.
  assert (res' = res) by congruence. subst res'.
  assert (b' = b) by congruence. subst b'. congruence.
Qed.

(** X22. A drop starts a project exactly when everything succeeds and the
    page has a global [canvas], which the module does not declare: the
    request is answered, the answer is a form, the last entry of the form
    under [mesh] is a file, and the reader makes a data URL of that file.
    [initProject] is then called with that canvas, that data URL and the
    project type Rings, once.  Where all succeeds on a page without such
    a global, the callback of the reader throws a ReferenceError that
    nothing catches, and [initProject] is not called; nor is it in any
    other case. *)
Theorem handleDrop_starts_project_iff
        (a : answers) (c : nat) (model : string) (p : projectType) :
  (In (InitProject c model p) (handleDrop a)
   <-> p = Rings /\ canvas a = Some c /\ succeeds a model)
  /\ (length (List.filter isInitProject (handleDrop a)) <= 1)%nat
  /\ (forall error,
        In (Uncaught error) (handleDrop a)
        <-> error = canvasError /\ canvas a = None
            /\ exists model', succeeds a model').
Proof.
  destruct (handleDrop_cases a) as [(blob & url & Hs & ->)|[Hno Hin]].
  - split; [|split].
    + split.
      * intros [H|[H|[H|[]]]]; try discriminate.
        destruct (canvas a) as [c'|]; [|discriminate].
        injection H as <- <- <-. now repeat split.
      * intros (-> & Hc & Hs'). rewrite Hc.
        rewrite (succeeds_unique a model url Hs' Hs). right. right. now left.
    + destruct (canvas a); simpl; lia.
    + intros error. split.
      * intros [H|[H|[H|[]]]]; try discriminate.
        destruct (canvas a) as [c'|]; [discriminate|].
        injection H as <-. split; [reflexivity|]. split; [reflexivity|].
        now exists url.
      * intros (-> & Hc & _). rewrite Hc. right. right. now left.
  - split; [|split].
    + split.
      * intros H. destruct (Hin _ H).
      * intros (_ & _ & Hs). destruct (Hno model Hs).
    + assert (H : List.filter isInitProject (handleDrop a) = []).
      { induction (handleDrop a) as [|x l IH]; [reflexivity|].
        specialize (Hin x (or_introl eq_refl)) as Hx. simpl.
        destruct x; try destruct Hx;
          (apply IH; intros y Hy; apply Hin; now right). }
      rewrite H. simpl. lia.
    + intros error. split.
      * intros H. destruct (Hin _ H).
      * intros (_ & _ & model' & Hs). destruct (Hno model' Hs).
Qed.

Definition entering (e : eventName) : bool :=
  match e with DragEnter | DragOver => true | DragLeave | Drop => false end.

Lemma dispatch_classes e classes :
  classList (dispatch e classes)
  = (if entering e then classes ∪ {[ "highlight" ]}
     else classes ∖ {[ "highlight" ]})
  /\ preventDefaultCalled (dispatch e classes) = true
  /\ stopPropagationCalled (dispatch e classes) = true.
Proof. now destruct e. Qed.

(** X23. The highlight of the drop area follows the last drag event.
    After any sequence of drag events on the drop area, the area carries
    the class [highlight] exactly if the last event was a [dragenter] or
    a [dragover] (and as it did at the start if there was no event); its
    other classes are what they were; and on every one of these events
    both [preventDefault] and [stopPropagation] have been called. *)
Theorem highlight_follows_last_event
        (es : list eventName) (classes : gset string) :
  ("highlight" ∈ after es classes
   <-> match last es with
       | Some e => entering e = true
       | None => "highlight" ∈ classes
       end)
  /\ (forall c, c <> "highlight" -> c ∈ after es classes <-> c ∈ classes)
  /\ (forall e cs, preventDefaultCalled (dispatch e cs) = true
                   /\ stopPropagationCalled (dispatch e cs) = true).
Proof.
  split; [|split].
  - revert classes. induction es as [|e es IH]; intros classes; [reflexivity|].
    unfold after in *. cbn [fold_left]. rewrite IH.
    destruct es as [|e' es'].
    + cbn [last]. destruct (dispatch_classes e classes) as [-> _].
      destruct (entering e); set_solver.
    + change (last (e :: e' :: es')) with (last (e' :: es')).
      destruct (last (e' :: es')) eqn:El; [reflexivity|].
      apply last_None in El. discriminate.
  - intros c Hc. revert classes.
    induction es as [|e es IH]; intros classes; [reflexivity|].
    unfold after in *. cbn [fold_left]. rewrite IH.
    destruct (dispatch_classes e classes) as [-> _].
    destruct (entering e); set_solver.
  - intros e cs. apply dispatch_classes.
Qed.

End MonstersFacts.

Module MonstersExamples.
Import Scene Monsters DropArea MonstersFacts Samples.

(** The server answers with a form that has two files under [mesh]; the
    reader makes a data URL of the second one.  On a page with a global
    [canvas] the project starts; on a page without one the error is left
    uncaught. *)
Definition twoFiles (canvas : option nat) : answers :=
  Answers canvas (Fulfilled 1%nat)
    (fun _ => Fulfilled [("mesh", FormFile 7%nat); ("mesh", FormFile 8%nat)])
    (fun blob => if Nat.eqb blob 8 then Some "data:model/gltf;base64,AAAA"
                 else None).

Lemma handleDrop_starts_project_iff_witness :
  In (InitProject 3 "data:model/gltf;base64,AAAA" Rings)
     (handleDrop (twoFiles (Some 3%nat)))
  /\ In (Uncaught canvasError) (handleDrop (twoFiles None))
  /\ ~ In (InitProject 3 "data:model/gltf;base64,AAAA" Rings)
         (handleDrop (twoFiles None)).
Proof.
  assert (Hs : forall canvas,
             succeeds (twoFiles canvas) "data:model/gltf;base64,AAAA").
  { intros canvas.
    exists 1%nat, [("mesh", FormFile 7%nat); ("mesh", FormFile 8%nat)], 8%nat.
    repeat split. }
  split; [|split].
  - apply (handleDrop_starts_project_iff (twoFiles (Some 3%nat)) 3
             "data:model/gltf;base64,AAAA" Rings).
    split; [reflexivity|]. split; [reflexivity|]. apply Hs.
  - apply (handleDrop_starts_project_iff (twoFiles None) 3
             "data:model/gltf;base64,AAAA" Rings).
    split; [reflexivity|]. split; [reflexivity|].
    exists "data:model/gltf;base64,AAAA". apply Hs.
  - intros H.
    apply (handleDrop_starts_project_iff (twoFiles None) 3
             "data:model/gltf;base64,AAAA" Rings) in H as (_ & Hc & _).
    discriminate Hc.
Defined.

(** The sample model in a Monsters project, from a file with a clip and
    from one without. *)
Lemma load3dModel_shadows_witness :
  (Forall (fun object => isMesh object = true -> castShadow object = true)
     (traverse (loadedModel (load3dModel_loaded Monsters orion [5%nat])))
   /\ thrown (load3dModel_loaded Monsters orion [5%nat]) = None)
  /\ (loadedModel (load3dModel_loaded Monsters orion []) = orion
      /\ thrown (load3dModel_loaded Monsters orion []) = Some clipError)
  /\ exists object, In object (traverse orion)
                    /\ isMesh object = true /\ castShadow object = false.
Proof.
  split; [|split].
  - destruct (load3dModel_shadows Monsters orion [5%nat]) as (_ & H & _ & _ & Ht).
    split; [exact H|exact Ht].
  - destruct (load3dModel_shadows Monsters orion []) as (_ & H & _ & Ht).
    split; [exact H|exact Ht].
  - exists panel. split; [right; left; reflexivity|]. split; reflexivity.
Defined.

(** A file is dragged over the area and leaves it again. *)
Lemma highlight_follows_last_event_witness :
  ("highlight" ∈ after [DragEnter; DragOver] ∅)
  /\ ("highlight" ∉ after [DragEnter; DragOver; DragLeave] {[ "drop-area" ]})
  /\ ("drop-area" ∈ after [DragEnter; DragOver; DragLeave] {[ "drop-area" ]}).
Proof.
  split; [|split].
  - destruct (highlight_follows_last_event [DragEnter; DragOver] ∅)
      as ([_ H] & _).
    apply H. reflexivity.
  - intros H.
    destruct (highlight_follows_last_event [DragEnter; DragOver; DragLeave]
                {[ "drop-area" ]}) as ([H' _] & _).
    apply H' in H. discriminate H.
  - destruct (highlight_follows_last_event [DragEnter; DragOver; DragLeave]
                {[ "drop-area" ]}) as (_ & H & _).
    apply H; [discriminate|]. apply elem_of_singleton. reflexivity.
Defined.

End MonstersExamples.

(* ------------------------------------------------------------------ *)
(** ** The URL modifier, the backdrop and the camera animation *)

Module ManagerFacts.
Import Manager.



End ManagerFacts.

Module ManagerExamples.
Import Manager ManagerFacts.


End ManagerExamples.

Module SkyFacts.
Import Sky.

Local Open Scope R_scope.

(** X25. The stars are transparent exactly when they are faded.  After
    [updateStarFieldIntensity], whatever the background intensity, the
    opacity of the star material is at most 1, the material is marked
    transparent exactly if its opacity is below 1, and the size of the
    stars is 0.1 times the intensity; a viewer without a star field
    stays without one. *)
Theorem stars_transparent_iff_faded
        (backgroundIntensity : R) (starField : option pointsMaterial) :
  match updateStarFieldIntensity backgroundIntensity starField with
  | Some m =>
      opacity m <= 1
      /\ (transparent m = true <-> opacity m < 1)
      /\ size m = 0.1 * backgroundIntensity
      /\ starField <> None
  | None => starField = None
  end.
Proof.
  unfold updateStarFieldIntensity. destruct starField as [m|]; [|reflexivity].
  cbn [opacity transparent size]. unfold Rmin.
  destruct (Rle_dec 1 backgroundIntensity) as [Hle|Hgt];
    destruct (Rlt_dec backgroundIntensity 1) as [Hlt|Hge];
    repeat split; try lra; try discriminate; intros; lra.
Qed.

(** X26. The background colour stays a colour.  With a colour control on
    the page whose colour has channels of at most 1, the background that
    [updateBackgroundColor] computes has channels of at most 1 whatever
    the background intensity; for an intensity between 0 and 1 and
    channels that are not negative nothing is clamped: each channel is
    the channel of the control times the intensity.  The previous
    background plays no part. *)
Theorem background_is_clamped
        (parseColor : string -> rgb) (value : string)
        (backgroundIntensity : R) (background : rgb) :
  r (parseColor value) <= 1 -> g (parseColor value) <= 1 ->
  b (parseColor value) <= 1 ->
  let color := updateBackgroundColor parseColor (Some value)
                 backgroundIntensity background in
  r color <= 1 /\ g color <= 1 /\ b color <= 1
  /\ (0 <= backgroundIntensity <= 1 ->
      0 <= r (parseColor value) -> 0 <= g (parseColor value) ->
      0 <= b (parseColor value) ->
      color = Rgb (r (parseColor value) * backgroundIntensity)
                  (g (parseColor value) * backgroundIntensity)
                  (b (parseColor value) * backgroundIntensity)).
Proof.
  intros Hr Hg Hb color. subst color. unfold updateBackgroundColor.
  destruct (parseColor value) as [cr cg cb]. cbn [r g b] in *.
  destruct (Req_dec_T backgroundIntensity 1) as [->|Hne]; cbn [r g b].
  - repeat split; try assumption. intros _ _ _ _. f_equal; lra.
  - repeat split; try apply Rmin_l.
    intros [H0 H1] Hr0 Hg0 Hb0.
    f_equal; apply Rmin_right; nra.
Qed.

End SkyFacts.

Module SkyExamples.
Import Sky SkyFacts.

Local Open Scope R_scope.

(** A grey control at one and a half times the intensity. *)
Lemma background_is_clamped_witness :
  let color := updateBackgroundColor (fun _ => Rgb 0.5 0.5 0.5) (Some "#808080")
                 1.5 (Rgb 0 0 0) in
  r color <= 1 /\ g color <= 1 /\ b color <= 1.
Proof.
  intros color.
  destruct (background_is_clamped (fun _ => Rgb 0.5 0.5 0.5) "#808080" 1.5
              (Rgb 0 0 0)) as (Hr & Hg & Hb & _); cbn [r g b]; try lra.
  repeat split; assumption.
Defined.

End SkyExamples.

Module CameraFacts.
Import Scene Camera.

Local Open Scope R_scope.

Lemma cube_le a b : 0 <= a <= b -> a ^ 3 <= b ^ 3.
Proof.
  intros [Ha Hab].
  assert (H : b ^ 3 - a ^ 3 = (b - a) * (b * b + a * b + a * a)) by ring.
  assert (0 <= (b - a) * (b * b + a * b + a * a)) by (apply Rmult_le_pos; nra).
  lra.
Qed.

Lemma easeInOut_monotone p q :
  0 <= p <= q -> q <= 1 -> easeInOut p <= easeInOut q.
Proof.
  intros [Hp Hpq] Hq. unfold easeInOut.
  destruct (Rlt_dec p 0.5) as [Hp5|Hp5], (Rlt_dec q 0.5) as [Hq5|Hq5].
  - nra.
  - assert (H : (-2 * q + 2) ^ 3 <= 1 ^ 3) by (apply cube_le; lra).
    assert (2 * p * p <= 1 / 2) by nra.
    lra.
  - lra.
  - assert (H : (-2 * q + 2) ^ 3 <= (-2 * p + 2) ^ 3) by (apply cube_le; lra).
    lra.
Qed.

Lemma easeOutCubic_monotone p q :
  0 <= p <= q -> q <= 1 -> easeOutCubic p <= easeOutCubic q.
Proof.
  intros [Hp Hpq] Hq. unfold easeOutCubic.
  assert (H : (1 - q) ^ 3 <= (1 - p) ^ 3) by (apply cube_le; lra).
  lra.
Qed.

Lemma ease_ends :
  easeInOut 0 = 0 /\ easeInOut 1 = 1
  /\ easeOutCubic 0 = 0 /\ easeOutCubic 1 = 1.
Proof.
  unfold easeInOut, easeOutCubic.
  destruct (Rlt_dec 0 0.5), (Rlt_dec 1 0.5); repeat split; lra.
Qed.

(** X27. The easings of the camera animation are progress functions:
    both start at 0, end at 1, never decrease and thus stay between 0
    and 1 while the progress runs from 0 to 1.  So the camera neither
    overshoots its target nor moves back on its way. *)
Theorem easing_never_overshoots (p q : R) :
  0 <= p <= q -> q <= 1 ->
  0 <= easeInOut p <= easeInOut q /\ easeInOut q <= 1
  /\ 0 <= easeOutCubic p <= easeOutCubic q /\ easeOutCubic q <= 1.
Proof.
  intros Hpq Hq. destruct ease_ends as (I0 & I1 & O0 & O1).
  pose proof (easeInOut_monotone 0 p) as H1.
  pose proof (easeInOut_monotone p q Hpq Hq) as H2.
  pose proof (easeInOut_monotone q 1) as H3.
  pose proof (easeOutCubic_monotone 0 p) as H4.
  pose proof (easeOutCubic_monotone p q Hpq Hq) as H5.
  pose proof (easeOutCubic_monotone q 1) as H6.
  rewrite I0 in H1. rewrite I1 in H3. rewrite O0 in H4. rewrite O1 in H6.
  repeat split; try assumption;
    first [apply H1|apply H3|apply H4|apply H6]; lra.
Qed.

Lemma lerpVectors_ends v1 v2 :
  lerpVectors v1 v2 0 = v1 /\ lerpVectors v1 v2 1 = v2.
Proof.
  unfold lerpVectors. destruct v1, v2. cbn [vx vy vz].
  split; f_equal; lra.
Qed.

Lemma progress_done elapsed duration :
  0 < duration -> duration <= elapsed -> Rmin (elapsed / duration) 1 = 1.
Proof.
  intros Hd He. apply Rmin_right.
  apply (Rmult_le_reg_r duration); [exact Hd|].
  unfold Rdiv. rewrite Rmult_assoc, Rinv_l by lra. lra.
Qed.

Lemma progress_running elapsed duration :
  0 < duration -> elapsed < duration -> Rmin (elapsed / duration) 1 < 1.
Proof.
  intros Hd He.
  assert (H : elapsed / duration < 1).
  { apply (Rmult_lt_reg_r duration); [exact Hd|].
    unfold Rdiv. rewrite Rmult_assoc, Rinv_l by lra. lra. }
  unfold Rmin. destruct (Rle_dec _ _); lra.
Qed.

(** X28. The camera animation of [showPartPreset] ends where it should.
    A call of [animateCamera] once the duration has passed (2.5 seconds
    for the exhaust preset, 1.5 for the other presets, 1.2 for the other
    parts) sets the camera exactly to its target (for the exhaust preset
    the end of its arc) and the target of the orbit controls exactly to
    the look-at point before it calls [controls.update()], and requests
    no further frame; a call before that requests another frame; and a
    call at the start time sets the camera to its start position and
    leaves the target of the controls where it is before that update.
    What [controls.update()] makes of the camera and the target is the
    library's; numbers are taken as reals. *)
Theorem camera_animation_ends_at_target
        (controlsUpdate : rig -> rig)
        (isExhaust : bool) (center : vec3) (distance : R)
        (startPosition targetPosition lookAtPoint : vec3)
        (elapsed : R) (rg : rig) :
  (presetDuration isExhaust <= elapsed ->
   animatePreset controlsUpdate isExhaust center distance startPosition
     targetPosition lookAtPoint elapsed rg
   = (controlsUpdate
        (Rig (if isExhaust then exhaustTarget center distance 1
              else targetPosition) lookAtPoint), false))
  /\ (1200 <= elapsed ->
      animateOther controlsUpdate startPosition targetPosition lookAtPoint
        elapsed rg
      = (controlsUpdate (Rig targetPosition lookAtPoint), false))
  /\ (elapsed < presetDuration isExhaust ->
      snd (animatePreset controlsUpdate isExhaust center distance startPosition
             targetPosition lookAtPoint elapsed rg) = true)
  /\ (elapsed < 1200 ->
      snd (animateOther controlsUpdate startPosition targetPosition lookAtPoint
             elapsed rg) = true)
  /\ (elapsed = 0 ->
      fst (animatePreset controlsUpdate isExhaust center distance startPosition
             targetPosition lookAtPoint elapsed rg)
      = controlsUpdate (Rig startPosition (controlsTarget rg))
      /\ fst (animateOther controlsUpdate startPosition targetPosition
                lookAtPoint elapsed rg)
         = controlsUpdate (Rig startPosition (controlsTarget rg))).
Proof.
  destruct ease_ends as (I0 & I1 & O0 & O1).
  assert (Hd : 0 < presetDuration isExhaust)
    by (unfold presetDuration; destruct isExhaust; lra).
  split; [|split; [|split; [|split]]].
  - intros He. unfold animatePreset. cbv zeta.
    rewrite (progress_done elapsed _ Hd He), I1.
    destruct (Rlt_dec 1 1) as [H|_]; [lra|].
    destruct (lerpVectors_ends (controlsTarget rg) lookAtPoint) as [_ ->].
    destruct isExhaust.
    + now destruct (lerpVectors_ends startPosition
                      (exhaustTarget center distance 1)) as [_ ->].
    + now destruct (lerpVectors_ends startPosition targetPosition) as [_ ->].
  - intros He. unfold animateOther. cbv zeta.
    rewrite (progress_done elapsed 1200) by lra. rewrite O1.
    destruct (Rlt_dec 1 1) as [H|_]; [lra|].
    destruct (lerpVectors_ends (controlsTarget rg) lookAtPoint) as [_ ->].
    now destruct (lerpVectors_ends startPosition targetPosition) as [_ ->].
  - intros He. unfold animatePreset. cbv zeta. cbn [snd].
    pose proof (progress_running elapsed _ Hd He).
    now destruct (Rlt_dec _ 1).
  - intros He. unfold animateOther. cbv zeta. cbn [snd].
    pose proof (progress_running elapsed 1200 ltac:(lra) He).
    now destruct (Rlt_dec _ 1).
  - intros ->. unfold animatePreset, animateOther. cbv zeta. cbn [fst].
    assert (Hp : forall d, 0 < d -> Rmin (0 / d) 1 = 0).
    { intros d Hd0. unfold Rdiv. rewrite Rmult_0_l. apply Rmin_left. lra. }
    rewrite (Hp _ Hd), (Hp 1200) by lra. rewrite I0, O0.
    destruct (lerpVectors_ends (controlsTarget rg) lookAtPoint) as [-> _].
    destruct (lerpVectors_ends startPosition targetPosition) as [-> _].
    split; [|reflexivity].
    destruct isExhaust; [|reflexivity].
    now destruct (lerpVectors_ends startPosition
                    (exhaustTarget center distance 0)) as [-> _].
Qed.

End CameraFacts.

Module CameraExamples.
Import Scene Camera CameraFacts.

Local Open Scope R_scope.

(** A third and two thirds of the way. *)
Lemma easing_never_overshoots_witness :
  0 <= easeInOut (1 / 3) <= easeInOut (2 / 3) /\ easeInOut (2 / 3) <= 1.
Proof.
  destruct (easing_never_overshoots (1 / 3) (2 / 3)) as (H1 & H2 & _);
    [lra|lra|].
  split; assumption.
Defined.

(** A preset other than the exhaust, three seconds after the start, and
    another part, half a second after the start; the controls keep the
    camera at a distance of at most 50 on each axis. *)
Lemma camera_animation_ends_at_target_witness :
  let start := Vec3 0 0 10 in
  let target := Vec3 3 2 1 in
  let lookAt := Vec3 1 1 1 in
  let rg := Rig start (Vec3 0 0 0) in
  let update := fun r : rig =>
    Rig (Vec3 (Rmin 50 (vx (cameraPosition r))) (Rmin 50 (vy (cameraPosition r)))
           (Rmin 50 (vz (cameraPosition r))))
        (controlsTarget r) in
  animatePreset update false lookAt 2 start target lookAt 3000 rg
  = (update (Rig target lookAt), false)
  /\ snd (animateOther update start target lookAt 500 rg) = true.
Proof.
  intros start target lookAt rg update. split.
  - destruct (camera_animation_ends_at_target update false lookAt 2 start target
                lookAt 3000 rg) as (H & _).
    apply H. unfold presetDuration. lra.
  - destruct (camera_animation_ends_at_target update false lookAt 2 start target
                lookAt 500 rg) as (_ & _ & _ & H & _).
    apply H. lra.
Defined.

End CameraExamples.

(* ------------------------------------------------------------------ *)
(** ** The characters of a formatted part name *)

Module PartNameChars.
Import Chars Regex Text PartName TextFacts PartNameFacts.

Definition noSep (c : ascii) : bool := negb (isSep c).

(** [replace(/[_-]/g, ' ')] leaves no underscore and no hyphen. *)
Lemma separators_replaced s : forall prev,
  forallb noSep (replaceFrom (Cls isSep) [space] prev 0 s) = true.
Proof.
  induction s as [|c t IH]; intros prev; [reflexivity|].
  cbn [replaceFrom]. unfold matchAt. cbn [rmatch].
  destruct (isSep c) eqn:E.
  - cbn [app forallb]. now rewrite IH.
  - cbn [forallb]. unfold noSep at 1. rewrite E. cbn [negb andb]. apply IH.
Qed.

Lemma applyRenames_forallb (P : ascii -> bool) s :
  Forall (fun rr => forallb P (str (snd rr)) = true) renames ->
  forallb P s = true -> forallb P (applyRenames s) = true.
Proof.
  unfold applyRenames. generalize renames as rs. intros rs Hrs. revert s.
  induction Hrs as [|rr rs Hrr _ IH]; intros s Hs; simpl.
  - exact Hs.
  - apply IH. now apply replaceAll_forallb.
Qed.

Lemma split_forallb (P : ascii -> bool) sep s :
  forallb P s = true ->
  Forall (fun w => forallb P w = true) (split sep s).
Proof.
  induction s as [|c t IH]; simpl; intros H.
  - repeat constructor.
  - apply andb_prop in H as [Hc Ht]. specialize (IH Ht).
    destruct (Ascii.eqb c sep).
    + constructor; [reflexivity|exact IH].
    + destruct (split sep t) as [|w ws'].
      * repeat constructor. simpl. now rewrite Hc.
      * inversion IH as [|? ? Hw Hws]; subst. constructor; [|exact Hws].
        simpl. now rewrite Hc, Hw.
Qed.

Lemma join_forallb (P : ascii -> bool) sep ws :
  P sep = true -> Forall (fun w => forallb P w = true) ws ->
  forallb P (join sep ws) = true.
Proof.
  intros Hsep H. induction H as [|w ws Hw Hws IH]; [reflexivity|].
  destruct ws as [|w' ws']; [exact Hw|].
  change (join sep (w :: w' :: ws')) with (w ++ sep :: join sep (w' :: ws')).
  rewrite forallb_app, Hw.
  change (forallb P (sep :: join sep (w' :: ws')))
    with (P sep && forallb P (join sep (w' :: ws'))).
  now rewrite Hsep, IH.
Qed.

(** What the steps after the first replacement keep. *)
Lemma format_tail (P : ascii -> bool) x :
  P space = true ->
  Forall (fun rr => forallb P (str (snd rr)) = true) renames ->
  forallb P x = true ->
  forallb P (join space
               (firstn 2 (uniqueLoop (split space
                                        (applyRenames
                                           (trim (replaceAll ws1 " " x))))
                            [] []))) = true.
Proof.
  intros Hspace Hrenames Hx.
  apply join_forallb; [exact Hspace|].
  apply Forall_firstn. apply uniqueLoop_Forall; [|constructor].
  apply split_forallb. apply applyRenames_forallb; [exact Hrenames|].
  apply trim_forallb. apply replaceAll_forallb; [|exact Hx].
  change (forallb P [space] = true). cbn [forallb]. now rewrite Hspace.
Qed.

(** X29. A formatted part name holds no underscore and no hyphen, and
    no white space other than the plain space, whatever the raw name of
    the mesh is. *)
Theorem formatPartName_has_no_separators (name : string) :
  forallb noSep (str (formatPartName name)) = true
  /\ forallb tidy (str (formatPartName name)) = true.
Proof.
  unfold formatPartName.
  destruct name as [|c s]; [now split|].
  unfold str at 1 3. rewrite !list_ascii_of_string_of_list_ascii.
  unfold formatChars. cbv zeta. split.
  - apply format_tail; [reflexivity|repeat constructor|].
    apply separators_replaced.
  - apply join_forallb; [reflexivity|].
    apply Forall_firstn. apply uniqueLoop_Forall; [|constructor].
    apply split_forallb. apply applyRenames_tidy. apply trim_forallb.
    apply collapse_tidy.
Qed.

End PartNameChars.

(* ------------------------------------------------------------------ *)
(** ** The colour picker of a material *)

Module OutlinerFacts.
Import Chars Scene Hex Outliner HexFacts.

(** The digits of the value of a colour input: the browser gives such an
    input a value of the form [#rrggbb] in lower case. *)
Definition lowerHex (c : ascii) : bool := isDigit c || inRange 97 102 c.

Local Open Scope Z_scope.

Lemma lowerHex_hexDigit c :
  lowerHex c = true -> exists d, 0 <= d < 16 /\ hexDigit d = c.
Proof.
  intros H. exists (default 0 (digitValue c)). revert H.
  destruct c as [b0 b1 b2 b3 b4 b5 b6 b7].
  destruct b0, b1, b2, b3, b4, b5, b6, b7; intros H;
    try discriminate H; (split; [vm_compute; split; congruence | reflexivity]).
Qed.

(** Two digits are the text of one channel. *)
Lemma lowerHex_hex2 c1 c2 :
  lowerHex c1 = true -> lowerHex c2 = true -> exists b, hex2 b = [c1; c2].
Proof.
  intros H1 H2.
  destruct (lowerHex_hexDigit c1 H1) as (d1 & Hd1 & <-).
  destruct (lowerHex_hexDigit c2 H2) as (d2 & Hd2 & <-).
  assert (Hb : exists b, channel b = 16 * d1 + d2).
  { destruct (Byte.of_N (Z.to_N (16 * d1 + d2))) as [b|] eqn:E.
    - exists b. unfold channel. apply Byte.to_of_N in E. rewrite E. lia.
    - apply Byte.of_N_None_iff in E. lia. }
  destruct Hb as [b Hb]. exists b. unfold hex2. rewrite Hb.
  replace ((16 * d1 + d2) / 16) with d1 by (Z.div_mod_to_equations; lia).
  replace ((16 * d1 + d2) mod 16) with d2 by (Z.div_mod_to_equations; lia).
  reflexivity.
Qed.

(** Six digits are the text of a colour. *)
Lemma lowerHex_color digits :
  length digits = 6%nat -> forallb lowerHex digits = true ->
  exists c, getHexString c = string_of_list_ascii digits.
Proof.
  intros Hlen Hall.
  do 6 (destruct digits as [|? digits]; [discriminate Hlen|]).
  destruct digits; [|discriminate Hlen].
  cbn [forallb] in Hall.
  repeat (apply andb_prop in Hall as [? Hall]).
  destruct (lowerHex_hex2 a a0) as [r Hr]; [assumption..|].
  destruct (lowerHex_hex2 a1 a2) as [g Hg]; [assumption..|].
  destruct (lowerHex_hex2 a3 a4) as [b Hb]; [assumption..|].
  exists (Color r g b). unfold getHexString. cbn [red green blue].
  rewrite Hr, Hg, Hb. reflexivity.
Qed.

(** X30. An input on the colour picker of a material, the value being [#]
    and six hexadecimal digits in lower case: the colour of the material
    afterwards is the one that prints as this value, so that the label
    next to the picker, which is given the value, shows what a picker made
    anew for the material would show; the material is marked for update,
    nothing of the library is called, and the material keeps its identity,
    its uuid, its emissive colour and its textures. *)
Theorem color_input_round_trip
        (floorNumber : string -> Z) (digits : list ascii) (m : material) :
  length digits = 6%nat ->
  forallb lowerHex digits = true ->
  let value := String "#" (string_of_list_ascii digits) in
  let m' := fst (onInput floorNumber (ColorInput value) m) in
  option_map pickerValue (mat_color m') = Some value
  /\ mat_needsUpdate m' = true
  /\ snd (onInput floorNumber (ColorInput value) m) = []
  /\ mat_id m' = mat_id m /\ mat_uuid m' = mat_uuid m
  /\ mat_emissive m' = mat_emissive m /\ mat_maps m' = mat_maps m.
Proof.
  intros Hlen Hall value m'. subst value m'.
  destruct (lowerHex_color digits Hlen Hall) as [c Hc].
  rewrite <- Hc. cbn [onInput fst snd mat_color mat_needsUpdate option_map].
  change (String "#" (getHexString c)) with ("#" ++ getHexString c)%string.
  rewrite setHex_getHexString.
  repeat split.
Qed.

End OutlinerFacts.

Module OutlinerExamples.
Import Scene Hex Outliner OutlinerFacts Samples.

(** The picker of the panel's material is set to [#1a2b3c]. *)
Lemma color_input_round_trip_witness :
  option_map pickerValue
    (mat_color (fst (onInput (fun _ => 0%Z) (ColorInput "#1a2b3c")
                       panelMaterial)))
  = Some "#1a2b3c"%string.
Proof.
  destruct (color_input_round_trip (fun _ => 0%Z)
              (list_ascii_of_string "1a2b3c") panelMaterial)
    as [H _].
  - reflexivity.
  - reflexivity.
  - exact H.
Defined.

End OutlinerExamples.
